(** * tsresync: the MPEG transport stream resynchronizer

    A shallow embedding of [src/tstools/tsresync.cpp] and the properties of
    its synchronization engine.

    Conventions of the embedding:
    - [size_t], [uint64_t] and [std::streamsize] are 64-bit; their values are
      integers in [Z] and every arithmetic operation of the source on them is
      written with its wrap-around ([sz_add], [sz_sub], [to_streamsize]);
    - a byte ([uint8_t]) is a [Z] in [0, 256);
    - a pointer into the synchronization buffer is its offset from
      [sync_buf] (a [Z], possibly negative or past the end); pointer
      arithmetic and pointer comparison are those of [Z];
    - dereferencing a pointer outside the buffer, a failed [assert]
      (assertions are taken as compiled in) and a loop that outlives its
      fuel are distinct results of type [outcome];
    - the loops of the source are functions with a fuel argument, set by
      their callers to a bound on the number of iterations where the
      source has one;
    - diagnostics written to [std::cerr] are not modelled. *)

From Stdlib Require Import ZArith List Bool Lia.
Import ListNotations.
Open Scope Z_scope.

(* ------------------------------------------------------------------ *)
(** * Results of a computation *)

Inductive outcome (A : Type) : Type :=
| Ret (a : A)      (* normal completion *)
| AssertFail       (* an assert() did not hold *)
| Undefined        (* access outside the buffer, division by zero *)
| OutOfFuel.       (* the loop bound of the model was reached *)

Arguments Ret {A} a.
Arguments AssertFail {A}.
Arguments Undefined {A}.
Arguments OutOfFuel {A}.

Definition bind {A B : Type} (c : outcome A) (k : A -> outcome B) : outcome B :=
  match c with
  | Ret a => k a
  | AssertFail => AssertFail
  | Undefined => Undefined
  | OutOfFuel => OutOfFuel
  end.

Notation "x <- c ;; k" := (bind c (fun x => k))
  (at level 61, c at next level, right associativity).
Notation "' p <- c ;; k" := (bind c (fun x => let 'p := x in k))
  (at level 61, p pattern, c at next level, right associativity).

(* ------------------------------------------------------------------ *)
(** * Machine integers *)

Definition SIZE_MOD : Z := 2 ^ 64.

Definition wrap (x : Z) : Z := x mod SIZE_MOD.

(** [a + b] and [a - b] on [size_t] (or [uint64_t]) operands. *)
Definition sz_add (a b : Z) : Z := wrap (a + b).
Definition sz_sub (a b : Z) : Z := wrap (a - b).

(** The conversion [std::streamsize (size)] of a [size_t]. *)
Definition to_streamsize (x : Z) : Z :=
  if x <? 2 ^ 63 then x else x - SIZE_MOD.

(** Unsigned division; dividing by zero is undefined. *)
Definition udiv (a b : Z) : outcome Z :=
  if b =? 0 then Undefined else Ret (a / b).

(* ------------------------------------------------------------------ *)
(** * Constants of tsMPEG.h *)

(** Modelled from the spec: tsMPEG.h, which declares [PKT_SIZE], is not
    among the sources; the bare packet size is 188 bytes (help text of
    --keep and --packet-size). *)
Definition PKT_SIZE : Z := 188.

(** Modelled from the spec: tsMPEG.h, which declares [SYNC_BYTE], is not
    among the sources; the marker byte is 0x47 (help text of --continue). *)
Definition SYNC_BYTE : Z := 0x47.

(** Modelled from the spec: tsMPEG.h, which declares [PKT_RS_SIZE], is not
    among the sources; a packet with trailing 16-byte Reed-Solomon outer
    FEC has 204 bytes (help text of --packet-size). *)
Definition PKT_RS_SIZE : Z := 204.

(** Modelled from the spec: tsMPEG.h, which declares [PKT_M2TS_SIZE], is
    not among the sources; an M2TS packet has 192 bytes (help text of
    --packet-size). *)
Definition PKT_M2TS_SIZE : Z := 192.

(** Modelled from the spec: tsMPEG.h, which declares [M2TS_HEADER_SIZE],
    is not among the sources; an M2TS packet starts with a 4-byte
    timestamp (help text of --packet-size). *)
Definition M2TS_HEADER_SIZE : Z := 4.

(* ------------------------------------------------------------------ *)
(** * Memory: the synchronization buffer *)

Definition len (m : list Z) : Z := Z.of_nat (length m).

(** [n] bytes of [m] from offset [p] on (fewer where [m] ends). *)
Definition slice (m : list Z) (p n : Z) : list Z :=
  firstn (Z.to_nat n) (skipn (Z.to_nat p) m).

(** [p[0]] for a pointer [p]. *)
Definition load (m : list Z) (p : Z) : outcome Z :=
  if (0 <=? p) && (p <? len m)
  then Ret (nth (Z.to_nat p) m 0)
  else Undefined.

(** The [n] bytes read from [p] on by a write or a memmove. *)
Definition load_range (m : list Z) (p n : Z) : outcome (list Z) :=
  if (0 <=? p) && (0 <=? n) && (p + n <=? len m)
  then Ret (slice m p n)
  else Undefined.

(** The bytes [bs] stored from [p] on. *)
Definition store_range (m : list Z) (p : Z) (bs : list Z) : outcome (list Z) :=
  if (0 <=? p) && (p + len bs <=? len m)
  then Ret (firstn (Z.to_nat p) m ++ bs ++ skipn (Z.to_nat (p + len bs)) m)
  else Undefined.

(** [::memmove (dst, src, n)]: the source bytes are read before any byte
    is written, so overlapping ranges are handled. *)
Definition memmove (m : list Z) (dst src n : Z) : outcome (list Z) :=
  bs <- load_range m src n ;;
  store_range m dst bs.

(* ------------------------------------------------------------------ *)
(** * The standard streams *)

(** What the input device gives once its data is exhausted. *)
Inductive end_kind : Type := EndOfFile | ReadError.

(** [std::cin]: the bytes not yet extracted, what follows them, and the
    stream state ([in_fail] is [fail()], that is failbit or badbit). *)
Record istream : Type := {
  in_data : list Z;
  in_end : end_kind;
  in_eofbit : bool;
  in_badbit : bool;
  in_fail : bool
}.

(** [std::cin.read (s, n)] followed by the conversion of the stream to
    [bool]: the characters extracted (what [gcount()] counts), [!fail()],
    and the stream afterwards. A stream that is not good extracts nothing.
    Otherwise characters are extracted until [n] are stored or the data
    ends; in the latter case failbit is set, with eofbit at end of file and
    badbit on a read error. *)
Definition istream_read (s : istream) (n : Z) : list Z * bool * istream :=
  if in_fail s || in_eofbit s then
    ([], false,
     {| in_data := in_data s; in_end := in_end s; in_eofbit := in_eofbit s;
        in_badbit := in_badbit s; in_fail := true |})
  else if n <=? len (in_data s) then
    (firstn (Z.to_nat n) (in_data s), true,
     {| in_data := skipn (Z.to_nat n) (in_data s); in_end := in_end s;
        in_eofbit := false; in_badbit := false; in_fail := false |})
  else
    (in_data s, false,
     {| in_data := []; in_end := in_end s;
        in_eofbit := match in_end s with EndOfFile => true | ReadError => false end;
        in_badbit := match in_end s with EndOfFile => false | ReadError => true end;
        in_fail := true |}).

(** [std::cout]: the bytes written so far, the number of bytes the device
    still accepts ([None]: no limit), and [fail()]. The stream is taken
    without a buffer of its own: a write that the device refuses fails in
    the call itself. A failure that a buffered stream meets later, when it
    is flushed, is not modelled: what is proved of the output is stated
    for a device without limit or for runs that return with [fail()]
    false, and what is proved of a failed write for the calls of
    [writePacket] that find [fail()] true. *)
Record ostream : Type := {
  out_data : list Z;
  out_room : option Z;
  out_fail : bool
}.

(** [std::cout.write (s, n)] followed by the conversion of the stream to
    [bool]. *)
Definition ostream_write (s : ostream) (bs : list Z) : bool * ostream :=
  if out_fail s then (false, s)
  else match out_room s with
       | None =>
           (true, {| out_data := out_data s ++ bs; out_room := None;
                     out_fail := false |})
       | Some k =>
           if len bs <=? k then
             (true, {| out_data := out_data s ++ bs;
                       out_room := Some (k - len bs); out_fail := false |})
           else
             (false, {| out_data := out_data s ++ firstn (Z.to_nat k) bs;
                        out_room := Some 0; out_fail := true |})
       end.

(* ------------------------------------------------------------------ *)
(** * class Resynchronizer *)

Inductive Status : Type := RS_OK | RS_SYNC_LOST | RS_EOF | RS_ERROR.

Definition Status_eqb (a b : Status) : bool :=
  match a, b with
  | RS_OK, RS_OK | RS_SYNC_LOST, RS_SYNC_LOST
  | RS_EOF, RS_EOF | RS_ERROR, RS_ERROR => true
  | _, _ => false
  end.

Record Resynchronizer : Type := {
  _status : Status;
  _keep_packet_size : bool;
  _out_size : Z;
  _in_pkt_size : Z;
  _in_header_size : Z;
  _out_pkt_size : Z;
  _out_header_size : Z
}.

(** The constructor [Resynchronizer (keep_packet_size)]. *)
Definition Resynchronizer_new (keep_packet_size : bool) : Resynchronizer :=
  {| _status := RS_OK; _keep_packet_size := keep_packet_size;
     _out_size := 0; _in_pkt_size := 0; _in_header_size := 0;
     _out_pkt_size := 0; _out_header_size := 0 |}.

Definition setStatus (r : Resynchronizer) (s : Status) : Resynchronizer :=
  {| _status := s; _keep_packet_size := _keep_packet_size r;
     _out_size := _out_size r; _in_pkt_size := _in_pkt_size r;
     _in_header_size := _in_header_size r;
     _out_pkt_size := _out_pkt_size r;
     _out_header_size := _out_header_size r |}.

Definition reset (r : Resynchronizer) : Resynchronizer :=
  {| _status := RS_OK; _keep_packet_size := _keep_packet_size r;
     _out_size := _out_size r; _in_pkt_size := 0; _in_header_size := 0;
     _out_pkt_size := _out_pkt_size r;
     _out_header_size := _out_header_size r |}.

Definition status (r : Resynchronizer) : Status := _status r.
Definition inputPacketSize (r : Resynchronizer) : Z := _in_pkt_size r.
Definition inputHeaderSize (r : Resynchronizer) : Z := _in_header_size r.
Definition outputPacketSize (r : Resynchronizer) : Z := _out_pkt_size r.
Definition outputHeaderSize (r : Resynchronizer) : Z := _out_header_size r.
Definition outputFileBytes (r : Resynchronizer) : Z := _out_size r.

Definition outputFilePackets (r : Resynchronizer) : outcome Z :=
  if _out_pkt_size r =? 0 then Ret 0 else udiv (_out_size r) (_out_pkt_size r).

(** ** readData *)

(** The state of the whole program that the member functions act on
    besides the Resynchronizer itself is passed explicitly: the buffer
    [m], [std::cin] and [std::cout]. *)

Fixpoint readData_loop (fuel : nat) (r : Resynchronizer) (m : list Z)
    (cin : istream) (buf got remain : Z)
    : outcome (Z * Resynchronizer * list Z * istream) :=
  if 0 <? remain then
    match fuel with
    | O => OutOfFuel
    | S fuel' =>
        let '(chars, ok, cin') := istream_read cin remain in
        m' <- store_range m (buf + got) chars ;;
        if ok then
          let count := len chars in
          readData_loop fuel' r m' cin' buf (got + count) (remain - count)
        else
          Ret (got, (if got =? 0 then setStatus r RS_EOF else r), m', cin')
    end
  else Ret (got, r, m, cin).

(** A read that succeeds extracts all of [remain], so the loop body runs
    at most once before [remain] is zero: two units of fuel always do
    (lemma [readData_unfold]). *)
Definition readData (r : Resynchronizer) (m : list Z) (cin : istream)
    (buf size : Z) : outcome (Z * Resynchronizer * list Z * istream) :=
  '(got, r', m', cin') <-
     readData_loop 2 r m cin buf 0 (to_streamsize size) ;;
  Ret (wrap got, r', m', cin').

(** ** writePacket *)

Definition writePacket (r : Resynchronizer) (m : list Z) (cout : ostream)
    (input_packet : Z) : outcome (bool * Resynchronizer * ostream) :=
  let out_pkt := input_packet + _in_header_size r - _out_header_size r in
  bs <- load_range m out_pkt (_out_pkt_size r) ;;
  let '(ok, cout') := ostream_write cout bs in
  if ok then
    Ret (true,
         {| _status := _status r; _keep_packet_size := _keep_packet_size r;
            _out_size := sz_add (_out_size r) (_out_pkt_size r);
            _in_pkt_size := _in_pkt_size r;
            _in_header_size := _in_header_size r;
            _out_pkt_size := _out_pkt_size r;
            _out_header_size := _out_header_size r |},
         cout')
  else
    Ret (false, setStatus r RS_ERROR, cout').

(** ** checkSync *)

Fixpoint checkSync_loop (fuel : nat) (m : list Z)
    (buf end_ pkt_size header_size : Z) : outcome bool :=
  if buf <? end_ then
    match fuel with
    | O => OutOfFuel
    | S fuel' =>
        b <- load m (buf + header_size) ;;
        if negb (b =? SYNC_BYTE) then Ret false
        else checkSync_loop fuel' m (buf + pkt_size) end_ pkt_size header_size
    end
  else Ret true.

Definition checkSync (r : Resynchronizer) (m : list Z)
    (buf buf_size pkt_size header_size : Z)
    : outcome (bool * Resynchronizer) :=
  if negb (sz_add header_size PKT_SIZE <=? pkt_size) then AssertFail
  else
    let end_ := buf + buf_size - pkt_size + 1 in
    found <- checkSync_loop (Z.to_nat (end_ - buf)) m buf end_
               pkt_size header_size ;;
    if found then
      Ret (true,
           {| _status := _status r;
              _keep_packet_size := _keep_packet_size r;
              _out_size := _out_size r;
              _in_pkt_size := pkt_size;
              _in_header_size := header_size;
              _out_pkt_size :=
                if _keep_packet_size r then pkt_size else PKT_SIZE;
              _out_header_size :=
                if _keep_packet_size r then header_size else 0 |})
    else Ret (false, r).

(* ------------------------------------------------------------------ *)
(** * Command line options *)

(** The fields of [struct Options] that the engine reads. The file names
    and the verbose flag only select where the standard streams point and
    what is printed on [std::cerr]. *)
Record Options : Type := {
  sync_size : Z;
  contig_size : Z;
  packet_size : Z;
  header_size : Z;
  cont_sync : bool;
  keep : bool
}.

(** The values found on the command line, [None] for an absent option. *)
Record CommandLine : Type := {
  cl_sync_size : option Z;
  cl_min_contiguous : option Z;
  cl_header_size : option Z;
  cl_packet_size : option Z;
  cl_continue : bool;
  cl_keep : bool
}.

Definition MIN_SYNC_SIZE : Z := 1024.
Definition MAX_SYNC_SIZE : Z := 8 * 1024 * 1024.
Definition DEFAULT_SYNC_SIZE : Z := 1024 * 1024.
Definition MIN_CONTIG_SIZE : Z := 2 * PKT_SIZE.
Definition MAX_CONTIG_SIZE : Z := 8 * 1024 * 1024.
Definition DEFAULT_CONTIG_SIZE : Z := 512 * 1024.

(** Modelled from the spec: class Args is not among the sources. A value
    given for an option declared with bounds is accepted when it lies
    within them (the window sizes are "caller-configurable with validated
    minimums"). *)
Definition value_ok (v : option Z) (lo hi : Z) : bool :=
  match v with
  | None => true
  | Some x => (lo <=? x) && (x <=? hi)
  end.

(** Modelled from the spec: class Args is not among the sources.
    [analyze] checks every value against the bounds that the [option]
    calls of the constructor declare; an UNSIGNED option only has to be
    non-negative and to fit [size_t]. The result tells whether all values
    were accepted. *)
Definition analyze (cl : CommandLine) : bool :=
  value_ok (cl_header_size cl) 0 (SIZE_MOD - 1)
  && value_ok (cl_min_contiguous cl) MIN_CONTIG_SIZE MAX_CONTIG_SIZE
  && value_ok (cl_packet_size cl) PKT_SIZE 0x7FFFFFFF
  && value_ok (cl_sync_size cl) MIN_SYNC_SIZE MAX_SYNC_SIZE.

(** Modelled from the spec: class Args is not among the sources.
    [intValue (name, def)] is the value of the option, [def] when the
    option is absent. *)
Definition intValue (v : option Z) (def : Z) : Z :=
  match v with
  | None => def
  | Some x => x
  end.

(** Modelled from the spec: class Args is not among the sources.
    [exitOnError ()] ends the process when an error was reported, by
    [analyze] or by a call of [error] (a configuration error is "detected
    before any I/O, fatal"); [None] stands for that exit. *)
Definition exitOnError (errors : bool) (opt : Options) : option Options :=
  if errors then None else Some opt.

(** The constructor [Options::Options]: [errors] tells whether an error
    was reported so far. *)
Definition Options_new (cl : CommandLine) : option Options :=
  let errors := negb (analyze cl) in
  let sync_size := intValue (cl_sync_size cl) DEFAULT_SYNC_SIZE in
  let contig_size := intValue (cl_min_contiguous cl) DEFAULT_CONTIG_SIZE in
  let header_size := intValue (cl_header_size cl) 0 in
  let packet_size := intValue (cl_packet_size cl) 0 in
  let errors :=
    if (0 <? packet_size) && (packet_size <? sz_add header_size PKT_SIZE)
    then true else errors in
  exitOnError errors
    {| sync_size := sync_size; contig_size := contig_size;
       packet_size := packet_size; header_size := header_size;
       cont_sync := cl_continue cl; keep := cl_keep cl |}.

(* ------------------------------------------------------------------ *)
(** * Program entry point *)

(** The variables of [main] that live across the iterations of its
    loops. *)
Record engine : Type := {
  resync : Resynchronizer;
  sync_buf : list Z;
  sync_pre_size : Z;
  e_cin : istream;
  e_cout : ostream
}.

(** The body of the [for] loop over [start]: the calls of checkSync, in
    order, until one returns true. The result tells whether the loop is
    left by [break]; its last component lists the (pkt_size, header_size)
    pairs passed to checkSync, in call order. *)
Definition search_body (opt : Options) (r : Resynchronizer) (m : list Z)
    (start search_size : Z)
    : outcome (bool * Resynchronizer * list (Z * Z)) :=
  if 0 <? packet_size opt then
    '(b, r1) <- checkSync r m start search_size
                  (packet_size opt) (header_size opt) ;;
    Ret (b, r1, [(packet_size opt, header_size opt)])
  else
    '(b1, r1) <- checkSync r m start search_size PKT_SIZE 0 ;;
    if b1 then Ret (true, r1, [(PKT_SIZE, 0)])
    else
      '(b2, r2) <- checkSync r1 m start search_size PKT_RS_SIZE 0 ;;
      if b2 then Ret (true, r2, [(PKT_SIZE, 0); (PKT_RS_SIZE, 0)])
      else
        '(b3, r3) <- checkSync r2 m start search_size
                       PKT_M2TS_SIZE M2TS_HEADER_SIZE ;;
        Ret (b3, r3, [(PKT_SIZE, 0); (PKT_RS_SIZE, 0);
                      (PKT_M2TS_SIZE, M2TS_HEADER_SIZE)]).

Fixpoint search_loop (fuel : nat) (opt : Options) (r : Resynchronizer)
    (m : list Z) (start end_search search_size : Z)
    : outcome (Z * Resynchronizer * list (Z * Z)) :=
  if start <? end_search then
    match fuel with
    | O => OutOfFuel
    | S fuel' =>
        '(brk, r', tried) <- search_body opt r m start search_size ;;
        if brk then Ret (start, r', tried)
        else
          '(start', r'', tried') <-
             search_loop fuel' opt r' m (start + 1) end_search search_size ;;
          Ret (start', r'', tried ++ tried')
    end
  else Ret (start, r, []).

(** The loop that outputs the initial buffer. *)
Fixpoint drain_loop (fuel : nat) (r : Resynchronizer) (m : list Z)
    (cout : ostream) (start sync_end : Z)
    : outcome (Z * Resynchronizer * ostream) :=
  if start <=? sync_end - inputPacketSize r then
    b <- load m (start + inputHeaderSize r) ;;
    if b =? SYNC_BYTE then
      match fuel with
      | O => OutOfFuel
      | S fuel' =>
          '(ok, r', cout') <- writePacket r m cout start ;;
          if negb ok then Ret (start, r', cout')
          else drain_loop fuel' r' m cout' (start + inputPacketSize r')
                 sync_end
      end
    else Ret (start, r, cout)
  else Ret (start, r, cout).

(** "Compact sync buffer": the new [sync_pre_size] and the buffer. *)
Definition compact (m : list Z) (start sync_end : Z) : outcome (Z * list Z) :=
  if start >=? sync_end then Ret (0, m)
  else
    let pre := wrap (sync_end - start) in
    m' <- memmove m 0 start pre ;;
    Ret (pre, m').

(** One iteration of "Read the rest of the input file". *)
Definition steady_body (e : engine) : outcome engine :=
  let r := resync e in
  if negb (sync_pre_size e <? inputPacketSize r) then AssertFail
  else
    let remain_size := sz_sub (inputPacketSize r) (sync_pre_size e) in
    '(n, r1, m1, cin1) <-
       readData r (sync_buf e) (e_cin e) (0 + sync_pre_size e) remain_size ;;
    if negb (n =? remain_size) then
      Ret {| resync := setStatus r1 RS_EOF; sync_buf := m1;
             sync_pre_size := sync_pre_size e;
             e_cin := cin1; e_cout := e_cout e |}
    else
      b <- load m1 (inputHeaderSize r1) ;;
      if negb (b =? SYNC_BYTE) then
        Ret {| resync := setStatus r1 RS_SYNC_LOST; sync_buf := m1;
               sync_pre_size := inputPacketSize r1;
               e_cin := cin1; e_cout := e_cout e |}
      else
        '(_, r2, cout2) <- writePacket r1 m1 (e_cout e) 0 ;;
        Ret {| resync := r2; sync_buf := m1; sync_pre_size := 0;
               e_cin := cin1; e_cout := cout2 |}.

Fixpoint steady_loop (fuel : nat) (e : engine) : outcome engine :=
  if Status_eqb (status (resync e)) RS_OK then
    match fuel with
    | O => OutOfFuel
    | S fuel' => e' <- steady_body e ;; steady_loop fuel' e'
    end
  else Ret e.

(** What follows the drain in the body of the [do] loop: compaction, the
    test for lost synchronization and the per-packet loop. *)
Definition after_drain (fuel : nat) (e : engine) (start sync_end : Z)
    : outcome engine :=
  '(pre, m') <- compact (sync_buf e) start sync_end ;;
  let r := if pre >=? inputPacketSize (resync e)
           then setStatus (resync e) RS_SYNC_LOST else resync e in
  steady_loop fuel {| resync := r; sync_buf := m'; sync_pre_size := pre;
                      e_cin := e_cin e; e_cout := e_cout e |}.

(** The body of the [do] loop. The first component of the result tells
    whether the loop is left by [break]. *)
Definition pass (fuel : nat) (opt : Options) (e : engine)
    : outcome (bool * engine) :=
  let sync_buf_size := len (sync_buf e) in
  let r0 := reset (resync e) in
  '(read_size, r1, m1, cin1) <-
     readData r0 (sync_buf e) (e_cin e) (0 + sync_pre_size e)
       (sz_sub sync_buf_size (sync_pre_size e)) ;;
  let sync_size := sz_add (sync_pre_size e) read_size in
  let sync_end := 0 + sync_size in
  let search_size := Z.min (contig_size opt) sync_size in
  let end_search := sync_end - search_size + 1 in
  '(start, r2, _) <-
     search_loop (Z.to_nat end_search) opt r1 m1 0 end_search search_size ;;
  if inputPacketSize r2 =? 0 then
    Ret (true, {| resync := setStatus r2 RS_ERROR; sync_buf := m1;
                  sync_pre_size := sync_pre_size e;
                  e_cin := cin1; e_cout := e_cout e |})
  else
    '(start', r3, cout3) <-
       drain_loop (Z.to_nat (sync_end - start)) r2 m1 (e_cout e)
         start sync_end ;;
    let e3 := {| resync := r3; sync_buf := m1;
                 sync_pre_size := sync_pre_size e;
                 e_cin := cin1; e_cout := cout3 |} in
    if negb (Status_eqb (status r3) RS_OK) then Ret (true, e3)
    else
      e' <- after_drain fuel e3 start' sync_end ;;
      Ret (false, e').

Fixpoint main_loop (fuel : nat) (opt : Options) (e : engine)
    : outcome engine :=
  match fuel with
  | O => OutOfFuel
  | S fuel' =>
      '(brk, e') <- pass fuel' opt e ;;
      if brk then Ret e'
      else if Status_eqb (status (resync e')) RS_OK
              || (Status_eqb (status (resync e')) RS_SYNC_LOST
                  && cont_sync opt)
      then main_loop fuel' opt e'
      else Ret e'
  end.

(** Modelled from the spec: class ByteBlock is not among the sources;
    [ByteBlock (size)] is a buffer of [size] bytes, whose initial content
    (zeros here) is never read before it is overwritten. *)
Definition ByteBlock (size : Z) : list Z := repeat 0 (Z.to_nat size).

(** The state of [main] when it enters the [do] loop. *)
Definition engine_init (opt : Options) (cin : istream) (cout : ostream)
    : engine :=
  {| resync := Resynchronizer_new (keep opt);
     sync_buf := ByteBlock (sz_add (sync_size opt) (contig_size opt));
     sync_pre_size := 0;
     e_cin := cin; e_cout := cout |}.

(** [main] from the [do] loop on, for options that were accepted. *)
Definition run (fuel : nat) (opt : Options) (cin : istream) (cout : ostream)
    : outcome engine :=
  main_loop fuel opt (engine_init opt cin cout).

Definition EXIT_SUCCESS : Z := 0.
Definition EXIT_FAILURE : Z := 1.

Definition exit_status (r : Resynchronizer) : Z :=
  if Status_eqb (status r) RS_EOF then EXIT_SUCCESS else EXIT_FAILURE.

(** The whole program: the exit status and the standard streams when the
    process ends, and the Resynchronizer if one was created. *)
Definition main (fuel : nat) (cl : CommandLine) (cin : istream)
    (cout : ostream)
    : outcome (Z * istream * ostream * option Resynchronizer) :=
  match Options_new cl with
  | None => Ret (EXIT_FAILURE, cin, cout, None)
  | Some opt =>
      e <- run fuel opt cin cout ;;
      Ret (exit_status (resync e), e_cin e, e_cout e, Some (resync e))
  end.

(* ------------------------------------------------------------------ *)
(** * Predicates of the statements *)

(** The marker byte is at address [a] of [m]. *)
Definition marker_at (m : list Z) (a : Z) : Prop := load m a = Ret SYNC_BYTE.

(** Every complete packet of the region carries the marker byte. *)
Definition all_markers (m : list Z) (buf buf_size pkt_size header_size : Z)
    : Prop :=
  forall k, 0 <= k -> k * pkt_size + pkt_size <= buf_size ->
            marker_at m (buf + k * pkt_size + header_size).

(** The Resynchronizer after a successful checkSync. *)
Definition confirmed (r : Resynchronizer) (pkt_size header_size : Z)
    : Resynchronizer :=
  {| _status := _status r;
     _keep_packet_size := _keep_packet_size r;
     _out_size := _out_size r;
     _in_pkt_size := pkt_size;
     _in_header_size := header_size;
     _out_pkt_size := if _keep_packet_size r then pkt_size else PKT_SIZE;
     _out_header_size := if _keep_packet_size r then header_size else 0 |}.

(* ------------------------------------------------------------------ *)
(** * Test data *)

(** [std::cin] on a source that holds [bs] and then ends as [k] says. *)
Definition stdin_of (bs : list Z) (k : end_kind) : istream :=
  {| in_data := bs; in_end := k; in_eofbit := false;
     in_badbit := false; in_fail := false |}.

(** [std::cout] on a sink that accepts everything. *)
Definition stdout_new : ostream :=
  {| out_data := []; out_room := None; out_fail := false |}.

(** The smallest windows the options accept: a search window of 1024 bytes
    and a verification window of two packets. *)
Definition cl_small : CommandLine :=
  {| cl_sync_size := Some 1024; cl_min_contiguous := Some 376;
     cl_header_size := None; cl_packet_size := None;
     cl_continue := false; cl_keep := false |}.

(** A bare packet: the marker byte and 187 bytes [b]. *)
Definition bare_packet (b : Z) : list Z := SYNC_BYTE :: repeat b 187.

(** The engine in the per-packet loop, bare framing confirmed, when the
    source breaks with a read error after 100 bytes of a packet. *)
Definition engine_read_error : engine :=
  {| resync := confirmed (Resynchronizer_new false) 188 0;
     sync_buf := ByteBlock 1400;
     sync_pre_size := 0;
     e_cin := stdin_of (repeat 0 100) ReadError;
     e_cout := stdout_new |}.

(** The engine when a drain ends at offset 376 of a full buffer of 1400
    bytes, bare framing confirmed. *)
Definition engine_drained : engine :=
  {| resync := confirmed (Resynchronizer_new false) 188 0;
     sync_buf := bare_packet 1 ++ bare_packet 2 ++ repeat 3 1024;
     sync_pre_size := 0;
     e_cin := stdin_of [] EndOfFile;
     e_cout := stdout_new |}.

(* ------------------------------------------------------------------ *)
(** * The operations of one invocation *)

(** The member functions of Resynchronizer that change it, with their
    arguments. [main] acts on its Resynchronizer through these only. *)
Inductive operation : Type :=
| Op_reset
| Op_setStatus (s : Status)
| Op_checkSync (buf buf_size pkt_size header_size : Z)
| Op_readData (buf size : Z)
| Op_writePacket (input_packet : Z).

Definition perform (o : operation) (e : engine) : outcome engine :=
  match o with
  | Op_reset =>
      Ret {| resync := reset (resync e); sync_buf := sync_buf e;
             sync_pre_size := sync_pre_size e;
             e_cin := e_cin e; e_cout := e_cout e |}
  | Op_setStatus s =>
      Ret {| resync := setStatus (resync e) s; sync_buf := sync_buf e;
             sync_pre_size := sync_pre_size e;
             e_cin := e_cin e; e_cout := e_cout e |}
  | Op_checkSync buf buf_size pkt_size header_size =>
      '(_, r') <- checkSync (resync e) (sync_buf e) buf buf_size
                    pkt_size header_size ;;
      Ret {| resync := r'; sync_buf := sync_buf e;
             sync_pre_size := sync_pre_size e;
             e_cin := e_cin e; e_cout := e_cout e |}
  | Op_readData buf size =>
      '(_, r', m', cin') <- readData (resync e) (sync_buf e) (e_cin e)
                              buf size ;;
      Ret {| resync := r'; sync_buf := m';
             sync_pre_size := sync_pre_size e;
             e_cin := cin'; e_cout := e_cout e |}
  | Op_writePacket input_packet =>
      '(_, r', cout') <- writePacket (resync e) (sync_buf e) (e_cout e)
                           input_packet ;;
      Ret {| resync := r'; sync_buf := sync_buf e;
             sync_pre_size := sync_pre_size e;
             e_cin := e_cin e; e_cout := cout' |}
  end.

Fixpoint perform_all (os : list operation) (e : engine) : outcome engine :=
  match os with
  | [] => Ret e
  | o :: os' => e' <- perform o e ;; perform_all os' e'
  end.

(** What every operation keeps true of the Resynchronizer created with
    [keep_packet_size = keep]. *)
Definition counters_inv (keep : bool) (r : Resynchronizer) : Prop :=
  _keep_packet_size r = keep
  /\ 0 <= _out_size r
  /\ 0 <= _out_pkt_size r
  /\ (keep = false ->
      (_out_pkt_size r = 0 /\ _out_size r = 0) \/ _out_pkt_size r = PKT_SIZE).

(** --packet-size 200 --header-size 20: the header leaves no room for a
    bare packet. *)
Definition cl_header_too_large : CommandLine :=
  {| cl_sync_size := None; cl_min_contiguous := None;
     cl_header_size := Some 20; cl_packet_size := Some 200;
     cl_continue := false; cl_keep := false |}.

(** --keep --continue with the smallest windows. *)
Definition opt_keep_continue : Options :=
  {| sync_size := 1024; contig_size := 376; packet_size := 0;
     header_size := 0; cont_sync := true; keep := true |}.

(** Thirteen bare packets, then a block whose second byte is the marker
    and which holds no other marker byte. *)
Definition stream_two_framings : list Z :=
  concat (repeat (bare_packet 1) 13) ++ [0; SYNC_BYTE] ++ repeat 0 1398.

(** The formats that the search passes to checkSync, in the order of the
    calls (lemma [search_body_candidates]). *)
Definition candidates (opt : Options) : list (Z * Z) :=
  if 0 <? packet_size opt then [(packet_size opt, header_size opt)]
  else [(PKT_SIZE, 0); (PKT_RS_SIZE, 0); (PKT_M2TS_SIZE, M2TS_HEADER_SIZE)].

(** Options as the constructor accepts them: the two windows within the
    bounds of their options, and an explicit packet size, if any, with
    room for its header and a bare packet. *)
Definition options_ok (opt : Options) : Prop :=
  MIN_SYNC_SIZE <= sync_size opt <= MAX_SYNC_SIZE
  /\ MIN_CONTIG_SIZE <= contig_size opt <= MAX_CONTIG_SIZE
  /\ (packet_size opt = 0
      \/ (0 <= header_size opt
          /\ header_size opt + PKT_SIZE <= packet_size opt <= 0x7FFFFFFF)).

(** A packet of the format [(pkt_size, header_size)]. *)
Definition valid_packet (pkt_size header_size : Z) (p : list Z) : Prop :=
  len p = pkt_size /\ nth (Z.to_nat header_size) p 0 = SYNC_BYTE.

(** The bare packet inside a packet with a header. *)
Definition strip (header_size : Z) (p : list Z) : list Z :=
  slice p header_size PKT_SIZE.

(** The Resynchronizer in the per-packet loop once [n] bare packets were
    written for the input format [(pkt_size, header_size)]. *)
Definition reframing (pkt_size header_size n : Z) (s : Status)
    : Resynchronizer :=
  {| _status := s; _keep_packet_size := false;
     _out_size := PKT_SIZE * n;
     _in_pkt_size := pkt_size; _in_header_size := header_size;
     _out_pkt_size := PKT_SIZE; _out_header_size := 0 |}.

(** The bare packets of the packets number [j] to [j + n - 1] of a stream
    [data] of packets of the format [(pkt_size, header_size)]. *)
Definition pieces (data : list Z) (pkt_size header_size : Z) (j n : nat)
    : list Z :=
  flat_map
    (fun i => slice data (Z.of_nat i * pkt_size + header_size) PKT_SIZE)
    (seq j n).

(** The state of the per-packet loop on such a stream when [j] packets
    were written and [sync_pre_size] bytes of the next one are in a buffer
    of [b] bytes. *)
Definition steady_inv (data : list Z) (pkt_size header_size b : Z)
    (e : engine) (j : nat) : Prop :=
  resync e = reframing pkt_size header_size (Z.of_nat j) RS_OK
  /\ 0 <= sync_pre_size e < pkt_size
  /\ Z.of_nat j * pkt_size + sync_pre_size e <= len data
  /\ len (sync_buf e) = b
  /\ firstn (Z.to_nat (sync_pre_size e)) (sync_buf e)
     = slice data (Z.of_nat j * pkt_size) (sync_pre_size e)
  /\ in_data (e_cin e)
     = skipn (Z.to_nat (Z.of_nat j * pkt_size + sync_pre_size e)) data
  /\ in_fail (e_cin e) = false
  /\ in_eofbit (e_cin e) = false
  /\ out_fail (e_cout e) = false
  /\ out_room (e_cout e) = None.

(** The default options with the smallest windows. *)
Definition opt_small : Options :=
  {| sync_size := 1024; contig_size := 376; packet_size := 0;
     header_size := 0; cont_sync := false; keep := false |}.

(** --packet-size 1000 with the smallest windows: the packet is larger
    than the verification window. *)
Definition cl_packet_1000 : CommandLine :=
  {| cl_sync_size := Some 1024; cl_min_contiguous := Some 376;
     cl_header_size := None; cl_packet_size := Some 1000;
     cl_continue := false; cl_keep := false |}.

(** A packet with trailing FEC whose byte 188 is the marker byte too. *)
Definition rs_packet_ambiguous : list Z :=
  SYNC_BYTE :: repeat 0 187 ++ SYNC_BYTE :: repeat 0 15.

(* ------------------------------------------------------------------ *)
(** * Predicates on the output of a run *)

(** The formats of the blocks that [writePacket] can be asked to write:
    (size, offset of the marker byte). Without --keep a bare packet, with
    --keep a packet of any candidate format. *)
Definition output_formats (opt : Options) : list (Z * Z) :=
  if keep opt then candidates opt else [(PKT_SIZE, 0)].

(** A block of one of these formats, with the marker byte in its place. *)
Definition block_ok (opt : Options) (b : list Z) : Prop :=
  exists c,
    In c (output_formats opt)
    /\ len b = fst c
    /\ nth (Z.to_nat (snd c)) b 0 = SYNC_BYTE.

(** What the program keeps true of its Resynchronizer and of [std::cout],
    which held [d0] when the program started: as long as no write has
    failed, the output is [d0] followed by whole blocks, and the byte
    counter is their total size, modulo 2^64. *)
Definition output_inv (opt : Options) (d0 : list Z) (r : Resynchronizer)
    (cout : ostream) : Prop :=
  out_fail cout = false ->
  exists blocks,
    out_data cout = d0 ++ concat blocks
    /\ Forall (block_ok opt) blocks
    /\ _out_size r = wrap (len (concat blocks)).

(** The output framing of the Resynchronizer is unset, and then nothing
    was written, or it is one of the output formats. *)
Definition out_framing_inv (opt : Options) (r : Resynchronizer) : Prop :=
  _keep_packet_size r = keep opt
  /\ ((_out_pkt_size r = 0 /\ _out_size r = 0)
      \/ In (_out_pkt_size r, _out_header_size r) (output_formats opt)).

(** Two Resynchronizers with the same framing. *)
Definition same_framing (r r' : Resynchronizer) : Prop :=
  _keep_packet_size r' = _keep_packet_size r
  /\ _in_pkt_size r' = _in_pkt_size r
  /\ _in_header_size r' = _in_header_size r
  /\ _out_pkt_size r' = _out_pkt_size r
  /\ _out_header_size r' = _out_header_size r.

(** No candidate format matches the region of [search_size] bytes at
    offset [s]. *)
Definition no_match (opt : Options) (m : list Z) (s search_size : Z) : Prop :=
  forall c, In c (candidates opt) ->
            ~ all_markers m s search_size (fst c) (snd c).

(** --packet-size 2000 with the smallest windows: the packet is larger
    than the buffer of 1400 bytes. *)
Definition opt_packet_2000 : Options :=
  {| sync_size := 1024; contig_size := 376; packet_size := 2000;
     header_size := 0; cont_sync := false; keep := false |}.

(** --packet-size 1000 --continue with the smallest windows: the packet is
    larger than the verification window and fits the buffer. *)
Definition opt_packet_1000_continue : Options :=
  {| sync_size := 1024; contig_size := 376; packet_size := 1000;
     header_size := 0; cont_sync := true; keep := false |}.

(** The framing of the Resynchronizer is the one that a successful
    checkSync sets for one of the candidate formats. *)
Definition framed (opt : Options) (r : Resynchronizer) : Prop :=
  exists c,
    In c (candidates opt)
    /\ _in_pkt_size r = fst c /\ _in_header_size r = snd c
    /\ _out_pkt_size r = (if _keep_packet_size r then fst c else PKT_SIZE)
    /\ _out_header_size r = (if _keep_packet_size r then snd c else 0).

(** The state of the engine between two passes of the [do] loop: the
    buffer has the size it was allocated with, and the bytes kept for the
    next pass leave room in it. *)
Definition pass_ready (opt : Options) (e : engine) : Prop :=
  len (sync_buf e) = sync_size opt + contig_size opt
  /\ 0 <= sync_pre_size e < sync_size opt + contig_size opt.

(** The state of the engine in the per-packet loop: a candidate framing
    is set, and the bytes kept in the buffer are less than a packet while
    the status is RS_OK. *)
Definition steady_ready (opt : Options) (e : engine) : Prop :=
  pass_ready opt e
  /\ framed opt (resync e)
  /\ (status (resync e) = RS_OK ->
      sync_pre_size e < inputPacketSize (resync e)).

(** The engine in the per-packet loop, bare framing confirmed, with three
    bytes kept in the buffer, when the bytes that complete the packet do
    not give it the marker byte. *)
Definition engine_sync_loss : engine :=
  {| resync := confirmed (Resynchronizer_new false) 188 0;
     sync_buf := [1; 2; 3] ++ ByteBlock 1397;
     sync_pre_size := 3;
     e_cin := stdin_of (repeat 0 185 ++ [SYNC_BYTE]) EndOfFile;
     e_cout := stdout_new |}.

(** The piece of [data] that the segment [s] (offset, length) names. *)
Definition cut (data : list Z) (s : Z * Z) : list Z :=
  slice data (fst s) (snd s).

(** The segments follow one another without overlap between the offsets
    [lo] and [hi]. *)
Fixpoint ordered (lo : Z) (segs : list (Z * Z)) (hi : Z) : Prop :=
  match segs with
  | [] => lo <= hi
  | s :: t => lo <= fst s /\ 0 <= snd s /\ ordered (fst s + snd s) t hi
  end.

(** What was written to [cout] after [d0], if no write failed, is cut
    from [data] below the offset [hi], in the order of [data]. *)
Definition output_cut (data d0 : list Z) (cout : ostream) (hi : Z) : Prop :=
  out_fail cout = false ->
  exists segs,
    out_data cout = d0 ++ concat (map (cut data) segs)
    /\ ordered 0 segs hi.

(** The first [pre] bytes of the buffer [m] are the [pre] bytes of
    [data] that end at the offset [pos]. *)
Definition holds (data m : list Z) (pre pos : Z) : Prop :=
  0 <= pre <= pos /\ pos <= len data /\ pre <= len m
  /\ slice m 0 pre = slice data (pos - pre) pre.

(** A stream that has not failed gives the bytes of [data] from the
    offset [pos] on. *)
Definition stream_at (data : list Z) (cin : istream) (pos : Z) : Prop :=
  in_fail cin = false -> in_eofbit cin = false ->
  in_data cin = skipn (Z.to_nat pos) data.

(** The engine in the per-packet loop when [pos] bytes of [data] were
    read: the bytes kept in the buffer are the last ones read, and the
    output is cut from the ones before. *)
Definition steady_cut (opt : Options) (data d0 : list Z) (e : engine)
    (pos : Z) : Prop :=
  holds data (sync_buf e) (sync_pre_size e) pos
  /\ stream_at data (e_cin e) pos
  /\ framed opt (resync e)
  /\ output_cut data d0 (e_cout e) (pos - sync_pre_size e).

(** The engine between two passes of the [do] loop when [pos] bytes of
    [data] were read. *)
Definition pass_cut (opt : Options) (data d0 : list Z) (e : engine)
    (pos : Z) : Prop :=
  holds data (sync_buf e) (sync_pre_size e) pos
  /\ stream_at data (e_cin e) pos
  /\ len (sync_buf e) = sync_size opt + contig_size opt
  /\ output_cut data d0 (e_cout e) (pos - sync_pre_size e).

(** A stream that fills the buffer of 1400 bytes once: two bare packets,
    three bytes that are no marker, two bare packets again, and 645
    bytes that are no marker. *)
Definition stream_drain_break : list Z :=
  bare_packet 1 ++ bare_packet 1 ++ repeat 0 3
    ++ bare_packet 1 ++ bare_packet 1 ++ repeat 0 645.

(** --packet-size 204 --header-size 16 with the smallest windows. *)
Definition cl_packet_204_16 : CommandLine :=
  {| cl_sync_size := Some 1024; cl_min_contiguous := Some 376;
     cl_header_size := Some 16; cl_packet_size := Some 204;
     cl_continue := false; cl_keep := false |}.

(* ================================================================== *)
(** * Properties *)

(** ** Machine integers and memory *)

Lemma SIZE_MOD_eq : SIZE_MOD = 18446744073709551616.
Proof. reflexivity. Qed.

Lemma wrap_small (x : Z) : 0 <= x < SIZE_MOD -> wrap x = x.
Proof. intros H. unfold wrap. apply Z.mod_small. exact H. Qed.

Lemma wrap_range (x : Z) : 0 <= wrap x < SIZE_MOD.
Proof. unfold wrap. apply Z.mod_pos_bound. reflexivity. Qed.

Lemma sz_add_small (a b : Z) : 0 <= a + b < SIZE_MOD -> sz_add a b = a + b.
Proof. intros H. unfold sz_add. now apply wrap_small. Qed.

Lemma sz_sub_small (a b : Z) : 0 <= a - b < SIZE_MOD -> sz_sub a b = a - b.
Proof. intros H. unfold sz_sub. now apply wrap_small. Qed.

Lemma to_streamsize_small (x : Z) : x < 2 ^ 63 -> to_streamsize x = x.
Proof.
  intros H. unfold to_streamsize.
  destruct (x <? 2 ^ 63) eqn:E; [reflexivity | apply Z.ltb_ge in E; lia].
Qed.

Lemma len_nonneg (m : list Z) : 0 <= len m.
Proof. unfold len. lia. Qed.

Lemma len_app (a b : list Z) : len (a ++ b) = len a + len b.
Proof. unfold len. rewrite length_app. lia. Qed.

Lemma load_in (m : list Z) (p : Z) :
  0 <= p < len m -> load m p = Ret (nth (Z.to_nat p) m 0).
Proof.
  intros [H0 H1]. unfold load.
  apply Z.leb_le in H0. apply Z.ltb_lt in H1. now rewrite H0, H1.
Qed.

Lemma load_Ret (m : list Z) (p b : Z) :
  load m p = Ret b -> 0 <= p < len m /\ nth (Z.to_nat p) m 0 = b.
Proof.
  unfold load. destruct (0 <=? p) eqn:E0; [| discriminate].
  destruct (p <? len m) eqn:E1; [| discriminate].
  simpl. intros H. injection H as H.
  apply Z.leb_le in E0. apply Z.ltb_lt in E1. auto.
Qed.

(** A load only depends on the cells up to the one it reads. *)
Lemma load_prefix (m m' : list Z) (p : Z) :
  0 <= p < len m ->
  firstn (Z.to_nat (p + 1)) m' = firstn (Z.to_nat (p + 1)) m ->
  load m' p = load m p.
Proof.
  intros Hp Hpre.
  assert (Hlen : p < len m').
  { assert (H : length (firstn (Z.to_nat (p + 1)) m')
                = length (firstn (Z.to_nat (p + 1)) m)) by now rewrite Hpre.
    rewrite !length_firstn in H. unfold len in *. lia. }
  rewrite !load_in by lia. f_equal.
  assert (Hlt : (Z.to_nat p <? Z.to_nat (p + 1))%nat = true)
    by (apply Nat.ltb_lt; lia).
  pose proof (nth_firstn (Z.to_nat (p + 1)) m' (Z.to_nat p) 0) as H1.
  pose proof (nth_firstn (Z.to_nat (p + 1)) m (Z.to_nat p) 0) as H2.
  rewrite Hlt in H1, H2. rewrite <- H1, <- H2. now rewrite Hpre.
Qed.

(** ** checkSync *)

Section CheckSyncLoop.

Variables (m : list Z) (end_ pkt_size header_size : Z).
Hypothesis pkt_pos : 0 < pkt_size.

Lemma checkSync_loop_true (fuel : nat) : forall buf,
  (Z.to_nat (end_ - buf) <= fuel)%nat ->
  (forall k, 0 <= k -> buf + k * pkt_size < end_ ->
             marker_at m (buf + k * pkt_size + header_size)) ->
  checkSync_loop fuel m buf end_ pkt_size header_size = Ret true.
Proof.
  induction fuel as [| fuel IH]; intros buf Hfuel Hall; simpl.
  - destruct (buf <? end_) eqn:E; [apply Z.ltb_lt in E; lia | reflexivity].
  - destruct (buf <? end_) eqn:E; [apply Z.ltb_lt in E | reflexivity].
    specialize (Hall 0) as H0. rewrite Z.mul_0_l, Z.add_0_r in H0.
    unfold marker_at in H0. rewrite H0 by lia. simpl.
    apply IH; [lia |].
    intros k Hk Hlt.
    replace (buf + pkt_size + k * pkt_size)
      with (buf + (k + 1) * pkt_size) in * by lia.
    apply Hall; lia.
Qed.

Lemma checkSync_loop_false (fuel : nat) : forall buf k,
  (Z.to_nat (end_ - buf) <= fuel)%nat ->
  0 <= k -> buf + k * pkt_size < end_ ->
  (forall j, 0 <= j < k -> marker_at m (buf + j * pkt_size + header_size)) ->
  (exists b, load m (buf + k * pkt_size + header_size) = Ret b
             /\ b <> SYNC_BYTE) ->
  checkSync_loop fuel m buf end_ pkt_size header_size = Ret false.
Proof.
  induction fuel as [| fuel IH]; intros buf k Hfuel Hk Hlt Hbefore Hbad.
  - exfalso. nia.
  - simpl. destruct (buf <? end_) eqn:E; [| apply Z.ltb_ge in E; nia].
    destruct (Z.eq_dec k 0) as [-> | Hne].
    + destruct Hbad as (b & Hb & Hneq).
      rewrite Z.mul_0_l, Z.add_0_r in Hb. rewrite Hb. simpl.
      apply Z.eqb_neq in Hneq. now rewrite Hneq.
    + specialize (Hbefore 0) as H0. rewrite Z.mul_0_l, Z.add_0_r in H0.
      unfold marker_at in H0. rewrite H0 by lia. simpl.
      apply (IH (buf + pkt_size) (k - 1)); try nia.
      * intros j Hj.
        replace (buf + pkt_size + j * pkt_size)
          with (buf + (j + 1) * pkt_size) by lia.
        apply Hbefore. lia.
      * replace (buf + pkt_size + (k - 1) * pkt_size)
          with (buf + k * pkt_size) by lia.
        exact Hbad.
Qed.

Lemma checkSync_loop_true_inv (fuel : nat) : forall buf,
  checkSync_loop fuel m buf end_ pkt_size header_size = Ret true ->
  forall k, 0 <= k -> buf + k * pkt_size < end_ ->
            marker_at m (buf + k * pkt_size + header_size).
Proof.
  induction fuel as [| fuel IH]; intros buf Hrun k Hk Hlt; simpl in Hrun.
  - destruct (buf <? end_) eqn:E; [discriminate | apply Z.ltb_ge in E; nia].
  - destruct (buf <? end_) eqn:E; [| apply Z.ltb_ge in E; nia].
    destruct (load m (buf + header_size)) as [b | | |] eqn:Hb;
      simpl in Hrun; try discriminate.
    destruct (b =? SYNC_BYTE) eqn:Eb; simpl in Hrun; [| discriminate].
    apply Z.eqb_eq in Eb. subst b.
    destruct (Z.eq_dec k 0) as [-> | Hne].
    + unfold marker_at. now rewrite Z.mul_0_l, Z.add_0_r.
    + replace (buf + k * pkt_size)
        with (buf + pkt_size + (k - 1) * pkt_size) by lia.
      apply (IH _ Hrun); nia.
Qed.

(** The loop never runs out of the fuel checkSync gives it, and never
    fails when the cells it loads exist. *)
Lemma checkSync_loop_total (fuel : nat) : forall buf,
  (Z.to_nat (end_ - buf) <= fuel)%nat ->
  (forall k, 0 <= k -> buf + k * pkt_size < end_ ->
             0 <= buf + k * pkt_size + header_size < len m) ->
  exists b, checkSync_loop fuel m buf end_ pkt_size header_size = Ret b.
Proof.
  induction fuel as [| fuel IH]; intros buf Hfuel Hin; simpl.
  - destruct (buf <? end_) eqn:E; [apply Z.ltb_lt in E; lia | eauto].
  - destruct (buf <? end_) eqn:E; [apply Z.ltb_lt in E | eauto].
    specialize (Hin 0) as H0. rewrite Z.mul_0_l, Z.add_0_r in H0.
    rewrite load_in by lia. simpl.
    destruct (_ =? SYNC_BYTE); simpl; [| eauto].
    apply IH; [lia |].
    intros k Hk Hlt.
    replace (buf + pkt_size + k * pkt_size)
      with (buf + (k + 1) * pkt_size) in * by lia.
    apply Hin; lia.
Qed.

End CheckSyncLoop.

Lemma firstn_agree_le (m m' : list Z) (n n' : nat) :
  firstn n m' = firstn n m -> (n' <= n)%nat -> firstn n' m' = firstn n' m.
Proof.
  intros H Hle.
  replace n' with (Nat.min n' n) by lia.
  rewrite <- !firstn_firstn. now rewrite H.
Qed.

Lemma checkSync_assert_ok (pkt_size header_size : Z) :
  0 <= header_size -> header_size + PKT_SIZE <= pkt_size < SIZE_MOD ->
  negb (sz_add header_size PKT_SIZE <=? pkt_size) = false.
Proof.
  intros H0 H1. rewrite sz_add_small by (unfold PKT_SIZE in *; lia).
  apply negb_false_iff, Z.leb_le. lia.
Qed.

Section CheckSync.

Variables (r : Resynchronizer) (buf buf_size pkt_size header_size : Z).
Hypothesis header_nonneg : 0 <= header_size.
Hypothesis assert_holds : header_size + PKT_SIZE <= pkt_size < SIZE_MOD.

Let pkt_pos : 0 < pkt_size.
Proof. unfold PKT_SIZE in assert_holds. lia. Qed.

Lemma checkSync_found (m : list Z) :
  all_markers m buf buf_size pkt_size header_size ->
  checkSync r m buf buf_size pkt_size header_size
  = Ret (true, confirmed r pkt_size header_size).
Proof.
  intros Hall. unfold checkSync.
  rewrite checkSync_assert_ok by assumption.
  rewrite checkSync_loop_true; [reflexivity | exact pkt_pos | lia |].
  intros k Hk Hlt. apply Hall; lia.
Qed.

Lemma checkSync_not_found (m : list Z) (k : Z) :
  0 <= k -> k * pkt_size + pkt_size <= buf_size ->
  (forall j, 0 <= j < k ->
             marker_at m (buf + j * pkt_size + header_size)) ->
  (exists b, load m (buf + k * pkt_size + header_size) = Ret b
             /\ b <> SYNC_BYTE) ->
  checkSync r m buf buf_size pkt_size header_size = Ret (false, r).
Proof.
  intros Hk Hin Hbefore Hbad. unfold checkSync.
  rewrite checkSync_assert_ok by assumption.
  rewrite (checkSync_loop_false m _ _ _ pkt_pos _ buf k);
    [reflexivity | lia | lia | lia | assumption | assumption].
Qed.

Lemma checkSync_inv (m : list Z) (b : bool) (r' : Resynchronizer) :
  checkSync r m buf buf_size pkt_size header_size = Ret (b, r') ->
  if b
  then all_markers m buf buf_size pkt_size header_size
       /\ r' = confirmed r pkt_size header_size
  else r' = r.
Proof.
  unfold checkSync. rewrite checkSync_assert_ok by assumption.
  destruct (checkSync_loop _ _ _ _ _ _) as [found | | |] eqn:Hloop;
    simpl; try discriminate.
  destruct found; intros H; injection H as <- <-.
  - split; [| reflexivity].
    intros k Hk Hin.
    apply (checkSync_loop_true_inv m _ _ _ pkt_pos _ _ Hloop); lia.
  - reflexivity.
Qed.

(** checkSync returns when the region lies inside the buffer. *)
Lemma checkSync_total (m : list Z) :
  0 <= buf -> buf + buf_size <= len m ->
  exists b r',
    checkSync r m buf buf_size pkt_size header_size = Ret (b, r').
Proof.
  intros Hbuf Hin. unfold checkSync.
  rewrite checkSync_assert_ok by assumption.
  destruct (checkSync_loop_total m (buf + buf_size - pkt_size + 1)
              pkt_size header_size pkt_pos
              (Z.to_nat (buf + buf_size - pkt_size + 1 - buf)) buf)
    as [b Hb]; [lia | |].
  - intros k Hk Hlt. unfold PKT_SIZE in assert_holds. nia.
  - rewrite Hb. simpl. destruct b; eauto.
Qed.

End CheckSync.

(** C1, as the code has it. A region shorter than one packet holds no
    complete packet: checkSync loads no byte of it (the buffer [m] is
    arbitrary, even empty), returns true and records the candidate as the
    confirmed framing. *)
Theorem checkSync_short_region_accepts
    (r : Resynchronizer) (m : list Z) (buf buf_size pkt_size header_size : Z) :
  0 <= header_size ->
  header_size + PKT_SIZE <= pkt_size < SIZE_MOD ->
  buf_size < pkt_size ->
  checkSync r m buf buf_size pkt_size header_size
  = Ret (true, confirmed r pkt_size header_size)
  /\ inputPacketSize (confirmed r pkt_size header_size) = pkt_size
  /\ inputHeaderSize (confirmed r pkt_size header_size) = header_size.
Proof.
  intros Hh Hassert Hshort. split; [| split; reflexivity].
  apply checkSync_found; try assumption.
  intros k Hk Hin. exfalso. unfold PKT_SIZE in Hassert. nia.
Qed.

Lemma checkSync_short_region_accepts_witness :
  checkSync (Resynchronizer_new false) (ByteBlock 100) 0 100 188 0
  = Ret (true, confirmed (Resynchronizer_new false) 188 0)
  /\ inputPacketSize (confirmed (Resynchronizer_new false) 188 0) = 188
  /\ inputHeaderSize (confirmed (Resynchronizer_new false) 188 0) = 0.
Proof.
  apply (checkSync_short_region_accepts
           (Resynchronizer_new false) (ByteBlock 100) 0 100 188 0);
    [lia | rewrite SIZE_MOD_eq; unfold PKT_SIZE; lia | lia].
Defined.

(** C1 fails on the code: on a region of 100 bytes, none of them the
    marker, and the bare format (188 >= 0 + 188, 100 < 188), checkSync
    does not return false; it returns true and confirms the framing. *)
Lemma checkSync_short_region_counterexample :
  188 >= 0 + PKT_SIZE /\ 100 < 188 /\
  ~ (exists r', checkSync (Resynchronizer_new false) (ByteBlock 100)
                  0 100 188 0 = Ret (false, r')) /\
  exists r', checkSync (Resynchronizer_new false) (ByteBlock 100)
               0 100 188 0 = Ret (true, r')
             /\ inputPacketSize r' = 188.
Proof.
  split; [unfold PKT_SIZE; lia |]. split; [lia |]. split.
  - intros [r' H]. vm_compute in H. discriminate.
  - eexists. split; vm_compute; reflexivity.
Qed.

(** [main] relies on this: on an empty input the first read sets RS_EOF,
    the search then confirms the bare framing on a region of 0 bytes, and
    the program exits with success without any output. *)
Example empty_input_is_success :
  main 1 cl_small (stdin_of [] EndOfFile) stdout_new
  = Ret (EXIT_SUCCESS,
         {| in_data := []; in_end := EndOfFile; in_eofbit := true;
            in_badbit := false; in_fail := true |},
         stdout_new,
         Some (confirmed (setStatus (Resynchronizer_new false) RS_EOF) 188 0)).
Proof. vm_compute. reflexivity. Qed.

(** C2. On a region that lies in the buffer and holds at least one packet,
    checkSync returns, and returns true exactly when every complete packet
    of the region carries the marker byte at its header offset. It returns
    false at the first packet [k] that fails without loading anything
    behind it: the result is the same on every buffer [m'] that agrees
    with [m] up to the failing byte, whatever [m'] holds (or does not
    hold) behind it. *)
Theorem checkSync_iff_all_markers
    (r : Resynchronizer) (m : list Z) (buf buf_size pkt_size header_size : Z) :
  0 <= header_size ->
  header_size + PKT_SIZE <= pkt_size < SIZE_MOD ->
  0 <= buf -> buf + buf_size <= len m ->
  pkt_size <= buf_size ->
  (exists b : bool,
      checkSync r m buf buf_size pkt_size header_size
      = Ret (b, if b then confirmed r pkt_size header_size else r)
      /\ (b = true <-> all_markers m buf buf_size pkt_size header_size))
  /\
  (forall k m',
      0 <= k -> k * pkt_size + pkt_size <= buf_size ->
      (forall j, 0 <= j < k ->
                 marker_at m (buf + j * pkt_size + header_size)) ->
      ~ marker_at m (buf + k * pkt_size + header_size) ->
      firstn (Z.to_nat (buf + k * pkt_size + header_size + 1)) m'
      = firstn (Z.to_nat (buf + k * pkt_size + header_size + 1)) m ->
      checkSync r m' buf buf_size pkt_size header_size = Ret (false, r)).
Proof.
  intros Hh Hassert Hbuf Hin Hone.
  assert (Hpos : 0 < pkt_size) by (unfold PKT_SIZE in Hassert; lia).
  split.
  - destruct (checkSync_total r buf buf_size pkt_size header_size
                Hh Hassert m Hbuf Hin) as (b & r' & Hrun).
    pose proof (checkSync_inv r buf buf_size pkt_size header_size
                  Hh Hassert m b r' Hrun) as Hinv.
    exists b. destruct b.
    + destruct Hinv as [Hall ->]. split; [exact Hrun | tauto].
    + subst r'. split; [exact Hrun |].
      split; [discriminate |].
      intros Hall.
      rewrite (checkSync_found r buf buf_size pkt_size header_size
                 Hh Hassert m Hall) in Hrun.
      discriminate.
  - intros k m' Hk Hkin Hbefore Hbad Hagree.
    assert (Hcell : forall j, 0 <= j <= k ->
              load m' (buf + j * pkt_size + header_size)
              = load m (buf + j * pkt_size + header_size)).
    { intros j Hj. apply load_prefix; [unfold PKT_SIZE in Hassert; nia |].
      apply (firstn_agree_le _ _ _ _ Hagree). nia. }
    apply (checkSync_not_found r buf buf_size pkt_size header_size
             Hh Hassert m' k Hk Hkin).
    + intros j Hj. unfold marker_at. rewrite Hcell by lia.
      apply Hbefore. exact Hj.
    + rewrite Hcell by lia.
      rewrite load_in by (unfold PKT_SIZE in Hassert; nia).
      eexists. split; [reflexivity |].
      intros Heq. apply Hbad. unfold marker_at.
      rewrite load_in by (unfold PKT_SIZE in Hassert; nia).
      now rewrite Heq.
Qed.

Lemma checkSync_iff_all_markers_witness :
  exists b : bool,
    checkSync (Resynchronizer_new false)
      (bare_packet 1 ++ bare_packet 2) 0 376 188 0
    = Ret (b, if b then confirmed (Resynchronizer_new false) 188 0
              else Resynchronizer_new false)
    /\ (b = true <->
        all_markers (bare_packet 1 ++ bare_packet 2) 0 376 188 0).
Proof.
  assert (H1 : 0 <= 0) by lia.
  assert (H2 : 0 + PKT_SIZE <= 188 < SIZE_MOD)
    by (rewrite SIZE_MOD_eq; unfold PKT_SIZE; lia).
  assert (H3 : 0 + 376 <= len (bare_packet 1 ++ bare_packet 2))
    by (apply Z.leb_le; vm_compute; reflexivity).
  assert (H4 : 188 <= 376) by lia.
  exact (proj1 (checkSync_iff_all_markers (Resynchronizer_new false)
                  (bare_packet 1 ++ bare_packet 2) 0 376 188 0
                  H1 H2 H1 H3 H4)).
Defined.


(** C9. A checkSync that returns false leaves the Resynchronizer as it
    was: status, packet and header sizes of input and output, and the
    output byte counter. *)
Theorem checkSync_false_leaves_state
    (r r' : Resynchronizer) (m : list Z)
    (buf buf_size pkt_size header_size : Z) :
  checkSync r m buf buf_size pkt_size header_size = Ret (false, r') ->
  r' = r
  /\ status r' = status r
  /\ inputPacketSize r' = inputPacketSize r
  /\ inputHeaderSize r' = inputHeaderSize r
  /\ outputPacketSize r' = outputPacketSize r
  /\ outputHeaderSize r' = outputHeaderSize r
  /\ outputFileBytes r' = outputFileBytes r.
Proof.
  unfold checkSync.
  destruct (negb (sz_add header_size PKT_SIZE <=? pkt_size));
    [discriminate |].
  destruct (checkSync_loop _ _ _ _ _ _) as [found | | |];
    simpl; try discriminate.
  destruct found; intros H; [discriminate |].
  injection H as <-. repeat split; reflexivity.
Qed.

Lemma checkSync_false_leaves_state_witness :
  checkSync (Resynchronizer_new true) (ByteBlock 400) 0 376 188 0
  = Ret (false, Resynchronizer_new true)
  /\ outputPacketSize (Resynchronizer_new true)
     = outputPacketSize (Resynchronizer_new true).
Proof.
  assert (H : checkSync (Resynchronizer_new true) (ByteBlock 400) 0 376 188 0
              = Ret (false, Resynchronizer_new true))
    by (vm_compute; reflexivity).
  split; [exact H |].
  apply (checkSync_false_leaves_state
           (Resynchronizer_new true) (Resynchronizer_new true)
           (ByteBlock 400) 0 376 188 0 H).
Defined.

(** ** outputFilePackets *)

Lemma outputFilePackets_value (r : Resynchronizer) :
  outputFilePackets r
  = Ret (if outputPacketSize r =? 0 then 0
         else outputFileBytes r / outputPacketSize r).
Proof.
  unfold outputFilePackets, udiv, outputPacketSize, outputFileBytes.
  destruct (_out_pkt_size r =? 0); reflexivity.
Qed.

(** C10. outputFilePackets returns for every Resynchronizer, reachable or
    not, and never divides by zero: it is 0 while the output packet size
    is 0 (no framing confirmed yet) and the quotient of the output byte
    count by the output packet size otherwise. *)
Theorem outputFilePackets_total (r : Resynchronizer) :
  outputFilePackets r
  = Ret (if outputPacketSize r =? 0 then 0
         else outputFileBytes r / outputPacketSize r)
  /\ outputFilePackets r <> Undefined
  /\ outputFilePackets (Resynchronizer_new (_keep_packet_size r)) = Ret 0.
Proof.
  split; [apply outputFilePackets_value |].
  split; [rewrite outputFilePackets_value; discriminate | reflexivity].
Qed.

(** ** readData *)

Lemma store_range_nil (m : list Z) (p : Z) :
  0 <= p <= len m -> store_range m p [] = Ret m.
Proof.
  intros H. unfold store_range.
  replace (len []) with 0 by reflexivity. rewrite Z.add_0_r.
  replace ((0 <=? p) && (p <=? len m)) with true
    by (symmetry; apply andb_true_iff; split; apply Z.leb_le; lia).
  simpl. now rewrite firstn_skipn.
Qed.

Lemma store_range_Ret (m m' : list Z) (p : Z) (bs : list Z) :
  store_range m p bs = Ret m' ->
  0 <= p /\ p + len bs <= len m /\ len m' = len m
  /\ firstn (Z.to_nat p) m' = firstn (Z.to_nat p) m
  /\ m' = firstn (Z.to_nat p) m ++ bs ++ skipn (Z.to_nat (p + len bs)) m.
Proof.
  unfold store_range.
  destruct (0 <=? p) eqn:E0; [| discriminate].
  destruct (p + len bs <=? len m) eqn:E1; [| discriminate].
  simpl. intros H. injection H as <-.
  apply Z.leb_le in E0. apply Z.leb_le in E1.
  pose proof (len_nonneg bs) as Hbs.
  assert (Hlen1 : length (firstn (Z.to_nat p) m) = Z.to_nat p)
    by (apply firstn_length_le; unfold len in *; lia).
  repeat split; try assumption.
  - unfold len in *. rewrite !length_app, Hlen1, length_skipn. lia.
  - rewrite firstn_app, Hlen1, Nat.sub_diag, firstn_0, app_nil_r.
    rewrite firstn_firstn. f_equal. lia.
Qed.

Lemma store_range_in (m : list Z) (p : Z) (bs : list Z) :
  0 <= p -> p + len bs <= len m ->
  store_range m p bs
  = Ret (firstn (Z.to_nat p) m ++ bs ++ skipn (Z.to_nat (p + len bs)) m).
Proof.
  intros H0 H1. unfold store_range.
  apply Z.leb_le in H0. apply Z.leb_le in H1. now rewrite H0, H1.
Qed.

Lemma len_firstn (m : list Z) (n : Z) :
  0 <= n <= len m -> len (firstn (Z.to_nat n) m) = n.
Proof.
  intros H. unfold len in *. rewrite firstn_length_le; lia.
Qed.

Lemma readData_loop_done (fuel : nat) (r : Resynchronizer) (m : list Z)
    (cin : istream) (buf got remain : Z) :
  remain <= 0 ->
  readData_loop fuel r m cin buf got remain = Ret (got, r, m, cin).
Proof.
  intros H. apply Z.ltb_ge in H. destruct fuel; simpl; now rewrite H.
Qed.

Lemma readData_loop_S (fuel : nat) (r : Resynchronizer) (m : list Z)
    (cin : istream) (buf got remain : Z) :
  readData_loop (S fuel) r m cin buf got remain
  = if 0 <? remain then
      let '(chars, ok, cin') := istream_read cin remain in
      m' <- store_range m (buf + got) chars ;;
      if ok then
        readData_loop fuel r m' cin' buf (got + len chars)
          (remain - len chars)
      else
        Ret (got, (if got =? 0 then setStatus r RS_EOF else r), m', cin')
    else Ret (got, r, m, cin).
Proof. reflexivity. Qed.

Lemma istream_read_ok (cin cin' : istream) (n : Z) (chars : list Z) :
  0 <= n ->
  istream_read cin n = (chars, true, cin') ->
  n <= len (in_data cin) /\ len chars = n
  /\ chars = firstn (Z.to_nat n) (in_data cin)
  /\ cin' = {| in_data := skipn (Z.to_nat n) (in_data cin);
               in_end := in_end cin; in_eofbit := false;
               in_badbit := false; in_fail := false |}.
Proof.
  intros Hn. unfold istream_read.
  destruct (in_fail cin || in_eofbit cin); [discriminate |].
  destruct (n <=? len (in_data cin)) eqn:El; [| discriminate].
  apply Z.leb_le in El. intros H. injection H as <- <-.
  repeat split; try assumption. apply len_firstn. lia.
Qed.

(** readData without its loop: the body runs once. *)
Lemma readData_unfold (r : Resynchronizer) (m : list Z) (cin : istream)
    (buf size : Z) :
  readData r m cin buf size
  = if 0 <? to_streamsize size then
      let '(chars, ok, cin') := istream_read cin (to_streamsize size) in
      m' <- store_range m buf chars ;;
      if ok then Ret (wrap (to_streamsize size), r, m', cin')
      else Ret (0, setStatus r RS_EOF, m', cin')
    else Ret (0, r, m, cin).
Proof.
  unfold readData. rewrite readData_loop_S.
  destruct (0 <? to_streamsize size) eqn:E; [| reflexivity].
  apply Z.ltb_lt in E. rewrite Z.add_0_r.
  destruct (istream_read cin (to_streamsize size)) as [[chars ok] cin']
    eqn:Hread.
  destruct (store_range m buf chars) as [m' | | |]; try reflexivity.
  cbn [bind]. destruct ok; [| reflexivity].
  apply istream_read_ok in Hread; [| lia].
  destruct Hread as (_ & Hlen & _ & _).
  rewrite readData_loop_done by lia. cbn [bind].
  now rewrite Hlen, Z.add_0_l.
Qed.

(** What readData can change: the status (to RS_EOF), the buffer from
    [buf] on, and the stream. It returns all of [size] or nothing. *)
Lemma readData_Ret (r r' : Resynchronizer) (m m' : list Z)
    (cin cin' : istream) (buf size n : Z) :
  readData r m cin buf size = Ret (n, r', m', cin') ->
  (r' = r \/ r' = setStatus r RS_EOF)
  /\ (n = 0 \/ n = wrap (to_streamsize size))
  /\ len m' = len m
  /\ (0 <= buf -> firstn (Z.to_nat buf) m' = firstn (Z.to_nat buf) m).
Proof.
  rewrite readData_unfold.
  destruct (0 <? to_streamsize size).
  - destruct (istream_read cin (to_streamsize size)) as [[chars ok] cin1].
    destruct (store_range m buf chars) as [m1 | | |] eqn:Hst;
      cbn [bind]; try discriminate.
    apply store_range_Ret in Hst. destruct Hst as (_ & _ & Hlen & Hpre & _).
    destruct ok; intros H; injection H as <- <- <- <-; auto.
  - intros H; injection H as <- <- <- <-; auto.
Qed.

Lemma readData_full (r : Resynchronizer) (m : list Z) (cin : istream)
    (buf size : Z) :
  0 < size < 2 ^ 63 ->
  in_fail cin = false -> in_eofbit cin = false ->
  size <= len (in_data cin) ->
  0 <= buf -> buf + size <= len m ->
  readData r m cin buf size
  = Ret (size, r,
         firstn (Z.to_nat buf) m ++ firstn (Z.to_nat size) (in_data cin)
           ++ skipn (Z.to_nat (buf + size)) m,
         {| in_data := skipn (Z.to_nat size) (in_data cin);
            in_end := in_end cin; in_eofbit := false;
            in_badbit := false; in_fail := false |}).
Proof.
  intros Hsize Hf He Hdata Hbuf Hin.
  rewrite readData_unfold, to_streamsize_small by lia.
  replace (0 <? size) with true by (symmetry; apply Z.ltb_lt; lia).
  unfold istream_read. rewrite Hf, He. simpl orb. cbv iota.
  replace (size <=? len (in_data cin)) with true
    by (symmetry; apply Z.leb_le; lia).
  rewrite store_range_in by (rewrite ?len_firstn; lia).
  cbn [bind]. rewrite len_firstn by lia.
  rewrite wrap_small by (rewrite SIZE_MOD_eq; lia). reflexivity.
Qed.

Lemma readData_short (r : Resynchronizer) (m : list Z) (cin : istream)
    (buf size : Z) :
  0 < size < 2 ^ 63 ->
  in_fail cin = true \/ in_eofbit cin = true \/ len (in_data cin) < size ->
  0 <= buf -> buf + len (in_data cin) <= len m ->
  exists m' cin',
    readData r m cin buf size = Ret (0, setStatus r RS_EOF, m', cin')
    /\ in_fail cin' = true
    /\ len m' = len m
    /\ firstn (Z.to_nat buf) m' = firstn (Z.to_nat buf) m.
Proof.
  intros Hsize Hcause Hbuf Hin.
  pose proof (len_nonneg (in_data cin)) as Hd.
  rewrite readData_unfold, to_streamsize_small by lia.
  replace (0 <? size) with true by (symmetry; apply Z.ltb_lt; lia).
  unfold istream_read.
  destruct (in_fail cin || in_eofbit cin) eqn:Hbad.
  - rewrite store_range_nil by lia. cbn [bind].
    do 2 eexists. split; [reflexivity |]. auto.
  - apply orb_false_iff in Hbad as [Hf He].
    destruct Hcause as [H | [H | H]]; try congruence.
    replace (size <=? len (in_data cin)) with false
      by (symmetry; apply Z.leb_gt; lia).
    destruct (store_range m buf (in_data cin)) as [m1 | | |] eqn:Hst;
      try (rewrite store_range_in in Hst by lia; discriminate).
    apply store_range_Ret in Hst. destruct Hst as (_ & _ & Hlen & Hpre & _).
    cbn [bind]. do 2 eexists. split; [reflexivity |]. auto.
Qed.

(** ** The per-packet loop *)

Lemma steady_loop_stop (fuel : nat) (e : engine) :
  status (resync e) <> RS_OK -> steady_loop fuel e = Ret e.
Proof.
  intros H. destruct fuel; simpl;
    destruct (status (resync e)); try reflexivity; congruence.
Qed.

(** C3, as the code has it. In the per-packet loop, a readData that
    returns anything but the requested remainder of the packet sets the
    status RS_EOF, whatever made the read short (end of file or read
    error, [in_end] is arbitrary): nothing is written, the loop is left,
    and the exit status is that of success. *)
Theorem steady_short_read_is_EOF
    (e : engine) (n : Z) (r1 : Resynchronizer) (m1 : list Z)
    (cin1 : istream) :
  sync_pre_size e < inputPacketSize (resync e) ->
  readData (resync e) (sync_buf e) (e_cin e) (0 + sync_pre_size e)
    (sz_sub (inputPacketSize (resync e)) (sync_pre_size e))
  = Ret (n, r1, m1, cin1) ->
  n <> sz_sub (inputPacketSize (resync e)) (sync_pre_size e) ->
  exists e',
    steady_body e = Ret e'
    /\ status (resync e') = RS_EOF
    /\ status (resync e') <> RS_ERROR
    /\ exit_status (resync e') = EXIT_SUCCESS
    /\ e_cout e' = e_cout e
    /\ forall fuel, steady_loop fuel e' = Ret e'.
Proof.
  intros Hpre Hread Hshort.
  unfold steady_body.
  replace (negb (sync_pre_size e <? inputPacketSize (resync e))) with false
    by (symmetry; apply negb_false_iff, Z.ltb_lt; exact Hpre).
  rewrite Hread. cbn [bind].
  replace (negb (n =? _)) with true
    by (symmetry; apply negb_true_iff, Z.eqb_neq; exact Hshort).
  eexists. split; [reflexivity |].
  repeat split; try discriminate.
  intros fuel. apply steady_loop_stop. discriminate.
Qed.

Lemma steady_short_read_is_EOF_witness :
  exists e',
    steady_body engine_read_error = Ret e'
    /\ status (resync e') = RS_EOF
    /\ status (resync e') <> RS_ERROR
    /\ exit_status (resync e') = EXIT_SUCCESS
    /\ e_cout e' = e_cout engine_read_error
    /\ forall fuel, steady_loop fuel e' = Ret e'.
Proof.
  eapply (steady_short_read_is_EOF engine_read_error).
  - vm_compute. reflexivity.
  - vm_compute. reflexivity.
  - vm_compute. discriminate.
Defined.

(** C3 fails on the code. A source that breaks with a read error in the
    middle of a packet (badbit is set: this is no clean end of stream)
    makes the per-packet loop end with RS_EOF, not RS_ERROR; and the whole
    program, fed eight valid packets and then 100 bytes before the read
    error, exits with success. *)
Lemma steady_read_error_counterexample :
  (exists e',
      steady_body engine_read_error = Ret e'
      /\ in_badbit (e_cin e') = true
      /\ in_eofbit (e_cin e') = false
      /\ status (resync e') = RS_EOF
      /\ status (resync e') <> RS_ERROR)
  /\
  (exists cin' cout' r',
      main 100 cl_small
        (stdin_of (concat (repeat (bare_packet 1) 8) ++ repeat 0 100)
           ReadError)
        stdout_new
      = Ret (EXIT_SUCCESS, cin', cout', Some r')
      /\ in_badbit cin' = true
      /\ status r' = RS_EOF).
Proof.
  split.
  - eexists. split; [vm_compute; reflexivity |].
    repeat split; discriminate.
  - do 3 eexists. split; [vm_compute; reflexivity |].
    split; reflexivity.
Qed.

(** ** Compaction of the buffer *)

Lemma len_skipn (m : list Z) (n : Z) :
  0 <= n <= len m -> len (skipn (Z.to_nat n) m) = len m - n.
Proof. intros H. unfold len in *. rewrite length_skipn. lia. Qed.

Lemma len_slice (m : list Z) (p n : Z) :
  0 <= p -> 0 <= n -> p + n <= len m -> len (slice m p n) = n.
Proof.
  intros Hp Hn Hin. unfold slice.
  apply len_firstn. rewrite len_skipn; lia.
Qed.

Lemma load_range_in (m : list Z) (p n : Z) :
  0 <= p -> 0 <= n -> p + n <= len m -> load_range m p n = Ret (slice m p n).
Proof.
  intros Hp Hn Hin. unfold load_range.
  apply Z.leb_le in Hp. apply Z.leb_le in Hn. apply Z.leb_le in Hin.
  now rewrite Hp, Hn, Hin.
Qed.

Lemma firstn_app_exact (a b : list Z) (n : Z) :
  len a = n -> firstn (Z.to_nat n) (a ++ b) = a.
Proof.
  intros H. unfold len in H.
  rewrite firstn_app.
  replace (Z.to_nat n - length a)%nat with 0%nat by lia.
  rewrite firstn_0, app_nil_r. apply firstn_all2. lia.
Qed.

Lemma compact_in (m : list Z) (start sync_end : Z) :
  0 <= start <= sync_end -> sync_end <= len m -> len m < SIZE_MOD ->
  compact m start sync_end
  = Ret (sync_end - start,
         slice m start (sync_end - start)
           ++ skipn (Z.to_nat (sync_end - start)) m).
Proof.
  intros Hs He Hm. unfold compact.
  destruct (start >=? sync_end) eqn:E.
  - apply Z.geb_le in E. replace (sync_end - start) with 0 by lia.
    reflexivity.
  - rewrite Z.geb_leb in E. apply Z.leb_gt in E.
    rewrite wrap_small by lia.
    unfold memmove. rewrite load_range_in by lia. cbn [bind].
    rewrite store_range_in by (rewrite ?len_slice; lia).
    rewrite len_slice by lia. reflexivity.
Qed.

(** C7. When the drain ends at [start] with the status still RS_OK, the
    bytes left between [start] and [sync_end] are moved, in order, to the
    start of the buffer and [sync_pre_size] is their number. If that is at
    least one input packet the status becomes RS_SYNC_LOST, the
    per-packet loop is skipped, and the bytes are still at the start of
    the buffer after the read of the next pass, which stores behind them.
    Otherwise the per-packet loop is entered, its assertion holds, and its
    first iteration runs on the compacted buffer. *)
Theorem after_drain_compacts (fuel : nat) (e : engine) (start sync_end : Z) :
  0 <= start <= sync_end ->
  sync_end <= len (sync_buf e) ->
  len (sync_buf e) < SIZE_MOD ->
  status (resync e) = RS_OK ->
  let leftover := slice (sync_buf e) start (sync_end - start) in
  let compacted :=
    leftover ++ skipn (Z.to_nat (sync_end - start)) (sync_buf e) in
  len leftover = sync_end - start
  /\ firstn (Z.to_nat (sync_end - start)) compacted = leftover
  /\ (inputPacketSize (resync e) <= sync_end - start ->
      let e' := {| resync := setStatus (resync e) RS_SYNC_LOST;
                   sync_buf := compacted;
                   sync_pre_size := sync_end - start;
                   e_cin := e_cin e; e_cout := e_cout e |} in
      after_drain fuel e start sync_end = Ret e'
      /\ forall r cin size n r' m' cin',
           readData r (sync_buf e') cin (0 + sync_pre_size e') size
           = Ret (n, r', m', cin') ->
           firstn (Z.to_nat (sync_end - start)) m' = leftover)
  /\ (sync_end - start < inputPacketSize (resync e) ->
      let e' := {| resync := resync e;
                   sync_buf := compacted;
                   sync_pre_size := sync_end - start;
                   e_cin := e_cin e; e_cout := e_cout e |} in
      negb (sync_pre_size e' <? inputPacketSize (resync e')) = false
      /\ after_drain (S fuel) e start sync_end
         = (e1 <- steady_body e' ;; steady_loop fuel e1)).
Proof.
  intros Hs He Hm Hok leftover compacted.
  assert (Hlen : len leftover = sync_end - start)
    by (apply len_slice; lia).
  assert (Hfront : firstn (Z.to_nat (sync_end - start)) compacted = leftover)
    by (apply firstn_app_exact; exact Hlen).
  split; [exact Hlen |]. split; [exact Hfront |]. split.
  - intros Hlost e'. split.
    + unfold after_drain. rewrite compact_in by assumption. cbn [bind].
      replace (sync_end - start >=? inputPacketSize (resync e)) with true
        by (symmetry; apply Z.geb_le; lia).
      apply steady_loop_stop. discriminate.
    + intros r cin size n r' m' cin' Hread.
      apply readData_Ret in Hread.
      destruct Hread as (_ & _ & _ & Hpre).
      simpl in Hpre. rewrite Hpre by lia. exact Hfront.
  - intros Hless e'. split.
    + apply negb_false_iff, Z.ltb_lt. exact Hless.
    + unfold after_drain. rewrite compact_in by assumption. cbn [bind].
      replace (sync_end - start >=? inputPacketSize (resync e)) with false
        by (symmetry; rewrite Z.geb_leb; apply Z.leb_gt; lia).
      change (steady_loop (S fuel) e'
              = (e1 <- steady_body e' ;; steady_loop fuel e1)).
      cbn [steady_loop]. change (resync e') with (resync e).
      now rewrite Hok.
Qed.

Lemma after_drain_compacts_witness :
  after_drain 0 engine_drained 376 1400
  = Ret {| resync := setStatus (resync engine_drained) RS_SYNC_LOST;
           sync_buf := slice (sync_buf engine_drained) 376 (1400 - 376)
                       ++ skipn (Z.to_nat (1400 - 376))
                            (sync_buf engine_drained);
           sync_pre_size := 1400 - 376;
           e_cin := e_cin engine_drained;
           e_cout := e_cout engine_drained |}.
Proof.
  assert (H1 : 0 <= 376 <= 1400) by lia.
  assert (H2 : 1400 <= len (sync_buf engine_drained))
    by (apply Z.leb_le; vm_compute; reflexivity).
  assert (H3 : len (sync_buf engine_drained) < SIZE_MOD)
    by (apply Z.ltb_lt; vm_compute; reflexivity).
  assert (H4 : status (resync engine_drained) = RS_OK) by reflexivity.
  destruct (after_drain_compacts 0 engine_drained 376 1400 H1 H2 H3 H4)
    as (_ & _ & Hlost & _).
  apply Hlost. apply Z.leb_le. vm_compute. reflexivity.
Defined.

(** C7 fails on the code. After the drain, [main] leaves the pass when
    the status is not RS_OK, before the compaction. Here, with --continue,
    the first pass ends with RS_SYNC_LOST and 1024 bytes kept; the read of
    the second pass hits the end of the input (RS_EOF), its search
    confirms bare packets at offset 3 and its drain writes two packets
    and ends at offset 379 of 1024: the 645 bytes left are more than a
    packet, yet they are not moved to the start of the buffer, the count
    of bytes kept is not theirs, and the status is not RS_SYNC_LOST but
    RS_EOF, with which the program exits with success. *)
Lemma after_drain_break_counterexample :
  exists e1 e2,
    pass 1 opt_keep_continue
      (engine_init opt_keep_continue
         (stdin_of stream_drain_break EndOfFile) stdout_new)
    = Ret (false, e1)
    /\ status (resync e1) = RS_SYNC_LOST
    /\ pass 1 opt_keep_continue e1 = Ret (true, e2)
    /\ drain_loop (Z.to_nat (1024 - 3))
         (confirmed (setStatus (reset (resync e1)) RS_EOF) 188 0)
         (sync_buf e2) (e_cout e1) 3 1024
       = Ret (379, resync e2, e_cout e2)
    /\ inputPacketSize (resync e2) <= 1024 - 379
    /\ status (resync e2) = RS_EOF
    /\ status (resync e2) <> RS_SYNC_LOST
    /\ firstn (Z.to_nat (1024 - 379)) (sync_buf e2)
       <> slice (sync_buf e2) 379 (1024 - 379)
    /\ sync_pre_size e2 <> 1024 - 379
    /\ run 2 opt_keep_continue
         (stdin_of stream_drain_break EndOfFile) stdout_new = Ret e2
    /\ exit_status (resync e2) = EXIT_SUCCESS.
Proof.
  do 2 eexists.
  split; [vm_compute; reflexivity |].
  split; [reflexivity |].
  split; [vm_compute; reflexivity |].
  split; [vm_compute; reflexivity |].
  split; [vm_compute; discriminate |].
  split; [reflexivity |].
  split; [discriminate |].
  split; [intros H; vm_compute in H; discriminate |].
  split; [vm_compute; discriminate |].
  split; [vm_compute; reflexivity | reflexivity].
Qed.

(** ** Explicit framing *)

(** With an explicit packet size, one iteration of the search is one
    call of checkSync, with the explicit format. *)
Lemma search_body_pinned (opt : Options) (r : Resynchronizer)
    (m : list Z) (start search_size : Z) :
  0 < packet_size opt ->
  search_body opt r m start search_size
  = ('(b, r1) <- checkSync r m start search_size
                   (packet_size opt) (header_size opt) ;;
     Ret (b, r1, [(packet_size opt, header_size opt)])).
Proof.
  intros Hp. unfold search_body.
  replace (0 <? packet_size opt) with true
    by (symmetry; apply Z.ltb_lt; exact Hp).
  reflexivity.
Qed.

(** With an explicit packet size, the search returns on every region
    inside the buffer, and what it returns is decided by the explicit
    format alone: the lowest offset at which every complete packet of
    that format carries the marker byte in the window, or no framing. *)
Lemma search_loop_pinned (opt : Options) (m : list Z)
    (end_search search_size : Z) :
  0 <= header_size opt ->
  header_size opt + PKT_SIZE <= packet_size opt < SIZE_MOD ->
  0 <= search_size -> end_search + search_size - 1 <= len m ->
  forall (fuel : nat) (r : Resynchronizer) (start : Z),
    0 <= start ->
    (Z.to_nat (end_search - start) <= fuel)%nat ->
    exists s r' tried,
      search_loop fuel opt r m start end_search search_size
      = Ret (s, r', tried)
      /\ Forall (fun c => c = (packet_size opt, header_size opt)) tried
      /\ ((r' = r /\ s = Z.max start end_search
           /\ forall s', start <= s' < end_search ->
                ~ all_markers m s' search_size
                    (packet_size opt) (header_size opt))
          \/ (r' = confirmed r (packet_size opt) (header_size opt)
              /\ start <= s < end_search
              /\ all_markers m s search_size
                   (packet_size opt) (header_size opt)
              /\ forall s', start <= s' < s ->
                   ~ all_markers m s' search_size
                       (packet_size opt) (header_size opt))).
Proof.
  intros Hh Hp Hss Hin.
  assert (Hpos : 0 < packet_size opt) by (unfold PKT_SIZE in Hp; lia).
  induction fuel as [| fuel IH]; intros r start Hstart Hfuel;
    cbn [search_loop].
  - replace (start <? end_search) with false
      by (symmetry; apply Z.ltb_ge; lia).
    do 3 eexists. split; [reflexivity |]. split; [constructor |].
    left. split; [reflexivity |]. split; [lia |]. intros s' Hs'. lia.
  - destruct (start <? end_search) eqn:E.
    2: { apply Z.ltb_ge in E.
         do 3 eexists. split; [reflexivity |]. split; [constructor |].
         left. split; [reflexivity |]. split; [lia |]. intros s' Hs'. lia. }
    apply Z.ltb_lt in E.
    rewrite search_body_pinned by exact Hpos.
    destruct (checkSync_total r start search_size (packet_size opt)
                (header_size opt) Hh Hp m) as (b & r1 & Hcs); [lia | lia |].
    rewrite Hcs. cbn [bind].
    pose proof (checkSync_inv r start search_size (packet_size opt)
                  (header_size opt) Hh Hp m b r1 Hcs) as Hinv.
    destruct b.
    + destruct Hinv as [Hall ->].
      do 3 eexists. split; [reflexivity |].
      split; [repeat constructor |].
      right. split; [reflexivity |]. split; [lia |].
      split; [exact Hall |]. intros s' Hs'. lia.
    + subst r1.
      assert (Hnot : ~ all_markers m start search_size
                         (packet_size opt) (header_size opt)).
      { intros Hall.
        rewrite (checkSync_found r start search_size (packet_size opt)
                   (header_size opt) Hh Hp m Hall) in Hcs.
        discriminate. }
      destruct (IH r (start + 1)) as (s & r2 & tried2 & Hrec & Hlog & Hcase);
        [lia | lia |].
      rewrite Hrec. cbn [bind].
      do 3 eexists. split; [reflexivity |].
      split; [constructor; [reflexivity | exact Hlog] |].
      destruct Hcase as [(-> & Hs & Hnone) | (-> & Hs & Hall & Hnone)].
      * left. split; [reflexivity |]. split; [lia |].
        intros s' Hs'.
        destruct (Z.eq_dec s' start) as [-> | Hne];
          [exact Hnot | apply Hnone; lia].
      * right. split; [reflexivity |]. split; [lia |].
        split; [exact Hall |].
        intros s' Hs'.
        destruct (Z.eq_dec s' start) as [-> | Hne];
          [exact Hnot | apply Hnone; lia].
Qed.

(** C8. With --packet-size [p] and a header size [h] (that of
    --header-size, 0 without it). When [h + 188 > p] (and [h + 188] does
    not overflow [size_t]) the program exits with a failure before it
    touches the standard streams, so nothing is read and nothing is
    written. When [h + 188 <= p] and the option values are within their
    ranges, the options are accepted with that format, and the search
    tries that format and no other: each iteration is the one call of
    checkSync with [(p, h)], and on every region inside the buffer the
    search returns with [(p, h)] confirmed at the lowest offset where
    every complete packet of that format carries the marker byte in the
    window, or without a framing when there is no such offset, whatever
    the default formats would match. *)
Theorem explicit_framing (cl : CommandLine) (p : Z) :
  cl_packet_size cl = Some p ->
  (p < intValue (cl_header_size cl) 0 + PKT_SIZE ->
   intValue (cl_header_size cl) 0 + PKT_SIZE < SIZE_MOD ->
   forall fuel cin cout,
     main fuel cl cin cout = Ret (EXIT_FAILURE, cin, cout, None))
  /\
  (intValue (cl_header_size cl) 0 + PKT_SIZE <= p ->
   analyze cl = true ->
   exists opt,
     Options_new cl = Some opt
     /\ packet_size opt = p
     /\ header_size opt = intValue (cl_header_size cl) 0
     /\ candidates opt = [(p, intValue (cl_header_size cl) 0)]
     /\ (forall r m start search_size,
            search_body opt r m start search_size
            = ('(b, r1) <- checkSync r m start search_size
                             p (intValue (cl_header_size cl) 0) ;;
               Ret (b, r1, [(p, intValue (cl_header_size cl) 0)])))
     /\ forall m end_search search_size fuel r start,
          0 <= search_size -> end_search + search_size - 1 <= len m ->
          0 <= start ->
          (Z.to_nat (end_search - start) <= fuel)%nat ->
          exists s r' tried,
            search_loop fuel opt r m start end_search search_size
            = Ret (s, r', tried)
            /\ Forall (fun c => c = (p, intValue (cl_header_size cl) 0))
                 tried
            /\ ((r' = r /\ s = Z.max start end_search
                 /\ forall s', start <= s' < end_search ->
                      ~ all_markers m s' search_size
                          p (intValue (cl_header_size cl) 0))
                \/ (r' = confirmed r p (intValue (cl_header_size cl) 0)
                    /\ start <= s < end_search
                    /\ all_markers m s search_size
                         p (intValue (cl_header_size cl) 0)
                    /\ forall s', start <= s' < s ->
                         ~ all_markers m s' search_size
                             p (intValue (cl_header_size cl) 0)))).
Proof.
  intros Hp.
  assert (Hrange : analyze cl = true ->
                   0 <= intValue (cl_header_size cl) 0
                   /\ PKT_SIZE <= p <= 0x7FFFFFFF).
  { unfold analyze. rewrite Hp. intros Han.
    apply andb_true_iff in Han as [Han _].
    apply andb_true_iff in Han as [Han Hpk].
    apply andb_true_iff in Han as [Hhd _].
    cbn [value_ok] in Hpk. apply andb_true_iff in Hpk as [H1 H2].
    apply Z.leb_le in H1. apply Z.leb_le in H2.
    split; [| lia].
    destruct (cl_header_size cl) as [h |]; cbn [value_ok intValue] in *;
      [| lia].
    apply andb_true_iff in Hhd as [H3 _]. apply Z.leb_le in H3. exact H3. }
  split.
  - intros Hbad Hno fuel cin cout. unfold main, Options_new.
    rewrite Hp. cbn [intValue].
    destruct (analyze cl) eqn:Han.
    + destruct (Hrange eq_refl) as [Hh Hpk].
      rewrite sz_add_small by (unfold PKT_SIZE in *; lia).
      replace (0 <? p) with true
        by (symmetry; apply Z.ltb_lt; unfold PKT_SIZE in Hpk; lia).
      replace (p <? intValue (cl_header_size cl) 0 + PKT_SIZE) with true
        by (symmetry; apply Z.ltb_lt; exact Hbad).
      reflexivity.
    + cbn [negb]. destruct (_ && _); reflexivity.
  - intros Hok Han. destruct (Hrange Han) as [Hh Hpk].
    unfold Options_new. rewrite Hp, Han. cbn [intValue negb].
    rewrite sz_add_small
      by (rewrite SIZE_MOD_eq; unfold PKT_SIZE in *; lia).
    replace (p <? intValue (cl_header_size cl) 0 + PKT_SIZE) with false
      by (symmetry; apply Z.ltb_ge; exact Hok).
    rewrite andb_false_r. cbn [exitOnError].
    eexists. split; [reflexivity |].
    cbn [packet_size header_size].
    assert (Hpos : 0 < p) by (unfold PKT_SIZE in Hpk; lia).
    split; [reflexivity |]. split; [reflexivity |].
    split; [| split].
    + unfold candidates. cbn [packet_size header_size].
      replace (0 <? p) with true by (symmetry; apply Z.ltb_lt; exact Hpos).
      reflexivity.
    + intros r m start search_size.
      rewrite search_body_pinned by exact Hpos. reflexivity.
    + intros m end_search search_size fuel r start Hss Hin Hstart Hfuel.
      apply search_loop_pinned; cbn [packet_size header_size];
        try assumption.
      rewrite SIZE_MOD_eq. lia.
Qed.

(** The two halves of C8 on concrete command lines: --packet-size 200
    --header-size 100 is refused; --packet-size 204 --header-size 16 is
    accepted, and on a buffer of bare 188-byte packets, which the default
    search would frame at offset 0, the search returns and confirms
    nothing but the format (204, 16). *)
Lemma explicit_framing_witness :
  main 5 cl_header_too_large (stdin_of [1; 2; 3] EndOfFile) stdout_new
  = Ret (EXIT_FAILURE, stdin_of [1; 2; 3] EndOfFile, stdout_new, None)
  /\ exists opt,
       Options_new cl_packet_204_16 = Some opt
       /\ candidates opt = [(204, 16)]
       /\ exists s r' tried,
            search_loop 1025 opt (Resynchronizer_new false)
              (concat (repeat (bare_packet 1) 8)) 0 1025 376
            = Ret (s, r', tried)
            /\ Forall (fun c => c = (204, 16)) tried
            /\ ((r' = Resynchronizer_new false /\ s = Z.max 0 1025
                 /\ forall s', 0 <= s' < 1025 ->
                      ~ all_markers (concat (repeat (bare_packet 1) 8))
                          s' 376 204 16)
                \/ (r' = confirmed (Resynchronizer_new false) 204 16
                    /\ 0 <= s < 1025
                    /\ all_markers (concat (repeat (bare_packet 1) 8))
                         s 376 204 16
                    /\ forall s', 0 <= s' < s ->
                         ~ all_markers (concat (repeat (bare_packet 1) 8))
                             s' 376 204 16)).
Proof.
  split.
  - apply (proj1 (explicit_framing cl_header_too_large 200 eq_refl)).
    + apply Z.ltb_lt. vm_compute. reflexivity.
    + apply Z.ltb_lt. vm_compute. reflexivity.
  - destruct (proj2 (explicit_framing cl_packet_204_16 204 eq_refl))
      as (opt & Hnew & _ & _ & Hcand & _ & Hsearch).
    + apply Z.leb_le. vm_compute. reflexivity.
    + reflexivity.
    + exists opt. split; [exact Hnew |]. split; [exact Hcand |].
      apply Hsearch.
      * lia.
      * apply Z.leb_le. vm_compute. reflexivity.
      * lia.
      * vm_compute. lia.
Defined.

(** On that buffer the explicit format is found at offset 172, where
    byte 16 of the window is the marker byte of the second bare packet;
    without --packet-size the search confirms bare packets at offset 0. *)
Example explicit_search_on_bare_packets :
  (exists opt tried,
      Options_new cl_packet_204_16 = Some opt
      /\ search_loop 1025 opt (Resynchronizer_new false)
           (concat (repeat (bare_packet 1) 8)) 0 1025 376
         = Ret (172, confirmed (Resynchronizer_new false) 204 16, tried)
      /\ length tried = 173%nat)
  /\ search_loop 1025 opt_small (Resynchronizer_new false)
       (concat (repeat (bare_packet 1) 8)) 0 1025 376
     = Ret (0, confirmed (Resynchronizer_new false) 188 0, [(188, 0)]).
Proof.
  split.
  - do 2 eexists. split; [reflexivity |].
    split; vm_compute; reflexivity.
  - vm_compute. reflexivity.
Qed.

(** ** The output counters *)

(** How one operation changes the counters: not at all, by one packet
    written, or by a framing confirmed. *)
Lemma perform_counters (o : operation) (e e' : engine) :
  perform o e = Ret e' ->
  (_out_size (resync e') = _out_size (resync e)
   /\ _out_pkt_size (resync e') = _out_pkt_size (resync e)
   /\ _keep_packet_size (resync e') = _keep_packet_size (resync e))
  \/ (_out_size (resync e')
      = sz_add (_out_size (resync e)) (_out_pkt_size (resync e))
      /\ _out_pkt_size (resync e') = _out_pkt_size (resync e)
      /\ _keep_packet_size (resync e') = _keep_packet_size (resync e))
  \/ (exists pkt_size header_size,
         0 <= pkt_size
         /\ resync e' = confirmed (resync e) pkt_size header_size).
Proof.
  destruct o as [| s | buf buf_size pkt_size header_size | buf size | p];
    cbn [perform].
  - intros H; injection H as <-. left. auto.
  - intros H; injection H as <-. left. auto.
  - unfold checkSync.
    destruct (negb (sz_add header_size PKT_SIZE <=? pkt_size)) eqn:Ha;
      [discriminate |].
    apply negb_false_iff, Z.leb_le in Ha.
    pose proof (wrap_range (header_size + PKT_SIZE)) as Hw.
    fold (sz_add header_size PKT_SIZE) in Hw.
    destruct (checkSync_loop _ _ _ _ _ _) as [found | | |];
      cbn [bind]; try discriminate.
    destruct found; cbn [bind]; intros H; injection H as <-.
    + right. right. exists pkt_size, header_size. split; [lia | reflexivity].
    + left. auto.
  - destruct (readData _ _ _ _ _) as [[[[n r'] m'] cin'] | | |] eqn:Hread;
      cbn [bind]; try discriminate.
    intros H; injection H as <-. cbn [resync].
    apply readData_Ret in Hread. destruct Hread as ([-> | ->] & _).
    + left. auto.
    + left. auto.
  - unfold writePacket.
    destruct (load_range _ _ _) as [bs | | |]; cbn [bind]; try discriminate.
    destruct (ostream_write (e_cout e) bs) as [ok cout'].
    destruct ok; cbn [bind]; intros H; injection H as <-.
    + right. left. auto.
    + left. auto.
Qed.

Lemma counters_inv_new (keep : bool) :
  counters_inv keep (Resynchronizer_new keep).
Proof.
  unfold counters_inv. simpl.
  split; [reflexivity |]. split; [lia |]. split; [lia |].
  intros _. left. auto.
Qed.

Lemma counters_inv_perform (keep : bool) (o : operation) (e e' : engine) :
  perform o e = Ret e' ->
  counters_inv keep (resync e) -> counters_inv keep (resync e').
Proof.
  intros Hstep (Hkeep & Hsize & Hpkt & Hbare).
  apply perform_counters in Hstep.
  destruct Hstep as [(Hs & Hp & Hk) | [(Hs & Hp & Hk) | (pk & hd & H0 & Hc)]].
  - unfold counters_inv. rewrite Hs, Hp, Hk. auto.
  - unfold counters_inv. rewrite Hs, Hp, Hk.
    repeat split; try assumption.
    + apply wrap_range.
    + intros Hf. destruct (Hbare Hf) as [[H1 H2] | H1]; [left | right; auto].
      split; [exact H1 |]. rewrite H1, H2. reflexivity.
  - unfold counters_inv. rewrite Hc. cbn. rewrite Hkeep.
    repeat split; try assumption.
    + destruct keep; [exact H0 | unfold PKT_SIZE; lia].
    + intros ->. right. reflexivity.
Qed.

Lemma counters_inv_perform_all (keep : bool) (os : list operation) :
  forall e e',
    perform_all os e = Ret e' ->
    counters_inv keep (resync e) -> counters_inv keep (resync e').
Proof.
  induction os as [| o os IH]; intros e e'; cbn [perform_all].
  - intros H; injection H as <-. auto.
  - destruct (perform o e) as [e1 | | |] eqn:Hstep;
      cbn [bind]; try discriminate.
    intros Hrest Hinv. apply (IH e1 e' Hrest).
    apply (counters_inv_perform keep o e e1 Hstep Hinv).
Qed.

(** C6, as the code has it. In any state that a sequence of operations
    reaches from the constructor, and across any further operation: the
    output byte total does not decrease (nor is it reset) unless the
    64-bit counter overflows, and the packet total, which is the byte
    total divided by the current output packet size, is defined before
    and after and does not decrease when the operation leaves the output
    packet size as it is, or when the original packet size is not kept. *)
Theorem totals_monotone
    (keep : bool) (m : list Z) (cin : istream) (cout : ostream)
    (os : list operation) (o : operation) (e e' : engine) :
  perform_all os {| resync := Resynchronizer_new keep; sync_buf := m;
                    sync_pre_size := 0; e_cin := cin; e_cout := cout |}
  = Ret e ->
  perform o e = Ret e' ->
  outputFileBytes (resync e) + outputPacketSize (resync e) < SIZE_MOD ->
  outputFileBytes (resync e) <= outputFileBytes (resync e')
  /\ exists n n',
       outputFilePackets (resync e) = Ret n
       /\ outputFilePackets (resync e') = Ret n'
       /\ (keep = false
           \/ outputPacketSize (resync e') = outputPacketSize (resync e) ->
           n <= n').
Proof.
  intros Hreach Hstep Hno.
  assert (Hinv : counters_inv keep (resync e)).
  { apply (counters_inv_perform_all keep os _ e Hreach).
    apply counters_inv_new. }
  pose proof (counters_inv_perform keep o e e' Hstep Hinv) as Hinv'.
  destruct Hinv as (Hkeep & Hsize & Hpkt & Hbare).
  destruct Hinv' as (_ & Hsize' & Hpkt' & Hbare').
  unfold outputFileBytes, outputPacketSize in *.
  assert (Hbytes : _out_size (resync e) <= _out_size (resync e')).
  { apply perform_counters in Hstep.
    destruct Hstep as [(Hs & _) | [(Hs & _) | (pk & hd & _ & Hc)]].
    - lia.
    - rewrite Hs, sz_add_small; lia.
    - rewrite Hc. simpl. lia. }
  split; [exact Hbytes |].
  pose proof (outputFilePackets_value (resync e)) as Hn.
  pose proof (outputFilePackets_value (resync e')) as Hn'.
  do 2 eexists. split; [exact Hn |]. split; [exact Hn' |].
  unfold outputFileBytes, outputPacketSize.
  intros Hcase.
  assert (Hsame : _out_pkt_size (resync e') = _out_pkt_size (resync e)
                  \/ (_out_pkt_size (resync e) = 0
                      /\ _out_size (resync e) = 0)).
  { destruct Hcase as [Hf | Hsame]; [| auto].
    apply perform_counters in Hstep.
    destruct Hstep as [(_ & Hp & _) | [(_ & Hp & _) | (pk & hd & _ & Hc)]];
      [auto | auto |].
    destruct (Hbare Hf) as [H0 | H1]; [auto |].
    left. rewrite Hc. cbn. rewrite Hkeep, Hf. congruence. }
  destruct Hsame as [Hsame | [H0 H0s]].
  - rewrite Hsame.
    destruct (_out_pkt_size (resync e) =? 0) eqn:Ez; [lia |].
    apply Z.eqb_neq in Ez. apply Z.div_le_mono; lia.
  - rewrite H0, H0s. cbn [Z.eqb].
    destruct (_out_pkt_size (resync e') =? 0) eqn:Ez; [lia |].
    apply Z.eqb_neq in Ez. apply Z.div_pos; lia.
Qed.

Lemma totals_monotone_witness :
  exists e e',
    perform_all [Op_checkSync 0 376 188 0]
      {| resync := Resynchronizer_new false;
         sync_buf := bare_packet 1 ++ bare_packet 2;
         sync_pre_size := 0;
         e_cin := stdin_of [] EndOfFile; e_cout := stdout_new |}
    = Ret e
    /\ perform (Op_writePacket 0) e = Ret e'
    /\ outputFileBytes (resync e) <= outputFileBytes (resync e')
    /\ exists n n',
         outputFilePackets (resync e) = Ret n
         /\ outputFilePackets (resync e') = Ret n'
         /\ (false = false
             \/ outputPacketSize (resync e') = outputPacketSize (resync e) ->
             n <= n').
Proof.
  do 2 eexists.
  split; [vm_compute; reflexivity |].
  split; [vm_compute; reflexivity |].
  apply (totals_monotone false (bare_packet 1 ++ bare_packet 2)
           (stdin_of [] EndOfFile) stdout_new
           [Op_checkSync 0 376 188 0] (Op_writePacket 0)).
  - vm_compute. reflexivity.
  - vm_compute. reflexivity.
  - apply Z.ltb_lt. vm_compute. reflexivity.
Defined.

(** C6 fails on the code. With --keep and --continue, on thirteen bare
    packets followed by a block that the next search takes for a 204-byte
    packet: the first pass of [main] ends with 13 packets reported, the
    second pass writes one more packet and ends with 12 packets reported,
    since the byte total is now divided by 204. *)
Lemma packet_total_decreases_counterexample :
  exists e1 e2,
    pass 100 opt_keep_continue
      (engine_init opt_keep_continue
         (stdin_of stream_two_framings EndOfFile) stdout_new)
    = Ret (false, e1)
    /\ pass 100 opt_keep_continue e1 = Ret (false, e2)
    /\ outputFileBytes (resync e1) = 13 * 188
    /\ outputFilePackets (resync e1) = Ret 13
    /\ outputFileBytes (resync e2) = 13 * 188 + 204
    /\ outputFilePackets (resync e2) = Ret 12.
Proof.
  do 2 eexists.
  split; [vm_compute; reflexivity |].
  split; [vm_compute; reflexivity |].
  repeat split.
Qed.

(** ** The search *)

Lemma options_ok_candidates (opt : Options) (c : Z * Z) :
  options_ok opt -> In c (candidates opt) ->
  0 <= snd c /\ snd c + PKT_SIZE <= fst c < SIZE_MOD.
Proof.
  intros (_ & _ & Hfmt) Hin. unfold candidates in Hin.
  rewrite SIZE_MOD_eq.
  destruct (0 <? packet_size opt) eqn:Ep.
  - apply Z.ltb_lt in Ep. destruct Hin as [<- | []]. simpl.
    destruct Hfmt as [H0 | H1]; lia.
  - unfold PKT_SIZE, PKT_RS_SIZE, PKT_M2TS_SIZE, M2TS_HEADER_SIZE in *.
    destruct Hin as [<- | [<- | [<- | []]]]; simpl; lia.
Qed.

(** Rewrite with the result of a call of checkSync that a hypothesis
    gives for every format of a list. *)
Ltac use_probe H :=
  let Hp := fresh "Hprobe" in
  assert (Hp := H); cbn [fst snd] in Hp;
  rewrite Hp by (simpl; tauto); clear Hp; cbn [bind].

(** The body of the search loop calls checkSync on the candidates, in
    order: when none matches, the Resynchronizer is left as it was. *)
Lemma search_body_none (opt : Options) (r : Resynchronizer) (m : list Z)
    (start search_size : Z) :
  (forall c, In c (candidates opt) ->
             checkSync r m start search_size (fst c) (snd c)
             = Ret (false, r)) ->
  search_body opt r m start search_size = Ret (false, r, candidates opt).
Proof.
  intros Hnone. unfold search_body, candidates in *.
  destruct (0 <? packet_size opt).
  - use_probe (Hnone (packet_size opt, header_size opt)).
    reflexivity.
  - use_probe (Hnone (PKT_SIZE, 0)).
    use_probe (Hnone (PKT_RS_SIZE, 0)).
    use_probe (Hnone (PKT_M2TS_SIZE, M2TS_HEADER_SIZE)).
    reflexivity.
Qed.

(** The first candidate that matches is confirmed, and the loop is left. *)
Lemma search_body_candidates (opt : Options) (r : Resynchronizer)
    (m : list Z) (start search_size : Z)
    (before after : list (Z * Z)) (c : Z * Z) :
  candidates opt = before ++ c :: after ->
  (forall c', In c' before ->
              checkSync r m start search_size (fst c') (snd c')
              = Ret (false, r)) ->
  checkSync r m start search_size (fst c) (snd c)
  = Ret (true, confirmed r (fst c) (snd c)) ->
  search_body opt r m start search_size
  = Ret (true, confirmed r (fst c) (snd c), before ++ [c]).
Proof.
  intros Hcand Hbefore Hc. unfold search_body, candidates in *.
  destruct (0 <? packet_size opt).
  - destruct before as [| c0 before].
    + injection Hcand as <- _. cbn [fst snd] in Hc. rewrite Hc. reflexivity.
    + destruct before; discriminate.
  - destruct before as [| c0 [| c1 [| c2 before]]].
    + injection Hcand as <- _. cbn [fst snd] in Hc. rewrite Hc. reflexivity.
    + injection Hcand as <- <- _.
      use_probe (Hbefore (PKT_SIZE, 0)).
      cbn [fst snd] in Hc. rewrite Hc. reflexivity.
    + injection Hcand as <- <- <- _.
      use_probe (Hbefore (PKT_SIZE, 0)).
      use_probe (Hbefore (PKT_RS_SIZE, 0)).
      cbn [fst snd] in Hc. rewrite Hc. reflexivity.
    + exfalso. injection Hcand as _ _ _ Hrest.
      destruct before; discriminate.
Qed.

Lemma search_loop_none (opt : Options) (r : Resynchronizer) (m : list Z)
    (end_search search_size : Z) (fuel : nat) :
  forall start,
    (Z.to_nat (end_search - start) <= fuel)%nat ->
    (forall s c, start <= s < end_search -> In c (candidates opt) ->
                 checkSync r m s search_size (fst c) (snd c)
                 = Ret (false, r)) ->
    exists s tried,
      search_loop fuel opt r m start end_search search_size
      = Ret (s, r, tried).
Proof.
  induction fuel as [| fuel IH]; intros start Hfuel Hnone; simpl.
  - destruct (start <? end_search) eqn:E; [apply Z.ltb_lt in E; lia |].
    eauto.
  - destruct (start <? end_search) eqn:E; [apply Z.ltb_lt in E | eauto].
    rewrite search_body_none by (intros c Hc; apply Hnone; [lia | exact Hc]).
    cbn [bind].
    destruct (IH (start + 1)) as (s & tried & Hrec).
    + lia.
    + intros s c Hs Hc. apply Hnone; [lia | exact Hc].
    + rewrite Hrec. cbn [bind]. eauto.
Qed.

(** ** The first read of a pass *)

Lemma ByteBlock_len (n : Z) : 0 <= n -> len (ByteBlock n) = n.
Proof.
  intros H. unfold len, ByteBlock. rewrite repeat_length. lia.
Qed.

Lemma load_firstn (d : list Z) (b p : Z) :
  0 <= p < b -> b <= len d ->
  load (firstn (Z.to_nat b) d) p = load d p.
Proof.
  intros Hp Hb. rewrite !load_in by (rewrite ?len_firstn; lia).
  f_equal. rewrite nth_firstn.
  replace (Z.to_nat p <? Z.to_nat b)%nat with true
    by (symmetry; apply Nat.ltb_lt; lia).
  reflexivity.
Qed.

(** A buffer that is empty of carried-over bytes is filled by the first
    read when the source holds at least as many bytes as the buffer. *)
Lemma first_read_full (r : Resynchronizer) (data : list Z) (k : end_kind)
    (b : Z) :
  0 < b < 2 ^ 63 -> b <= len data ->
  readData r (ByteBlock b) (stdin_of data k) (0 + 0)
    (sz_sub (len (ByteBlock b)) 0)
  = Ret (b, r, firstn (Z.to_nat b) data,
         {| in_data := skipn (Z.to_nat b) data; in_end := k;
            in_eofbit := false; in_badbit := false; in_fail := false |}).
Proof.
  intros Hb Hdata.
  rewrite ByteBlock_len by lia.
  rewrite sz_sub_small by (rewrite SIZE_MOD_eq; lia).
  rewrite Z.sub_0_r, Z.add_0_l.
  assert (Hm : len (ByteBlock b) = b) by (apply ByteBlock_len; lia).
  rewrite readData_full;
    [ | lia | reflexivity | reflexivity | exact Hdata | lia | lia ].
  cbn [stdin_of in_data in_end]. rewrite Z.add_0_l.
  rewrite skipn_all2 by (unfold len in Hm; lia).
  cbn [Z.to_nat firstn]. rewrite app_nil_r. reflexivity.
Qed.

Lemma options_ok_buffer (opt : Options) :
  options_ok opt ->
  sz_add (sync_size opt) (contig_size opt) = sync_size opt + contig_size opt
  /\ 0 < sync_size opt + contig_size opt < 2 ^ 63
  /\ 0 < contig_size opt /\ 0 < sync_size opt.
Proof.
  intros (Hs & Hc & _).
  unfold MIN_SYNC_SIZE, MAX_SYNC_SIZE, MIN_CONTIG_SIZE, MAX_CONTIG_SIZE,
    PKT_SIZE in *.
  rewrite sz_add_small by (rewrite SIZE_MOD_eq; lia). lia.
Qed.

(** C5, as the code has it. When the source holds at least as many bytes
    as the buffer (search window plus verification window), every
    candidate packet fits in the verification window (the three default
    candidates always do), and no stride-aligned marker offset of any
    candidate at any search start offset holds the marker byte, the
    program ends its first pass with the status RS_ERROR, has written
    nothing, and exits with a failure. *)
Theorem no_framing_is_error
    (opt : Options) (data : list Z) (k : end_kind) (cout : ostream)
    (fuel : nat) :
  options_ok opt ->
  (forall c, In c (candidates opt) -> fst c <= contig_size opt) ->
  sync_size opt + contig_size opt <= len data ->
  (forall c start i,
      In c (candidates opt) ->
      0 <= start <= sync_size opt ->
      0 <= i -> i * fst c + fst c <= contig_size opt ->
      ~ marker_at data (start + i * fst c + snd c)) ->
  exists e,
    run (S fuel) opt (stdin_of data k) cout = Ret e
    /\ status (resync e) = RS_ERROR
    /\ inputPacketSize (resync e) = 0
    /\ e_cout e = cout
    /\ exit_status (resync e) = EXIT_FAILURE.
Proof.
  intros Hopt Hfit Hlen Hnone.
  destruct (options_ok_buffer opt Hopt) as (Hadd & Hb & Hc & Hs).
  unfold run, engine_init. rewrite Hadd.
  cbn [main_loop]. unfold pass.
  cbn [resync sync_buf sync_pre_size e_cin e_cout].
  rewrite first_read_full by lia. cbn [bind].
  rewrite sz_add_small by (rewrite SIZE_MOD_eq; lia).
  rewrite !Z.add_0_l.
  rewrite Z.min_l by lia.
  set (r := reset (Resynchronizer_new (keep opt))).
  set (m := firstn (Z.to_nat (sync_size opt + contig_size opt)) data).
  destruct (search_loop_none opt r m
              (sync_size opt + contig_size opt - contig_size opt + 1)
              (contig_size opt)
              (Z.to_nat (sync_size opt + contig_size opt
                         - contig_size opt + 1)) 0)
    as (s & tried & Hsearch).
  - lia.
  - intros s c Hs' Hin.
    destruct (options_ok_candidates opt c Hopt Hin) as [Hh Hp].
    specialize (Hfit c Hin).
    apply (checkSync_not_found r s (contig_size opt) (fst c) (snd c)
             Hh Hp m 0); [lia | lia | intros j Hj; lia |].
    rewrite Z.mul_0_l, Z.add_0_r.
    unfold m. unfold PKT_SIZE in Hp.
    rewrite load_firstn by lia.
    rewrite load_in by lia.
    eexists. split; [reflexivity |].
    intros Heq.
    apply (Hnone c s 0 Hin); [lia | lia | lia |].
    unfold marker_at. rewrite Z.mul_0_l, Z.add_0_r.
    rewrite load_in by lia. now rewrite Heq.
  - rewrite Hsearch. cbn [bind].
    eexists. split; [reflexivity |].
    cbn. repeat split; reflexivity.
Qed.

(** ** Slices of a stream *)

Lemma firstn_add (l : list Z) (x y : nat) :
  firstn (x + y) l = firstn x l ++ firstn y (skipn x l).
Proof.
  revert l. induction x as [| x IH]; intros l; [reflexivity |].
  destruct l as [| a l]; simpl.
  - now rewrite firstn_nil.
  - now rewrite IH.
Qed.

Lemma skipn_Z (d : list Z) (x y : Z) :
  0 <= x -> 0 <= y ->
  skipn (Z.to_nat x) (skipn (Z.to_nat y) d) = skipn (Z.to_nat (y + x)) d.
Proof.
  intros Hx Hy. rewrite skipn_skipn. f_equal. lia.
Qed.

Lemma slice_split (d : list Z) (p a b : Z) :
  0 <= p -> 0 <= a -> 0 <= b ->
  slice d p (a + b) = slice d p a ++ slice d (p + a) b.
Proof.
  intros Hp Ha Hb. unfold slice.
  rewrite Z2Nat.inj_add by lia. rewrite firstn_add.
  rewrite skipn_Z by lia. reflexivity.
Qed.

Lemma slice_firstn_le (d : list Z) (b p n : Z) :
  0 <= p -> 0 <= n -> p + n <= b ->
  slice (firstn (Z.to_nat b) d) p n = slice d p n.
Proof.
  intros Hp Hn Hb. unfold slice.
  rewrite skipn_firstn_comm, firstn_firstn. f_equal. lia.
Qed.

Lemma nth_slice (d : list Z) (p n a : Z) :
  0 <= p -> 0 <= a < n ->
  nth (Z.to_nat a) (slice d p n) 0 = nth (Z.to_nat (p + a)) d 0.
Proof.
  intros Hp Ha. unfold slice. rewrite nth_firstn.
  replace (Z.to_nat a <? Z.to_nat n)%nat with true
    by (symmetry; apply Nat.ltb_lt; lia).
  rewrite nth_skipn. f_equal. lia.
Qed.

Lemma slice_slice (d : list Z) (p n a k : Z) :
  0 <= p -> 0 <= a -> 0 <= k -> a + k <= n ->
  slice (slice d p n) a k = slice d (p + a) k.
Proof.
  intros Hp Ha Hk Hn. unfold slice at 2.
  rewrite slice_firstn_le by lia.
  unfold slice. rewrite skipn_Z by lia. reflexivity.
Qed.

Lemma slice_app_l (a b : list Z) (p n : Z) :
  0 <= p -> 0 <= n -> p + n <= len a -> slice (a ++ b) p n = slice a p n.
Proof.
  intros Hp Hn Hin. unfold slice, len in *.
  rewrite skipn_app, firstn_app, length_skipn.
  replace (Z.to_nat n - (length a - Z.to_nat p))%nat with 0%nat by lia.
  now rewrite firstn_0, app_nil_r.
Qed.

Lemma slice_app_r (a b : list Z) (x p n : Z) :
  len a = x -> 0 <= p -> slice (a ++ b) (x + p) n = slice b p n.
Proof.
  intros Hx Hp. unfold slice, len in *.
  rewrite skipn_app.
  rewrite skipn_all2 by lia. cbn [app].
  do 2 f_equal. lia.
Qed.

Lemma load_app_l (a b : list Z) (p : Z) :
  0 <= p < len a -> load (a ++ b) p = load a p.
Proof.
  intros Hp. pose proof (len_nonneg b).
  rewrite !load_in by (rewrite ?len_app; lia).
  f_equal. apply app_nth1. unfold len in *. lia.
Qed.

Lemma slice_0_firstn (m : list Z) (n : Z) :
  slice m 0 n = firstn (Z.to_nat n) m.
Proof. reflexivity. Qed.

Lemma ostream_write_ok (cout : ostream) (bs : list Z) :
  out_fail cout = false -> out_room cout = None ->
  ostream_write cout bs
  = (true, {| out_data := out_data cout ++ bs; out_room := None;
              out_fail := false |}).
Proof. intros Hf Hr. unfold ostream_write. now rewrite Hf, Hr. Qed.

Lemma pieces_S (data : list Z) (pkt_size header_size : Z) (j n : nat) :
  pieces data pkt_size header_size j (S n)
  = slice data (Z.of_nat j * pkt_size + header_size) PKT_SIZE
    ++ pieces data pkt_size header_size (S j) n.
Proof. reflexivity. Qed.

Lemma pieces_app (data : list Z) (pkt_size header_size : Z) (j n n' : nat) :
  pieces data pkt_size header_size j (n + n')
  = pieces data pkt_size header_size j n
    ++ pieces data pkt_size header_size (j + n) n'.
Proof.
  unfold pieces. rewrite seq_app, flat_map_app. reflexivity.
Qed.

(** ** A stream of valid packets *)

Section Reframing.

Variables (data : list Z) (pkt_size header_size b : Z) (total : nat).

Hypothesis header_nonneg : 0 <= header_size.
Hypothesis packet_room : header_size + PKT_SIZE <= pkt_size.
Hypothesis stream_len : len data = Z.of_nat total * pkt_size.
Hypothesis stream_small : len data < 2 ^ 63.
Hypothesis stream_markers :
  forall j : nat, (j < total)%nat ->
    nth (Z.to_nat (Z.of_nat j * pkt_size + header_size)) data 0 = SYNC_BYTE.
Hypothesis buffer_fits : pkt_size <= b <= len data.

Let pkt_pos : 0 < pkt_size.
Proof. unfold PKT_SIZE in packet_room. lia. Qed.

Lemma packet_in_stream (j : nat) :
  (j < total)%nat -> Z.of_nat j * pkt_size + pkt_size <= len data.
Proof. intros Hj. rewrite stream_len. nia. Qed.

Lemma packet_index (j : nat) :
  Z.of_nat j * pkt_size + pkt_size <= len data -> (j < total)%nat.
Proof. rewrite stream_len. intros H. nia. Qed.

Lemma stream_marker_at (j : nat) :
  (j < total)%nat ->
  marker_at data (Z.of_nat j * pkt_size + header_size).
Proof.
  intros Hj. pose proof (packet_in_stream j Hj) as Hin.
  unfold marker_at, PKT_SIZE in *.
  rewrite load_in by nia. now rewrite stream_markers.
Qed.

(** Writing the packet number [j] from a buffer that holds its bare
    packet at [pos + header_size]. *)
Lemma writePacket_reframing (m : list Z) (cout : ostream) (pos : Z) (j : nat) :
  (j < total)%nat ->
  0 <= pos -> pos + pkt_size <= len m ->
  slice m (pos + header_size) PKT_SIZE
  = slice data (Z.of_nat j * pkt_size + header_size) PKT_SIZE ->
  out_fail cout = false -> out_room cout = None ->
  writePacket (reframing pkt_size header_size (Z.of_nat j) RS_OK) m cout pos
  = Ret (true, reframing pkt_size header_size (Z.of_nat (S j)) RS_OK,
         {| out_data := out_data cout
                        ++ pieces data pkt_size header_size j 1;
            out_room := None; out_fail := false |}).
Proof.
  intros Hj Hpos Hin Hslice Hf Hr.
  pose proof (packet_in_stream j Hj) as Hjin.
  unfold writePacket. cbn [reframing _in_header_size _out_header_size
                            _out_pkt_size _out_size _status
                            _keep_packet_size _in_pkt_size].
  rewrite Z.sub_0_r.
  rewrite load_range_in by (unfold PKT_SIZE in *; lia).
  cbn [bind]. rewrite ostream_write_ok by assumption.
  rewrite Hslice.
  rewrite sz_add_small
    by (rewrite SIZE_MOD_eq; unfold PKT_SIZE in *; nia).
  unfold reframing, pieces. cbn [seq flat_map]. rewrite app_nil_r.
  replace (PKT_SIZE * Z.of_nat (S j)) with (PKT_SIZE * Z.of_nat j + PKT_SIZE)
    by lia.
  reflexivity.
Qed.

(** The drain writes every complete packet of the buffer. *)
Lemma drain_valid (n : nat) :
  forall (j : nat) (fuel : nat) (cout : ostream),
    (n <= fuel)%nat ->
    Z.of_nat (j + n) * pkt_size <= b ->
    b < Z.of_nat (j + n) * pkt_size + pkt_size ->
    out_fail cout = false -> out_room cout = None ->
    drain_loop fuel (reframing pkt_size header_size (Z.of_nat j) RS_OK)
      (firstn (Z.to_nat b) data) cout (Z.of_nat j * pkt_size) b
    = Ret (Z.of_nat (j + n) * pkt_size,
           reframing pkt_size header_size (Z.of_nat (j + n)) RS_OK,
           {| out_data := out_data cout
                          ++ pieces data pkt_size header_size j n;
              out_room := None; out_fail := false |}).
Proof.
  induction n as [| n IH]; intros j fuel cout Hfuel Hlo Hhi Hf Hr.
  - rewrite Nat.add_0_r in *.
    assert (Hcond : (Z.of_nat j * pkt_size <=? b - pkt_size) = false)
      by (apply Z.leb_gt; lia).
    destruct fuel; cbn [drain_loop inputPacketSize reframing _in_pkt_size];
      rewrite Hcond; unfold pieces; cbn [seq flat_map];
      rewrite app_nil_r; destruct cout; simpl in *; subst; reflexivity.
  - destruct fuel as [| fuel]; [lia |].
    assert (Hj : (j < total)%nat) by (apply packet_index; nia).
    pose proof (packet_in_stream j Hj) as Hjin.
    cbn [drain_loop inputPacketSize inputHeaderSize reframing
         _in_pkt_size _in_header_size].
    replace (Z.of_nat j * pkt_size <=? b - pkt_size) with true
      by (symmetry; apply Z.leb_le; nia).
    rewrite load_firstn by (unfold PKT_SIZE in *; nia).
    rewrite (stream_marker_at j Hj). cbn [bind].
    rewrite Z.eqb_refl.
    fold (reframing pkt_size header_size (Z.of_nat j) RS_OK).
    rewrite (writePacket_reframing _ _ _ j); try assumption;
      [| nia | rewrite len_firstn by lia; nia
       | apply slice_firstn_le; unfold PKT_SIZE in *; nia].
    cbn [bind negb inputPacketSize reframing _in_pkt_size].
    replace (Z.of_nat j * pkt_size + pkt_size)
      with (Z.of_nat (S j) * pkt_size) by lia.
    fold (reframing pkt_size header_size (Z.of_nat (S j)) RS_OK).
    rewrite (IH (S j) fuel); [| lia | | | reflexivity | reflexivity].
    + cbn [out_data]. rewrite <- app_assoc.
      replace (j + S n)%nat with (S j + n)%nat by lia.
      do 4 f_equal.
      change (S n) with (1 + n)%nat. rewrite pieces_app.
      now rewrite Nat.add_1_r.
    + replace (S j + n)%nat with (j + S n)%nat by lia. exact Hlo.
    + replace (S j + n)%nat with (j + S n)%nat by lia. exact Hhi.
Qed.

(** One iteration of the per-packet loop while packets remain. *)
Lemma steady_body_packet (e : engine) (j : nat) :
  steady_inv data pkt_size header_size b e j ->
  (j < total)%nat ->
  exists e',
    steady_body e = Ret e'
    /\ steady_inv data pkt_size header_size b e' (S j)
    /\ out_data (e_cout e')
       = out_data (e_cout e) ++ pieces data pkt_size header_size j 1.
Proof.
  destruct e as [r m pre cin cout].
  unfold steady_inv. cbn [resync sync_buf sync_pre_size e_cin e_cout].
  intros (-> & Hpre & Hpos & Hm & Hfront & Hcin & Hfail & Heof & Hof & Hor) Hj.
  pose proof (packet_in_stream j Hj) as Hjin.
  unfold steady_body.
  cbn [resync sync_buf sync_pre_size e_cin e_cout inputPacketSize
       inputHeaderSize reframing _in_pkt_size _in_header_size].
  replace (negb (pre <? pkt_size)) with false
    by (symmetry; apply negb_false_iff, Z.ltb_lt; lia).
  rewrite sz_sub_small by (rewrite SIZE_MOD_eq; lia).
  rewrite Z.add_0_l.
  rewrite readData_full;
    [ | lia | exact Hfail | exact Heof
      | rewrite Hcin, len_skipn by lia; lia | lia | lia ].
  cbn [bind inputHeaderSize reframing _in_header_size].
  rewrite Z.eqb_refl. cbn [negb].
  rewrite Hfront, Hcin.
  fold (slice data (Z.of_nat j * pkt_size + pre) (pkt_size - pre)).
  rewrite app_assoc, <- slice_split by lia.
  replace (pre + (pkt_size - pre)) with pkt_size by lia.
  set (rest := skipn (Z.to_nat pkt_size) m).
  assert (Hpkt : len (slice data (Z.of_nat j * pkt_size) pkt_size) = pkt_size)
    by (apply len_slice; lia).
  rewrite load_app_l by (unfold PKT_SIZE in *; lia).
  rewrite load_in by (unfold PKT_SIZE in *; lia).
  rewrite nth_slice by (unfold PKT_SIZE in *; lia).
  rewrite (stream_markers j Hj). cbn [bind]. rewrite Z.eqb_refl. cbn [negb].
  fold (reframing pkt_size header_size (Z.of_nat j) RS_OK).
  rewrite (writePacket_reframing _ _ _ j); try assumption;
    [| lia | rewrite len_app; pose proof (len_nonneg rest); lia |].
  - cbn [bind]. eexists. split; [reflexivity |].
    cbn [resync sync_buf sync_pre_size e_cin e_cout in_data in_fail
         in_eofbit out_data out_fail out_room].
    split; [| reflexivity].
    repeat split; try reflexivity; try lia.
    + unfold rest. rewrite len_app, Hpkt, len_skipn by lia. lia.
    + rewrite skipn_Z by lia. f_equal. lia.
  - rewrite Z.add_0_l.
    rewrite slice_app_l by (unfold PKT_SIZE in *; lia).
    apply slice_slice; unfold PKT_SIZE in *; lia.
Qed.

(** The iteration that finds the source exhausted. *)
Lemma steady_body_end (e : engine) :
  steady_inv data pkt_size header_size b e total ->
  exists e',
    steady_body e = Ret e'
    /\ resync e' = reframing pkt_size header_size (Z.of_nat total) RS_EOF
    /\ out_data (e_cout e') = out_data (e_cout e).
Proof.
  destruct e as [r m pre cin cout].
  unfold steady_inv. cbn [resync sync_buf sync_pre_size e_cin e_cout].
  intros (-> & Hpre & Hpos & Hm & Hfront & Hcin & Hfail & Heof & Hof & Hor).
  assert (pre = 0) by lia. subst pre.
  unfold steady_body.
  cbn [resync sync_buf sync_pre_size e_cin e_cout inputPacketSize
       inputHeaderSize reframing _in_pkt_size _in_header_size].
  replace (negb (0 <? pkt_size)) with false
    by (symmetry; apply negb_false_iff, Z.ltb_lt; lia).
  rewrite sz_sub_small by (rewrite SIZE_MOD_eq; lia).
  rewrite Z.add_0_l, Z.sub_0_r.
  assert (Hempty : len (in_data cin) = 0).
  { rewrite Hcin, len_skipn by lia. lia. }
  destruct (readData_short
              (reframing pkt_size header_size (Z.of_nat total) RS_OK)
              m cin 0 pkt_size) as (m' & cin' & Hread & _);
    [lia | right; right; lia | lia | lia |].
  rewrite Hread. cbn [bind].
  replace (negb (0 =? pkt_size)) with true
    by (symmetry; apply negb_true_iff, Z.eqb_neq; lia).
  eexists. split; [reflexivity |]. split; reflexivity.
Qed.

(** The per-packet loop writes the remaining packets and ends with
    RS_EOF. *)
Lemma steady_valid (n : nat) :
  forall (j : nat) (fuel : nat) (e : engine),
    (n < fuel)%nat -> (j + n = total)%nat ->
    steady_inv data pkt_size header_size b e j ->
    exists e',
      steady_loop fuel e = Ret e'
      /\ resync e' = reframing pkt_size header_size (Z.of_nat total) RS_EOF
      /\ out_data (e_cout e')
         = out_data (e_cout e) ++ pieces data pkt_size header_size j n.
Proof.
  induction n as [| n IH]; intros j fuel e Hfuel Hsum Hinv.
  - rewrite Nat.add_0_r in Hsum. subst j.
    destruct fuel as [| fuel]; [lia |].
    destruct (steady_body_end e Hinv) as (e' & Hbody & Hr & Hout).
    exists e'. cbn [steady_loop].
    destruct Hinv as (Hres & _). rewrite Hres.
    unfold status. cbn [reframing _status Status_eqb].
    rewrite Hbody. cbn [bind].
    rewrite steady_loop_stop by (rewrite Hr; discriminate).
    unfold pieces. cbn [seq flat_map]. rewrite app_nil_r. auto.
  - destruct fuel as [| fuel]; [lia |].
    destruct (steady_body_packet e j Hinv) as (e1 & Hbody & Hinv1 & Hout1);
      [lia |].
    destruct (IH (S j) fuel e1) as (e' & Hloop & Hr & Hout);
      [lia | lia | exact Hinv1 |].
    exists e'. cbn [steady_loop].
    destruct Hinv as (Hres & _). rewrite Hres.
    unfold status. cbn [reframing _status Status_eqb].
    rewrite Hbody. cbn [bind]. rewrite Hloop.
    split; [reflexivity |]. split; [exact Hr |].
    rewrite Hout, Hout1, <- app_assoc. f_equal.
    change (S n) with (1 + n)%nat. rewrite pieces_app.
    now rewrite Nat.add_1_r.
Qed.

End Reframing.

(** ** A whole run on a stream of valid packets *)

Lemma marker_at_firstn (d : list Z) (b a : Z) :
  b <= len d -> marker_at (firstn (Z.to_nat b) d) a -> marker_at d a.
Proof.
  unfold marker_at. intros Hb Hm.
  destruct (load_Ret _ _ _ Hm) as [Hin _].
  assert (Hlt : a < b).
  { unfold len in Hin. rewrite length_firstn in Hin. lia. }
  rewrite <- Hm. symmetry. apply load_firstn; lia.
Qed.

Lemma search_loop_first (opt : Options) (r : Resynchronizer) (m : list Z)
    (end_search search_size : Z) (before after : list (Z * Z)) (c : Z * Z) :
  0 < end_search ->
  candidates opt = before ++ c :: after ->
  (forall c', In c' before ->
              checkSync r m 0 search_size (fst c') (snd c') = Ret (false, r)) ->
  checkSync r m 0 search_size (fst c) (snd c)
  = Ret (true, confirmed r (fst c) (snd c)) ->
  search_loop (Z.to_nat end_search) opt r m 0 end_search search_size
  = Ret (0, confirmed r (fst c) (snd c), before ++ [c]).
Proof.
  intros Hend Hcand Hbefore Hc.
  destruct (Z.to_nat end_search) as [| fuel] eqn:Hfuel; [lia |].
  cbn [search_loop].
  replace (0 <? end_search) with true by (symmetry; apply Z.ltb_lt; lia).
  rewrite (search_body_candidates opt r m 0 search_size before after c)
    by assumption.
  reflexivity.
Qed.

Lemma run_valid_stream
    (opt : Options) (data : list Z) (pkt_size header_size : Z) (total : nat)
    (k : end_kind) (cout : ostream) (fuel : nat)
    (before after : list (Z * Z)) :
  options_ok opt -> keep opt = false ->
  candidates opt = before ++ (pkt_size, header_size) :: after ->
  (forall c, In c before ->
             ~ all_markers data 0 (contig_size opt) (fst c) (snd c)) ->
  len data = Z.of_nat total * pkt_size ->
  len data < 2 ^ 63 ->
  (forall j : nat, (j < total)%nat ->
     nth (Z.to_nat (Z.of_nat j * pkt_size + header_size)) data 0
     = SYNC_BYTE) ->
  pkt_size <= sync_size opt + contig_size opt <= len data ->
  out_fail cout = false -> out_room cout = None ->
  (total + 2 <= fuel)%nat ->
  exists e,
    run fuel opt (stdin_of data k) cout = Ret e
    /\ resync e = reframing pkt_size header_size (Z.of_nat total) RS_EOF
    /\ out_data (e_cout e)
       = out_data cout ++ pieces data pkt_size header_size 0 total.
Proof.
  intros Hopt Hkeep Hcand Hbefore Hlen Hsmall Hmark Hfit Hof Hor Hfuel.
  destruct (options_ok_buffer opt Hopt) as (Hadd & Hb & Hc & Hs).
  assert (Hin : In (pkt_size, header_size) (candidates opt))
    by (rewrite Hcand; apply in_or_app; right; left; reflexivity).
  destruct (options_ok_candidates opt _ Hopt Hin) as [Hh Hp].
  cbn [fst snd] in Hh, Hp.
  assert (Hpos : 0 < pkt_size) by (unfold PKT_SIZE in Hp; lia).
  set (b := sync_size opt + contig_size opt) in *.
  set (q := Z.to_nat (b / pkt_size)).
  assert (Hq : Z.of_nat q * pkt_size <= b < Z.of_nat q * pkt_size + pkt_size).
  { unfold q. rewrite Z2Nat.id by (apply Z.div_pos; lia).
    pose proof (Z.mul_div_le b pkt_size Hpos).
    pose proof (Z.mul_succ_div_gt b pkt_size Hpos). lia. }
  assert (Hqt : (q <= total)%nat) by nia.
  destruct fuel as [| fuel]; [lia |].
  unfold run, engine_init. rewrite Hadd. fold b.
  cbn [main_loop]. unfold pass.
  cbn [resync sync_buf sync_pre_size e_cin e_cout].
  rewrite first_read_full by lia. cbn [bind].
  rewrite sz_add_small by (rewrite SIZE_MOD_eq; lia).
  rewrite !Z.add_0_l. rewrite Z.min_l by lia.
  rewrite Hkeep.
  set (r := reset (Resynchronizer_new false)).
  set (m := firstn (Z.to_nat b) data).
  assert (Hm : len m = b) by (apply len_firstn; lia).
  rewrite (search_loop_first opt r m _ (contig_size opt) before after
             (pkt_size, header_size)); [| lia | exact Hcand | |].
  2: { intros c' Hc'.
       assert (Hin' : In c' (candidates opt))
         by (rewrite Hcand; apply in_or_app; left; exact Hc').
       destruct (options_ok_candidates opt _ Hopt Hin') as [Hh' Hp'].
       destruct (checkSync_total r 0 (contig_size opt) (fst c') (snd c')
                   Hh' Hp' m) as (found & r' & Hrun); [lia | lia |].
       pose proof (checkSync_inv r 0 (contig_size opt) (fst c') (snd c')
                     Hh' Hp' m found r' Hrun) as Hinv.
       destruct found; [| now subst r'].
       exfalso. apply (Hbefore c' Hc').
       intros i Hi Hir. apply (marker_at_firstn data b); [lia |].
       apply (proj1 Hinv); assumption. }
  2: { cbn [fst snd]. apply checkSync_found; [exact Hh | exact Hp |].
       intros i Hi Hir. unfold marker_at, m.
       rewrite load_firstn by (unfold PKT_SIZE in *; nia).
       rewrite load_in by (unfold PKT_SIZE in *; nia).
       rewrite Z.add_0_l.
       replace i with (Z.of_nat (Z.to_nat i)) by lia.
       rewrite Hmark; [reflexivity | nia]. }
  cbn [bind fst snd].
  change (confirmed r pkt_size header_size)
    with (reframing pkt_size header_size (Z.of_nat 0) RS_OK).
  cbn [inputPacketSize reframing _in_pkt_size].
  replace (pkt_size =? 0) with false by (symmetry; apply Z.eqb_neq; lia).
  fold (reframing pkt_size header_size (Z.of_nat 0) RS_OK).
  rewrite Z.sub_0_r.
  assert (Hdrain :=
    drain_valid data pkt_size header_size b total Hh (proj1 Hp) Hlen
      Hsmall Hmark Hfit q 0 (Z.to_nat b) cout).
  change (Z.of_nat 0 * pkt_size) with 0 in Hdrain. fold m in Hdrain.
  rewrite Hdrain;
    [| nia | exact (proj1 Hq) | exact (proj2 Hq) | exact Hof | exact Hor].
  clear Hdrain.
  cbn [bind Nat.add]. unfold status at 1.
  cbn [reframing _status Status_eqb negb].
  fold (reframing pkt_size header_size (Z.of_nat q) RS_OK).
  unfold after_drain. cbn [sync_buf resync e_cin e_cout].
  rewrite compact_in by (rewrite ?Hm, ?SIZE_MOD_eq; lia). cbn [bind].
  cbn [inputPacketSize reframing _in_pkt_size].
  replace (b - Z.of_nat q * pkt_size >=? pkt_size) with false
    by (symmetry; rewrite Z.geb_leb; apply Z.leb_gt; lia).
  fold (reframing pkt_size header_size (Z.of_nat q) RS_OK).
  match goal with
  | |- context [steady_loop fuel ?e0] =>
      destruct (steady_valid data pkt_size header_size b total Hh
                  (proj1 Hp) Hlen Hsmall Hmark Hfit (total - q) q fuel e0)
        as (e' & Hloop & Hres & Hout)
  end.
  - lia.
  - lia.
  - unfold steady_inv.
    cbn [resync sync_buf sync_pre_size e_cin e_cout in_data in_fail
         in_eofbit out_fail out_room].
    split; [reflexivity |]. split; [lia |]. split; [lia |].
    assert (Hleft : len (slice m (Z.of_nat q * pkt_size)
                           (b - Z.of_nat q * pkt_size))
                    = b - Z.of_nat q * pkt_size)
      by (apply len_slice; lia).
    split.
    { rewrite len_app, Hleft, len_skipn by lia. lia. }
    split.
    { rewrite firstn_app_exact by exact Hleft.
      unfold m. apply slice_firstn_le; lia. }
    split; [f_equal; lia |]. auto.
  - rewrite Hloop. cbn [bind].
    rewrite Hres. unfold status. cbn [reframing _status Status_eqb orb andb].
    exists e'. split; [reflexivity |]. split; [exact Hres |].
    rewrite Hout. cbn [out_data e_cout]. rewrite <- app_assoc. f_equal.
    change q with (0 + q)%nat at 2.
    rewrite <- (pieces_app data pkt_size header_size 0 q (total - q)).
    f_equal. lia.
Qed.

(** ** Streams given as lists of packets *)

Section Packets.

Variables (pkt_size header_size : Z).
Hypothesis header_nonneg : 0 <= header_size.
Hypothesis packet_room : header_size + PKT_SIZE <= pkt_size.

Lemma concat_packets_len (pkts : list (list Z)) :
  Forall (valid_packet pkt_size header_size) pkts ->
  len (concat pkts) = Z.of_nat (length pkts) * pkt_size.
Proof.
  induction 1 as [| p ps [Hp _] _ IH]; [reflexivity |].
  cbn [concat length]. rewrite len_app, IH, Hp. lia.
Qed.

Lemma pieces_shift (p rest : list Z) (n : nat) :
  len p = pkt_size ->
  forall j,
    pieces (p ++ rest) pkt_size header_size (S j) n
    = pieces rest pkt_size header_size j n.
Proof.
  intros Hp. induction n as [| n IH]; intros j; [reflexivity |].
  rewrite !pieces_S, IH. f_equal.
  replace (Z.of_nat (S j) * pkt_size + header_size)
    with (pkt_size + (Z.of_nat j * pkt_size + header_size)) by lia.
  apply slice_app_r; [exact Hp | unfold PKT_SIZE in *; nia].
Qed.

Lemma concat_packets_pieces (pkts : list (list Z)) :
  Forall (valid_packet pkt_size header_size) pkts ->
  pieces (concat pkts) pkt_size header_size 0 (length pkts)
  = concat (map (strip header_size) pkts).
Proof.
  induction 1 as [| p ps [Hp _] _ IH]; [reflexivity |].
  cbn [concat length map]. rewrite pieces_S, pieces_shift, IH by exact Hp.
  f_equal. cbn [Z.of_nat Z.mul Z.add]. unfold strip.
  apply slice_app_l; unfold PKT_SIZE in *; lia.
Qed.

Lemma concat_packets_marker (pkts : list (list Z)) :
  Forall (valid_packet pkt_size header_size) pkts ->
  forall j : nat, (j < length pkts)%nat ->
    nth (Z.to_nat (Z.of_nat j * pkt_size + header_size)) (concat pkts) 0
    = SYNC_BYTE.
Proof.
  induction 1 as [| p ps [Hp Hmark] _ IH]; intros j Hj;
    [cbn in Hj; lia |].
  cbn [concat]. unfold len in Hp. destruct j as [| j].
  - cbn [Z.of_nat Z.mul Z.add].
    rewrite app_nth1 by (unfold PKT_SIZE in *; lia). exact Hmark.
  - rewrite app_nth2 by (unfold PKT_SIZE in *; nia).
    rewrite <- (IH j) by (cbn in Hj; lia).
    f_equal. unfold PKT_SIZE in *. nia.
Qed.

Lemma strip_len (pkts : list (list Z)) :
  Forall (valid_packet pkt_size header_size) pkts ->
  Forall (fun p => len (strip header_size p) = PKT_SIZE) pkts.
Proof.
  intros H. eapply Forall_impl; [| exact H].
  intros p [Hp _]. unfold strip.
  apply len_slice; unfold PKT_SIZE in *; lia.
Qed.

End Packets.

(** C4, as the code has it. On a stream of N valid packets of a candidate
    format [(pkt_size, header_size)] that holds at least as many bytes as
    the buffer (search window plus verification window, itself at least
    one packet), and on whose first verification window no candidate
    tried before that format matches, the program without --keep, writing
    to a sink that does not fail, returns with the status RS_EOF and the
    exit status of success after it has written the N packets, each
    reduced to the 188 bytes that follow its header, in order and nothing
    else; it reports 188 * N bytes and N packets. *)
Theorem reframing_valid_packets
    (opt : Options) (pkts : list (list Z)) (pkt_size header_size : Z)
    (k : end_kind) (cout : ostream) (fuel : nat)
    (before after : list (Z * Z)) :
  options_ok opt -> keep opt = false ->
  candidates opt = before ++ (pkt_size, header_size) :: after ->
  (forall c, In c before ->
             ~ all_markers (concat pkts) 0 (contig_size opt) (fst c) (snd c)) ->
  Forall (valid_packet pkt_size header_size) pkts ->
  pkt_size <= sync_size opt + contig_size opt <= len (concat pkts) ->
  len (concat pkts) < 2 ^ 63 ->
  out_fail cout = false -> out_room cout = None ->
  (length pkts + 2 <= fuel)%nat ->
  exists e,
    run fuel opt (stdin_of (concat pkts) k) cout = Ret e
    /\ status (resync e) = RS_EOF
    /\ exit_status (resync e) = EXIT_SUCCESS
    /\ out_data (e_cout e)
       = out_data cout ++ concat (map (strip header_size) pkts)
    /\ Forall (fun p => len (strip header_size p) = PKT_SIZE) pkts
    /\ outputFileBytes (resync e) = PKT_SIZE * Z.of_nat (length pkts)
    /\ outputFilePackets (resync e) = Ret (Z.of_nat (length pkts)).
Proof.
  intros Hopt Hkeep Hcand Hbefore Hvalid Hfit Hsmall Hof Hor Hfuel.
  assert (Hin : In (pkt_size, header_size) (candidates opt))
    by (rewrite Hcand; apply in_or_app; right; left; reflexivity).
  destruct (options_ok_candidates opt _ Hopt Hin) as [Hh [Hp _]].
  cbn [fst snd] in Hh, Hp.
  destruct (run_valid_stream opt (concat pkts) pkt_size header_size
              (length pkts) k cout fuel before after)
    as (e & Hrun & Hres & Hout); try assumption.
  - apply (concat_packets_len pkt_size header_size); assumption.
  - apply (concat_packets_marker pkt_size header_size); assumption.
  - exists e. split; [exact Hrun |].
    rewrite Hres, Hout.
    rewrite (concat_packets_pieces pkt_size header_size) by assumption.
    split; [reflexivity |]. split; [reflexivity |]. split; [reflexivity |].
    split; [apply (strip_len pkt_size header_size); assumption |].
    split; [reflexivity |].
    unfold outputFilePackets, udiv, reframing.
    cbn [_out_pkt_size _out_size]. unfold PKT_SIZE. cbn [Z.eqb].
    f_equal. rewrite Z.mul_comm. apply Z.div_mul. lia.
Qed.

Lemma opt_small_ok : options_ok opt_small.
Proof.
  unfold options_ok, opt_small, MIN_SYNC_SIZE, MAX_SYNC_SIZE,
    MIN_CONTIG_SIZE, MAX_CONTIG_SIZE, PKT_SIZE. simpl. lia.
Qed.

Lemma reframing_valid_packets_witness :
  exists e,
    run 10 opt_small
      (stdin_of (concat (repeat (bare_packet 1) 8)) EndOfFile) stdout_new
    = Ret e
    /\ status (resync e) = RS_EOF
    /\ exit_status (resync e) = EXIT_SUCCESS
    /\ out_data (e_cout e)
       = out_data stdout_new
         ++ concat (map (strip 0) (repeat (bare_packet 1) 8))
    /\ Forall (fun p => len (strip 0 p) = PKT_SIZE) (repeat (bare_packet 1) 8)
    /\ outputFileBytes (resync e)
       = PKT_SIZE * Z.of_nat (length (repeat (bare_packet 1) 8))
    /\ outputFilePackets (resync e)
       = Ret (Z.of_nat (length (repeat (bare_packet 1) 8))).
Proof.
  apply (reframing_valid_packets opt_small (repeat (bare_packet 1) 8)
           188 0 EndOfFile stdout_new 10
           [] [(PKT_RS_SIZE, 0); (PKT_M2TS_SIZE, M2TS_HEADER_SIZE)]).
  - exact opt_small_ok.
  - reflexivity.
  - reflexivity.
  - intros c [].
  - apply Forall_forall. intros p Hp. apply repeat_spec in Hp. subst p.
    split; vm_compute; reflexivity.
  - split; apply Z.leb_le; vm_compute; reflexivity.
  - apply Z.ltb_lt. vm_compute. reflexivity.
  - reflexivity.
  - reflexivity.
  - vm_compute. lia.
Defined.

(** C4 fails on the code. Seven valid 204-byte packets whose byte 188 is
    the marker byte too are taken for bare packets, the first candidate:
    two blocks of 188 bytes are written, the second of which is no packet
    of the input, and the program ends with RS_SYNC_LOST and a failure.
    And a stream of a single bare packet, shorter than the buffer, is read
    as if it were empty: nothing is written and the program exits with
    success. *)
Lemma reframing_counterexample :
  (Forall (valid_packet 204 0) (repeat rs_packet_ambiguous 7)
   /\ exists cin' cout' r',
        main 20 cl_small
          (stdin_of (concat (repeat rs_packet_ambiguous 7)) EndOfFile)
          stdout_new
        = Ret (EXIT_FAILURE, cin', cout', Some r')
        /\ status r' = RS_SYNC_LOST
        /\ len (out_data cout') = 2 * 188
        /\ out_data cout'
           <> concat (map (strip 0) (repeat rs_packet_ambiguous 7)))
  /\
  (valid_packet 188 0 (bare_packet 1)
   /\ exists cin' cout' r',
        main 20 cl_small (stdin_of (bare_packet 1) EndOfFile) stdout_new
        = Ret (EXIT_SUCCESS, cin', cout', Some r')
        /\ status r' = RS_EOF
        /\ out_data cout' = []).
Proof.
  split; split.
  - apply Forall_forall. intros p Hp. apply repeat_spec in Hp. subst p.
    split; vm_compute; reflexivity.
  - do 3 eexists. split; [vm_compute; reflexivity |].
    split; [reflexivity |]. split; [vm_compute; reflexivity |].
    intros H. apply (f_equal (@length Z)) in H. vm_compute in H.
    discriminate.
  - split; vm_compute; reflexivity.
  - do 3 eexists. split; [vm_compute; reflexivity |].
    split; reflexivity.
Qed.

Lemma no_marker_in_zeros (n : nat) (a : Z) : ~ marker_at (repeat 0 n) a.
Proof.
  unfold marker_at. intros H. apply load_Ret in H. destruct H as [_ H].
  assert (Hz : nth (Z.to_nat a) (repeat 0 n) 0 = 0).
  { destruct (Nat.lt_ge_cases (Z.to_nat a) (length (repeat 0 n))) as [Hl | Hl].
    - apply (repeat_spec n 0). apply nth_In. exact Hl.
    - apply nth_overflow. exact Hl. }
  rewrite Hz in H. discriminate.
Qed.

Lemma no_framing_is_error_witness :
  exists e,
    run 1 opt_small (stdin_of (repeat 0 1400) EndOfFile) stdout_new = Ret e
    /\ status (resync e) = RS_ERROR
    /\ inputPacketSize (resync e) = 0
    /\ e_cout e = stdout_new
    /\ exit_status (resync e) = EXIT_FAILURE.
Proof.
  apply (no_framing_is_error opt_small (repeat 0 1400) EndOfFile
           stdout_new 0).
  - exact opt_small_ok.
  - intros c [<- | [<- | [<- | []]]]; vm_compute; discriminate.
  - apply Z.leb_le. vm_compute. reflexivity.
  - intros c start i _ _ _ _. apply no_marker_in_zeros.
Defined.

(** C5 fails on the code. The streams hold no marker byte at all. With
    --packet-size 1000 and a verification window of 376 bytes, 1400 bytes
    end the program with RS_SYNC_LOST, not RS_ERROR: checkSync confirms
    the framing on a window that holds no complete packet. With the
    default candidates, 1000 bytes (more than one verification window,
    fewer than the buffer) are read as if the stream were empty, and the
    program exits with success. *)
Lemma no_framing_counterexample :
  (forall a, ~ marker_at (repeat 0 1400) a)
  /\ (exists cin' cout' r',
         main 20 cl_packet_1000 (stdin_of (repeat 0 1400) EndOfFile)
           stdout_new
         = Ret (EXIT_FAILURE, cin', cout', Some r')
         /\ status r' = RS_SYNC_LOST
         /\ status r' <> RS_ERROR)
  /\ (forall a, ~ marker_at (repeat 0 1000) a)
  /\ (exists cin' cout' r',
         main 20 cl_small (stdin_of (repeat 0 1000) EndOfFile) stdout_new
         = Ret (EXIT_SUCCESS, cin', cout', Some r')
         /\ status r' = RS_EOF
         /\ status r' <> RS_ERROR).
Proof.
  split; [apply no_marker_in_zeros |]. split.
  - do 3 eexists. split; [vm_compute; reflexivity |].
    split; [reflexivity | discriminate].
  - split; [apply no_marker_in_zeros |].
    do 3 eexists. split; [vm_compute; reflexivity |].
    split; [reflexivity | discriminate].
Qed.

(* ================================================================== *)
(** * Further properties of the program *)

(** ** What the operations change *)

Lemma same_framing_refl (r : Resynchronizer) : same_framing r r.
Proof. unfold same_framing. auto. Qed.

Lemma same_framing_trans (r1 r2 r3 : Resynchronizer) :
  same_framing r1 r2 -> same_framing r2 r3 -> same_framing r1 r3.
Proof.
  unfold same_framing.
  intros (A1 & A2 & A3 & A4 & A5) (B1 & B2 & B3 & B4 & B5).
  repeat split; congruence.
Qed.

Lemma same_framing_setStatus (r : Resynchronizer) (s : Status) :
  same_framing r (setStatus r s).
Proof. unfold same_framing. simpl. auto. Qed.

Lemma checkSync_cases (r r' : Resynchronizer) (m : list Z)
    (buf buf_size pkt_size header_size : Z) (b : bool) :
  checkSync r m buf buf_size pkt_size header_size = Ret (b, r') ->
  (b = false /\ r' = r)
  \/ (b = true /\ r' = confirmed r pkt_size header_size).
Proof.
  unfold checkSync.
  destruct (negb (sz_add header_size PKT_SIZE <=? pkt_size));
    [discriminate |].
  destruct (checkSync_loop _ _ _ _ _ _) as [found | | |];
    cbn [bind]; try discriminate.
  destruct found; intros H; injection H as <- <-; auto.
Qed.

Lemma search_body_cases (opt : Options) (r r' : Resynchronizer)
    (m : list Z) (start search_size : Z) (brk : bool)
    (tried : list (Z * Z)) :
  search_body opt r m start search_size = Ret (brk, r', tried) ->
  (brk = false /\ r' = r)
  \/ (brk = true
      /\ exists c, In c (candidates opt)
                   /\ r' = confirmed r (fst c) (snd c)).
Proof.
  unfold search_body, candidates.
  destruct (0 <? packet_size opt).
  - destruct (checkSync r m start search_size _ _) as [[b r1] | | |] eqn:H1;
      cbn [bind]; try discriminate.
    intros H; injection H as <- <- _.
    apply checkSync_cases in H1. destruct H1 as [[-> ->] | [-> ->]]; auto.
    right. split; [reflexivity |].
    exists (packet_size opt, header_size opt). simpl. auto.
  - destruct (checkSync r m start search_size PKT_SIZE 0)
      as [[b1 r1] | | |] eqn:H1; cbn [bind]; try discriminate.
    apply checkSync_cases in H1. destruct H1 as [[-> ->] | [-> ->]].
    2: { intros H; injection H as <- <- _. right. split; [reflexivity |].
         exists (PKT_SIZE, 0). simpl. auto. }
    destruct (checkSync r m start search_size PKT_RS_SIZE 0)
      as [[b2 r2] | | |] eqn:H2; cbn [bind]; try discriminate.
    apply checkSync_cases in H2. destruct H2 as [[-> ->] | [-> ->]].
    2: { intros H; injection H as <- <- _. right. split; [reflexivity |].
         exists (PKT_RS_SIZE, 0). simpl. auto. }
    destruct (checkSync r m start search_size PKT_M2TS_SIZE M2TS_HEADER_SIZE)
      as [[b3 r3] | | |] eqn:H3; cbn [bind]; try discriminate.
    apply checkSync_cases in H3. destruct H3 as [[-> ->] | [-> ->]];
      intros H; injection H as <- <- _; auto.
    right. split; [reflexivity |].
    exists (PKT_M2TS_SIZE, M2TS_HEADER_SIZE). simpl. auto.
Qed.

Lemma search_loop_cases (opt : Options) (m : list Z)
    (end_search search_size : Z) (fuel : nat) :
  forall r start s r' tried,
    search_loop fuel opt r m start end_search search_size
    = Ret (s, r', tried) ->
    r' = r
    \/ exists c, In c (candidates opt) /\ r' = confirmed r (fst c) (snd c).
Proof.
  induction fuel as [| fuel IH]; intros r start s r' tried; simpl.
  - destruct (start <? end_search); [discriminate |].
    intros H; injection H as <- <- <-. auto.
  - destruct (start <? end_search);
      [| intros H; injection H as <- <- <-; auto].
    destruct (search_body opt r m start search_size)
      as [[[brk r1] tried1] | | |] eqn:Hbody; cbn [bind]; try discriminate.
    apply search_body_cases in Hbody.
    destruct Hbody as [[-> ->] | [-> Hc]].
    + destruct (search_loop fuel opt r m (start + 1) end_search search_size)
        as [[[s2 r2] tried2] | | |] eqn:Hrec; cbn [bind]; try discriminate.
      intros H; injection H as <- <- <-. eapply IH. exact Hrec.
    + intros H; injection H as <- <- <-. auto.
Qed.

Lemma wrap_add_l (a b : Z) : wrap (wrap a + b) = wrap (a + b).
Proof. unfold wrap. apply Zplus_mod_idemp_l. Qed.

Lemma load_range_Ret (m bs : list Z) (p n : Z) :
  load_range m p n = Ret bs ->
  0 <= p /\ 0 <= n /\ p + n <= len m /\ bs = slice m p n /\ len bs = n.
Proof.
  unfold load_range.
  destruct (0 <=? p) eqn:E0; [| discriminate].
  destruct (0 <=? n) eqn:E1; [| discriminate].
  destruct (p + n <=? len m) eqn:E2; [| discriminate].
  simpl. intros H. injection H as <-.
  apply Z.leb_le in E0. apply Z.leb_le in E1. apply Z.leb_le in E2.
  repeat split; try assumption. apply len_slice; assumption.
Qed.

Lemma ostream_write_cases (cout cout' : ostream) (bs : list Z) (ok : bool) :
  ostream_write cout bs = (ok, cout') ->
  if ok
  then out_fail cout = false /\ out_fail cout' = false
       /\ out_data cout' = out_data cout ++ bs
  else out_fail cout' = true.
Proof.
  unfold ostream_write.
  destruct (out_fail cout) eqn:Hf.
  - intros H; injection H as <- <-. exact Hf.
  - destruct (out_room cout) as [k |].
    + destruct (len bs <=? k); intros H; injection H as <- <-; simpl; auto.
    + intros H; injection H as <- <-. simpl. auto.
Qed.

(** What one call of writePacket does, when the marker byte was seen at
    the header offset of the input packet. *)
Lemma writePacket_cases (r r' : Resynchronizer) (m : list Z)
    (cout cout' : ostream) (p : Z) (ok : bool) :
  writePacket r m cout p = Ret (ok, r', cout') ->
  load m (p + _in_header_size r) = Ret SYNC_BYTE ->
  0 <= _out_header_size r < _out_pkt_size r ->
  same_framing r r'
  /\ if ok
     then status r' = status r
          /\ out_fail cout = false /\ out_fail cout' = false
          /\ exists b,
               out_data cout' = out_data cout ++ b
               /\ len b = _out_pkt_size r
               /\ nth (Z.to_nat (_out_header_size r)) b 0 = SYNC_BYTE
               /\ _out_size r' = sz_add (_out_size r) (len b)
     else status r' = RS_ERROR
          /\ out_fail cout' = true
          /\ _out_size r' = _out_size r.
Proof.
  unfold writePacket. intros Hrun Hmark Hfmt.
  destruct (load_range m _ _) as [bs | | |] eqn:Hbs;
    cbn [bind] in Hrun; try discriminate.
  apply load_range_Ret in Hbs. destruct Hbs as (Hp & Hn & Hin & -> & Hlen).
  destruct (ostream_write cout _) as [ok' cout1] eqn:Hw.
  apply ostream_write_cases in Hw.
  destruct ok'; injection Hrun as <- <- <-.
  - split; [unfold same_framing; simpl; auto |].
    destruct Hw as (Hf & Hf' & Hd).
    repeat split; try assumption.
    eexists. split; [exact Hd |]. split; [exact Hlen |].
    split; [| cbn [_out_size]; now rewrite Hlen].
    rewrite nth_slice by lia.
    apply load_Ret in Hmark. destruct Hmark as [_ Hnth].
    rewrite <- Hnth. f_equal. lia.
  - split; [apply same_framing_setStatus |].
    repeat split. exact Hw.
Qed.

(** ** Invariants of the loops of [main] *)

Lemma output_formats_ok (opt : Options) (c : Z * Z) :
  options_ok opt -> In c (output_formats opt) -> 0 <= snd c < fst c.
Proof.
  intros Hopt. unfold output_formats. destruct (keep opt).
  - intros Hin. destruct (options_ok_candidates opt c Hopt Hin) as [H0 H1].
    unfold PKT_SIZE in H1. lia.
  - intros [<- | []]. unfold PKT_SIZE. simpl. lia.
Qed.

Lemma output_inv_same_size (opt : Options) (d0 : list Z)
    (r r' : Resynchronizer) (cout : ostream) :
  _out_size r' = _out_size r ->
  output_inv opt d0 r cout -> output_inv opt d0 r' cout.
Proof. unfold output_inv. intros ->. auto. Qed.

Lemma output_inv_failed (opt : Options) (d0 : list Z)
    (r : Resynchronizer) (cout : ostream) :
  out_fail cout = true -> output_inv opt d0 r cout.
Proof. unfold output_inv. intros ->. discriminate. Qed.

Lemma output_inv_block (opt : Options) (d0 : list Z)
    (r r' : Resynchronizer) (cout cout' : ostream) (b : list Z) :
  output_inv opt d0 r cout ->
  out_fail cout = false ->
  block_ok opt b ->
  out_data cout' = out_data cout ++ b ->
  _out_size r' = sz_add (_out_size r) (len b) ->
  output_inv opt d0 r' cout'.
Proof.
  intros Hinv Hf Hb Hd Hs _.
  destruct (Hinv Hf) as (blocks & Hout & Hall & Hsize).
  exists (blocks ++ [b]).
  rewrite concat_app. cbn [concat]. rewrite app_nil_r.
  split; [rewrite Hd, Hout; now rewrite app_assoc |].
  split; [apply Forall_app; split; [exact Hall | constructor; auto] |].
  rewrite Hs, Hsize, len_app. unfold sz_add. apply wrap_add_l.
Qed.

(** A write that follows a successful test of the marker byte keeps the
    invariant of the output. *)
Lemma writePacket_inv (opt : Options) (d0 : list Z)
    (r r' : Resynchronizer) (m : list Z) (cout cout' : ostream)
    (p : Z) (ok : bool) :
  options_ok opt ->
  writePacket r m cout p = Ret (ok, r', cout') ->
  load m (p + _in_header_size r) = Ret SYNC_BYTE ->
  In (_out_pkt_size r, _out_header_size r) (output_formats opt) ->
  output_inv opt d0 r cout ->
  same_framing r r'
  /\ output_inv opt d0 r' cout'
  /\ (if ok then status r' = status r else status r' = RS_ERROR).
Proof.
  intros Hopt Hrun Hmark Hfmt Hinv.
  pose proof (output_formats_ok opt _ Hopt Hfmt) as Hrange.
  cbn [fst snd] in Hrange.
  destruct (writePacket_cases r r' m cout cout' p ok Hrun Hmark Hrange)
    as [Hsame Hcase].
  split; [exact Hsame |].
  destruct ok.
  - destruct Hcase as (Hst & Hf & Hf' & b & Hd & Hlen & Hnth & Hsize).
    split; [| exact Hst].
    apply (output_inv_block opt d0 r r' cout cout' b); try assumption.
    exists (_out_pkt_size r, _out_header_size r). auto.
  - destruct Hcase as (Hst & Hf' & Hsize).
    split; [apply output_inv_failed; exact Hf' | exact Hst].
Qed.

Lemma drain_loop_inv (opt : Options) (d0 : list Z) (m : list Z)
    (sync_end : Z) (fuel : nat) :
  options_ok opt ->
  forall r cout start s' r' cout',
    drain_loop fuel r m cout start sync_end = Ret (s', r', cout') ->
    In (_out_pkt_size r, _out_header_size r) (output_formats opt) ->
    output_inv opt d0 r cout ->
    same_framing r r'
    /\ output_inv opt d0 r' cout'
    /\ (status r' = status r \/ status r' = RS_ERROR).
Proof.
  intros Hopt.
  assert (Hstop : forall (r : Resynchronizer) (cout : ostream) (start : Z)
                         (s' : Z) (r' : Resynchronizer) (cout' : ostream),
             Ret (start, r, cout) = Ret (s', r', cout') ->
             output_inv opt d0 r cout ->
             same_framing r r' /\ output_inv opt d0 r' cout'
             /\ (status r' = status r \/ status r' = RS_ERROR)).
  { intros r cout start s' r' cout' H Hinv. injection H as <- <- <-.
    split; [apply same_framing_refl | auto]. }
  induction fuel as [| fuel IH]; intros r cout start s' r' cout' Hrun Hfmt Hinv;
    cbn [drain_loop] in Hrun;
    (destruct (start <=? sync_end - inputPacketSize r);
     [| eapply Hstop; eassumption]);
    (destruct (load m (start + inputHeaderSize r)) as [b | | |] eqn:Hb;
     cbn [bind] in Hrun; try discriminate);
    (destruct (b =? SYNC_BYTE) eqn:Eb; [| eapply Hstop; eassumption]).
  - discriminate.
  - apply Z.eqb_eq in Eb. subst b.
    destruct (writePacket r m cout start) as [[[ok r1] cout1] | | |] eqn:Hw;
      cbn [bind] in Hrun; try discriminate.
    destruct (writePacket_inv opt d0 r r1 m cout cout1 start ok
                Hopt Hw Hb Hfmt Hinv) as (Hsame & Hinv1 & Hst).
    destruct ok; cbn [negb] in Hrun.
    + destruct Hsame as (K1 & K2 & K3 & K4 & K5).
      destruct (IH r1 cout1 _ s' r' cout' Hrun) as (Hsame' & Hinv' & Hst').
      * rewrite K4, K5. exact Hfmt.
      * exact Hinv1.
      * split; [| split; [exact Hinv' |]].
        -- eapply same_framing_trans; [| exact Hsame'].
           unfold same_framing. auto.
        -- rewrite <- Hst. exact Hst'.
    + injection Hrun as <- <- <-. auto.
Qed.

Lemma steady_body_inv (opt : Options) (d0 : list Z) (e e' : engine) :
  options_ok opt ->
  steady_body e = Ret e' ->
  In (_out_pkt_size (resync e), _out_header_size (resync e))
    (output_formats opt) ->
  output_inv opt d0 (resync e) (e_cout e) ->
  same_framing (resync e) (resync e')
  /\ output_inv opt d0 (resync e') (e_cout e').
Proof.
  intros Hopt Hrun Hfmt Hinv. unfold steady_body in Hrun.
  destruct (negb (sync_pre_size e <? inputPacketSize (resync e)));
    [discriminate |].
  destruct (readData _ _ _ _ _) as [[[[n r1] m1] cin1] | | |] eqn:Hread;
    cbn [bind] in Hrun; try discriminate.
  apply readData_Ret in Hread. destruct Hread as (Hr1 & _).
  assert (Hsame1 : same_framing (resync e) r1)
    by (destruct Hr1 as [-> | ->];
        [apply same_framing_refl | apply same_framing_setStatus]).
  assert (Hsize1 : _out_size r1 = _out_size (resync e))
    by (destruct Hr1 as [-> | ->]; reflexivity).
  destruct (negb (n =? _)).
  - injection Hrun as <-. cbn [resync e_cout]. split.
    + eapply same_framing_trans; [exact Hsame1 |].
      apply same_framing_setStatus.
    + eapply output_inv_same_size; [| exact Hinv]. exact Hsize1.
  - destruct (load m1 (inputHeaderSize r1)) as [b | | |] eqn:Hb;
      cbn [bind] in Hrun; try discriminate.
    destruct (negb (b =? SYNC_BYTE)) eqn:Eb.
    + injection Hrun as <-. cbn [resync e_cout]. split.
      * eapply same_framing_trans; [exact Hsame1 |].
        apply same_framing_setStatus.
      * eapply output_inv_same_size; [| exact Hinv]. exact Hsize1.
    + apply negb_false_iff, Z.eqb_eq in Eb. subst b.
      destruct (writePacket r1 m1 (e_cout e) 0)
        as [[[ok r2] cout2] | | |] eqn:Hw;
        cbn [bind] in Hrun; try discriminate.
      injection Hrun as <-. cbn [resync e_cout].
      destruct Hsame1 as (K1 & K2 & K3 & K4 & K5).
      destruct (writePacket_inv opt d0 r1 r2 m1 (e_cout e) cout2 0 ok
                  Hopt Hw) as (Hsame2 & Hinv2 & _).
      * rewrite Z.add_0_l. exact Hb.
      * rewrite K4, K5. exact Hfmt.
      * eapply output_inv_same_size; [| exact Hinv]. exact Hsize1.
      * split; [| exact Hinv2].
        eapply same_framing_trans; [| exact Hsame2].
        unfold same_framing. auto.
Qed.

Lemma steady_loop_inv (opt : Options) (d0 : list Z) (fuel : nat) :
  options_ok opt ->
  forall e e',
    steady_loop fuel e = Ret e' ->
    In (_out_pkt_size (resync e), _out_header_size (resync e))
      (output_formats opt) ->
    output_inv opt d0 (resync e) (e_cout e) ->
    same_framing (resync e) (resync e')
    /\ output_inv opt d0 (resync e') (e_cout e')
    /\ status (resync e') <> RS_OK.
Proof.
  intros Hopt.
  induction fuel as [| fuel IH]; intros e e' Hrun Hfmt Hinv;
    cbn [steady_loop] in Hrun;
    destruct (Status_eqb (status (resync e)) RS_OK) eqn:Est.
  - discriminate.
  - injection Hrun as <-. split; [apply same_framing_refl |].
    split; [exact Hinv |]. intros H. rewrite H in Est. discriminate.
  - destruct (steady_body e) as [e1 | | |] eqn:Hbody;
      cbn [bind] in Hrun; try discriminate.
    destruct (steady_body_inv opt d0 e e1 Hopt Hbody Hfmt Hinv)
      as [Hsame1 Hinv1].
    destruct (IH e1 e' Hrun) as (Hsame' & Hinv' & Hst).
    + destruct Hsame1 as (K1 & K2 & K3 & K4 & K5). rewrite K4, K5.
      exact Hfmt.
    + exact Hinv1.
    + split; [| auto]. eapply same_framing_trans; eassumption.
  - injection Hrun as <-. split; [apply same_framing_refl |].
    split; [exact Hinv |]. intros H. rewrite H in Est. discriminate.
Qed.

Lemma confirmed_output_format (opt : Options) (r : Resynchronizer)
    (c : Z * Z) :
  _keep_packet_size r = keep opt -> In c (candidates opt) ->
  In (_out_pkt_size (confirmed r (fst c) (snd c)),
      _out_header_size (confirmed r (fst c) (snd c)))
    (output_formats opt).
Proof.
  intros Hk Hc. unfold output_formats. cbn [confirmed _out_pkt_size
    _out_header_size]. rewrite Hk.
  destruct (keep opt).
  - destruct c. exact Hc.
  - left. reflexivity.
Qed.

Lemma Status_eqb_eq (a b : Status) : Status_eqb a b = true <-> a = b.
Proof. destruct a, b; simpl; split; intros H; congruence. Qed.

Lemma pass_inv (opt : Options) (d0 : list Z) (fuel : nat)
    (e e' : engine) (brk : bool) :
  options_ok opt ->
  pass fuel opt e = Ret (brk, e') ->
  out_framing_inv opt (resync e) ->
  output_inv opt d0 (resync e) (e_cout e) ->
  out_framing_inv opt (resync e')
  /\ output_inv opt d0 (resync e') (e_cout e')
  /\ (if brk
      then status (resync e') = RS_EOF \/ status (resync e') = RS_ERROR
      else status (resync e') <> RS_OK).
Proof.
  intros Hopt Hrun [Hkeep Hout] Hinv. unfold pass in Hrun.
  destruct (readData _ _ _ _ _) as [[[[n r1] m1] cin1] | | |] eqn:Hread;
    cbn [bind] in Hrun; try discriminate.
  apply readData_Ret in Hread. destruct Hread as (Hr1 & _).
  set (r0 := reset (resync e)) in *.
  assert (H1 : _keep_packet_size r1 = keep opt
               /\ _out_size r1 = _out_size (resync e)
               /\ _out_pkt_size r1 = _out_pkt_size (resync e)
               /\ _out_header_size r1 = _out_header_size (resync e)
               /\ _in_pkt_size r1 = 0
               /\ (status r1 = RS_OK \/ status r1 = RS_EOF)).
  { destruct Hr1 as [-> | ->]; unfold r0; cbn; auto 10. }
  destruct H1 as (Hk1 & Hs1 & Hp1 & Hh1 & Hi1 & Hst1).
  destruct (search_loop _ _ _ _ _ _ _) as [[[start r2] tried] | | |]
    eqn:Hsearch; cbn [bind] in Hrun; try discriminate.
  apply search_loop_cases in Hsearch.
  assert (H2 : _keep_packet_size r2 = keep opt
               /\ _out_size r2 = _out_size (resync e)
               /\ status r2 = status r1
               /\ ((_out_pkt_size r2 = 0 /\ _out_size r2 = 0)
                   \/ In (_out_pkt_size r2, _out_header_size r2)
                        (output_formats opt))
               /\ (_in_pkt_size r2 <> 0 ->
                   In (_out_pkt_size r2, _out_header_size r2)
                     (output_formats opt))).
  { destruct Hsearch as [-> | (c & Hc & ->)].
    - repeat split; try assumption.
      + rewrite Hp1, Hh1, Hs1. exact Hout.
      + intros H. contradiction.
    - pose proof (confirmed_output_format opt r1 c Hk1 Hc) as Hfmt.
      repeat split; auto. }
  destruct H2 as (Hk2 & Hs2 & Hst2 & Hout2 & Hfmt2).
  destruct (inputPacketSize r2 =? 0) eqn:Ez.
  - injection Hrun as <- <-. cbn [resync e_cout].
    split; [split; assumption |].
    split; [| right; reflexivity].
    eapply output_inv_same_size; [| exact Hinv]. exact Hs2.
  - apply Z.eqb_neq in Ez. specialize (Hfmt2 Ez).
    destruct (drain_loop _ _ _ _ _ _) as [[[start' r3] cout3] | | |]
      eqn:Hdrain; cbn [bind] in Hrun; try discriminate.
    destruct (drain_loop_inv opt d0 m1 _ _ Hopt r2 (e_cout e) start
                start' r3 cout3 Hdrain Hfmt2) as (Hsame3 & Hinv3 & Hst3).
    { eapply output_inv_same_size; [| exact Hinv]. exact Hs2. }
    destruct Hsame3 as (K1 & K2 & K3 & K4 & K5).
    assert (Hfmt3 : In (_out_pkt_size r3, _out_header_size r3)
                      (output_formats opt))
      by (rewrite K4, K5; exact Hfmt2).
    destruct (negb (Status_eqb (status r3) RS_OK)) eqn:Eok.
    + injection Hrun as <- <-. cbn [resync e_cout].
      split; [split; [congruence | right; exact Hfmt3] |].
      split; [exact Hinv3 |].
      apply negb_true_iff in Eok.
      destruct (status r3) eqn:E3; try discriminate; auto.
      exfalso. destruct Hst3 as [H | H]; [| discriminate].
      rewrite Hst2 in H. destruct Hst1 as [H' | H']; congruence.
    + unfold after_drain in Hrun. cbn [sync_buf resync e_cin e_cout] in Hrun.
      destruct (compact m1 start' _) as [[pre m'] | | |];
        cbn [bind] in Hrun; try discriminate.
      destruct (steady_loop fuel _) as [e1 | | |] eqn:Hloop;
        cbn [bind] in Hrun; try discriminate.
      injection Hrun as <- <-.
      apply (steady_loop_inv opt d0 fuel Hopt) in Hloop.
      * destruct Hloop as (Hsame & Hinv' & Hst').
        cbn [resync] in Hsame.
        destruct Hsame as (L1 & L2 & L3 & L4 & L5).
        split; [| split; assumption].
        split.
        -- rewrite L1. destruct (pre >=? _); cbn; congruence.
        -- right. rewrite L4, L5. destruct (pre >=? _); exact Hfmt3.
      * cbn [resync]. destruct (pre >=? _); exact Hfmt3.
      * cbn [resync e_cout].
        destruct (pre >=? _); [| exact Hinv3].
        eapply output_inv_same_size; [| exact Hinv3]. reflexivity.
Qed.

Lemma main_loop_inv (opt : Options) (d0 : list Z) (fuel : nat) :
  options_ok opt ->
  forall e e',
    main_loop fuel opt e = Ret e' ->
    out_framing_inv opt (resync e) ->
    output_inv opt d0 (resync e) (e_cout e) ->
    out_framing_inv opt (resync e')
    /\ output_inv opt d0 (resync e') (e_cout e')
    /\ status (resync e') <> RS_OK
    /\ (cont_sync opt = true -> status (resync e') <> RS_SYNC_LOST).
Proof.
  intros Hopt. induction fuel as [| fuel IH]; intros e e' Hrun Hfr Hinv;
    cbn [main_loop] in Hrun; [discriminate |].
  destruct (pass fuel opt e) as [[brk e1] | | |] eqn:Hpass;
    cbn [bind] in Hrun; try discriminate.
  destruct (pass_inv opt d0 fuel e e1 brk Hopt Hpass Hfr Hinv)
    as (Hfr1 & Hinv1 & Hst1).
  destruct brk.
  - injection Hrun as <-. split; [exact Hfr1 |]. split; [exact Hinv1 |].
    destruct Hst1 as [H | H]; rewrite H; split; try discriminate.
  - destruct (Status_eqb (status (resync e1)) RS_OK
              || Status_eqb (status (resync e1)) RS_SYNC_LOST
                 && cont_sync opt) eqn:Econt.
    + apply (IH e1 e' Hrun Hfr1 Hinv1).
    + injection Hrun as <-. split; [exact Hfr1 |]. split; [exact Hinv1 |].
      split; [exact Hst1 |].
      intros Hc Hlost. rewrite Hlost, Hc in Econt. discriminate.
Qed.

(** ** The output of a run *)

Lemma run_inv (opt : Options) (fuel : nat) (cin : istream) (cout : ostream)
    (e : engine) :
  options_ok opt ->
  run fuel opt cin cout = Ret e ->
  out_framing_inv opt (resync e)
  /\ output_inv opt (out_data cout) (resync e) (e_cout e)
  /\ status (resync e) <> RS_OK
  /\ (cont_sync opt = true -> status (resync e) <> RS_SYNC_LOST).
Proof.
  intros Hopt Hrun. unfold run in Hrun.
  apply (main_loop_inv opt (out_data cout) fuel Hopt _ e Hrun).
  - unfold out_framing_inv, engine_init. simpl. auto.
  - unfold output_inv, engine_init. simpl. intros _.
    exists []. simpl. rewrite app_nil_r. auto.
Qed.



Lemma concat_len_blocks (blocks : list (list Z)) (n : Z) :
  Forall (fun b => len b = n) blocks ->
  len (concat blocks) = n * Z.of_nat (length blocks).
Proof.
  induction 1 as [| b bs Hb _ IH]; [simpl; unfold len; simpl; lia |].
  cbn [concat length]. rewrite len_app, IH, Hb. lia.
Qed.

(** X2. When a run returns without a failed write, the byte total it
    reports is the number of bytes it has written, modulo 2^64; without
    --keep and below 2^64 bytes, the packet total it reports is the
    number of 188-byte packets it has written. *)
Theorem reported_totals_match_output
    (opt : Options) (fuel : nat) (cin : istream) (cout : ostream)
    (e : engine) :
  options_ok opt ->
  run fuel opt cin cout = Ret e ->
  out_fail (e_cout e) = false ->
  exists written,
    out_data (e_cout e) = out_data cout ++ written
    /\ outputFileBytes (resync e) = wrap (len written)
    /\ (keep opt = false -> len written < SIZE_MOD ->
        len written = PKT_SIZE * (len written / PKT_SIZE)
        /\ outputFilePackets (resync e) = Ret (len written / PKT_SIZE)).
Proof.
  intros Hopt Hrun Hok.
  destruct (run_inv opt fuel cin cout e Hopt Hrun) as (Hfr & Hinv & _).
  destruct (Hinv Hok) as (blocks & Hout & Hall & Hsize).
  exists (concat blocks). split; [exact Hout |]. split; [exact Hsize |].
  intros Hk Hsmall.
  assert (Hlen : len (concat blocks) = PKT_SIZE * Z.of_nat (length blocks)).
  { apply concat_len_blocks. eapply Forall_impl; [| exact Hall].
    intros b (c & Hc & Hb & _). unfold output_formats in Hc.
    rewrite Hk in Hc. destruct Hc as [<- | []]. exact Hb. }
  assert (Hdiv : len (concat blocks) / PKT_SIZE = Z.of_nat (length blocks)).
  { rewrite Hlen, Z.mul_comm. apply Z.div_mul. unfold PKT_SIZE. lia. }
  split; [rewrite Hdiv; exact Hlen |].
  rewrite outputFilePackets_value.
  unfold outputPacketSize, outputFileBytes. rewrite Hsize.
  rewrite wrap_small by (pose proof (len_nonneg (concat blocks)); lia).
  destruct Hfr as [_ [[Hp0 Hs0] | Hin]].
  - rewrite Hp0. cbn [Z.eqb]. f_equal.
    rewrite Hsize, wrap_small in Hs0
      by (pose proof (len_nonneg (concat blocks)); lia).
    rewrite Hs0. reflexivity.
  - unfold output_formats in Hin. rewrite Hk in Hin.
    destruct Hin as [Hin | []]. injection Hin as Hp _.
    rewrite <- Hp. unfold PKT_SIZE. cbn [Z.eqb]. reflexivity.
Qed.

Lemma reported_totals_match_output_witness :
  exists e,
    run 10 opt_small
      (stdin_of (concat (repeat (bare_packet 1) 8) ++ repeat 0 50) EndOfFile)
      stdout_new = Ret e
    /\ exists written,
         out_data (e_cout e) = out_data stdout_new ++ written
         /\ outputFileBytes (resync e) = wrap (len written)
         /\ (keep opt_small = false -> len written < SIZE_MOD ->
             len written = PKT_SIZE * (len written / PKT_SIZE)
             /\ outputFilePackets (resync e)
                = Ret (len written / PKT_SIZE)).
Proof.
  eexists. split; [vm_compute; reflexivity |].
  apply (reported_totals_match_output opt_small 10
           (stdin_of (concat (repeat (bare_packet 1) 8) ++ repeat 0 50)
              EndOfFile) stdout_new).
  - exact opt_small_ok.
  - vm_compute. reflexivity.
  - reflexivity.
Defined.

(** X3. A run never returns with the status RS_OK: it ends with RS_EOF,
    with RS_ERROR, or, only without --continue, with RS_SYNC_LOST; and the
    exit status is that of success exactly for RS_EOF. *)
Theorem run_terminal_status
    (opt : Options) (fuel : nat) (cin : istream) (cout : ostream)
    (e : engine) :
  options_ok opt ->
  run fuel opt cin cout = Ret e ->
  (status (resync e) = RS_EOF
   \/ status (resync e) = RS_ERROR
   \/ (status (resync e) = RS_SYNC_LOST /\ cont_sync opt = false))
  /\ (exit_status (resync e) = EXIT_SUCCESS <-> status (resync e) = RS_EOF).
Proof.
  intros Hopt Hrun.
  destruct (run_inv opt fuel cin cout e Hopt Hrun) as (_ & _ & Hok & Hcont).
  split.
  - destruct (status (resync e)) eqn:Est; auto.
    + contradiction.
    + right. right. split; [reflexivity |].
      destruct (cont_sync opt); [| reflexivity].
      exfalso. apply Hcont; reflexivity.
  - unfold exit_status, EXIT_SUCCESS, EXIT_FAILURE.
    destruct (status (resync e)); simpl; split; intros H;
      congruence.
Qed.

Lemma run_terminal_status_witness :
  exists e,
    run 10 opt_keep_continue (stdin_of stream_two_framings EndOfFile)
      stdout_new = Ret e
    /\ (status (resync e) = RS_EOF
        \/ status (resync e) = RS_ERROR
        \/ (status (resync e) = RS_SYNC_LOST
            /\ cont_sync opt_keep_continue = false))
    /\ (exit_status (resync e) = EXIT_SUCCESS
        <-> status (resync e) = RS_EOF).
Proof.
  eexists. split; [vm_compute; reflexivity |].
  apply (run_terminal_status opt_keep_continue 10
           (stdin_of stream_two_framings EndOfFile) stdout_new).
  - unfold options_ok, opt_keep_continue, MIN_SYNC_SIZE, MAX_SYNC_SIZE,
      MIN_CONTIG_SIZE, MAX_CONTIG_SIZE, PKT_SIZE. simpl. lia.
  - vm_compute. reflexivity.
Defined.

(** ** What the search finds *)

Lemma checkSync_false_no_markers (r : Resynchronizer) (m : list Z)
    (buf buf_size pkt_size header_size : Z) :
  0 <= header_size -> header_size + PKT_SIZE <= pkt_size < SIZE_MOD ->
  checkSync r m buf buf_size pkt_size header_size = Ret (false, r) ->
  ~ all_markers m buf buf_size pkt_size header_size.
Proof.
  intros Hh Hp Hrun Hall.
  rewrite (checkSync_found r buf buf_size pkt_size header_size Hh Hp m Hall)
    in Hrun.
  discriminate.
Qed.

Lemma checkSync_true_markers (r r' : Resynchronizer) (m : list Z)
    (buf buf_size pkt_size header_size : Z) :
  0 <= header_size -> header_size + PKT_SIZE <= pkt_size < SIZE_MOD ->
  checkSync r m buf buf_size pkt_size header_size = Ret (true, r') ->
  all_markers m buf buf_size pkt_size header_size.
Proof.
  intros Hh Hp Hrun.
  exact (proj1 (checkSync_inv r buf buf_size pkt_size header_size Hh Hp
                  m true r' Hrun)).
Qed.

(** One iteration of the search: either no candidate matches at [start],
    or the first candidate that matches is confirmed. *)
Lemma search_body_spec (opt : Options) (r r' : Resynchronizer)
    (m : list Z) (start search_size : Z) (brk : bool)
    (tried : list (Z * Z)) :
  options_ok opt ->
  search_body opt r m start search_size = Ret (brk, r', tried) ->
  (brk = false /\ r' = r /\ no_match opt m start search_size)
  \/ (brk = true
      /\ exists before c after,
           candidates opt = before ++ c :: after
           /\ r' = confirmed r (fst c) (snd c)
           /\ all_markers m start search_size (fst c) (snd c)
           /\ forall c', In c' before ->
                ~ all_markers m start search_size (fst c') (snd c')).
Proof.
  intros Hopt.
  assert (Hfmt := options_ok_candidates opt).
  unfold no_match. unfold search_body, candidates in *.
  destruct (0 <? packet_size opt).
  - destruct (checkSync r m start search_size _ _) as [[b r1] | | |] eqn:H1;
      cbn [bind]; try discriminate.
    intros H; injection H as <- <- _.
    destruct (Hfmt (packet_size opt, header_size opt) Hopt) as [Hh Hp];
      [simpl; auto |]. cbn [fst snd] in Hh, Hp.
    pose proof (checkSync_cases _ _ _ _ _ _ _ _ H1) as Hc.
    destruct Hc as [[-> ->] | [-> ->]].
    + left. split; [reflexivity |]. split; [reflexivity |].
      intros c [<- | []]. cbn [fst snd].
      eapply checkSync_false_no_markers; eassumption.
    + right. split; [reflexivity |].
      exists [], (packet_size opt, header_size opt), [].
      split; [reflexivity |]. split; [reflexivity |].
      split; [eapply checkSync_true_markers; eassumption |].
      intros c' [].
  - destruct (Hfmt (PKT_SIZE, 0) Hopt) as [Hh1 Hp1]; [simpl; auto |].
    destruct (Hfmt (PKT_RS_SIZE, 0) Hopt) as [Hh2 Hp2]; [simpl; auto |].
    destruct (Hfmt (PKT_M2TS_SIZE, M2TS_HEADER_SIZE) Hopt) as [Hh3 Hp3];
      [simpl; auto |].
    cbn [fst snd] in *.
    destruct (checkSync r m start search_size PKT_SIZE 0)
      as [[b1 r1] | | |] eqn:H1; cbn [bind]; try discriminate.
    pose proof (checkSync_cases _ _ _ _ _ _ _ _ H1) as Hc1.
    destruct Hc1 as [[-> ->] | [-> ->]].
    2: { intros H; injection H as <- <- _. right. split; [reflexivity |].
         exists [], (PKT_SIZE, 0),
           [(PKT_RS_SIZE, 0); (PKT_M2TS_SIZE, M2TS_HEADER_SIZE)].
         split; [reflexivity |]. split; [reflexivity |].
         split; [eapply checkSync_true_markers; eassumption |].
         intros c' []. }
    apply checkSync_false_no_markers in H1; try assumption.
    destruct (checkSync r m start search_size PKT_RS_SIZE 0)
      as [[b2 r2] | | |] eqn:H2; cbn [bind]; try discriminate.
    pose proof (checkSync_cases _ _ _ _ _ _ _ _ H2) as Hc2.
    destruct Hc2 as [[-> ->] | [-> ->]].
    2: { intros H; injection H as <- <- _. right. split; [reflexivity |].
         exists [(PKT_SIZE, 0)], (PKT_RS_SIZE, 0),
           [(PKT_M2TS_SIZE, M2TS_HEADER_SIZE)].
         split; [reflexivity |]. split; [reflexivity |].
         split; [eapply checkSync_true_markers; eassumption |].
         intros c' [<- | []]. exact H1. }
    apply checkSync_false_no_markers in H2; try assumption.
    destruct (checkSync r m start search_size PKT_M2TS_SIZE M2TS_HEADER_SIZE)
      as [[b3 r3] | | |] eqn:H3; cbn [bind]; try discriminate.
    pose proof (checkSync_cases _ _ _ _ _ _ _ _ H3) as Hc3.
    destruct Hc3 as [[-> ->] | [-> ->]]; intros H; injection H as <- <- _.
    + apply checkSync_false_no_markers in H3; try assumption.
      left. split; [reflexivity |]. split; [reflexivity |].
      intros c [<- | [<- | [<- | []]]]; assumption.
    + right. split; [reflexivity |].
      exists [(PKT_SIZE, 0); (PKT_RS_SIZE, 0)],
        (PKT_M2TS_SIZE, M2TS_HEADER_SIZE), [].
      split; [reflexivity |]. split; [reflexivity |].
      split; [eapply checkSync_true_markers; eassumption |].
      intros c' [<- | [<- | []]]; assumption.
Qed.

(** X4. The search confirms the first match: when it returns with a
    framing confirmed, that is the format of the first candidate, in the
    order of the calls, whose every complete packet carries the marker
    byte in the window at the lowest offset where any candidate does; when
    it returns without, no candidate matches at any offset. *)
Theorem search_confirms_first_match
    (opt : Options) (m : list Z) (end_search search_size : Z) (fuel : nat)
    (r : Resynchronizer) (start s : Z) (r' : Resynchronizer)
    (tried : list (Z * Z)) :
  options_ok opt ->
  search_loop fuel opt r m start end_search search_size
  = Ret (s, r', tried) ->
  (r' = r
   /\ forall s', start <= s' < end_search -> no_match opt m s' search_size)
  \/ (exists before c after,
        candidates opt = before ++ c :: after
        /\ r' = confirmed r (fst c) (snd c)
        /\ inputPacketSize r' = fst c /\ inputHeaderSize r' = snd c
        /\ start <= s < end_search
        /\ all_markers m s search_size (fst c) (snd c)
        /\ (forall c', In c' before ->
              ~ all_markers m s search_size (fst c') (snd c'))
        /\ forall s', start <= s' < s -> no_match opt m s' search_size).
Proof.
  intros Hopt. revert r start s r' tried.
  induction fuel as [| fuel IH]; intros r start s r' tried; simpl.
  - destruct (start <? end_search) eqn:E; [discriminate |].
    apply Z.ltb_ge in E.
    intros H; injection H as <- <- <-. left.
    split; [reflexivity |]. intros s' Hs'. lia.
  - destruct (start <? end_search) eqn:E.
    2: { apply Z.ltb_ge in E.
         intros H; injection H as <- <- <-. left.
         split; [reflexivity |]. intros s' Hs'. lia. }
    apply Z.ltb_lt in E.
    destruct (search_body opt r m start search_size)
      as [[[brk r1] tried1] | | |] eqn:Hbody; cbn [bind]; try discriminate.
    apply (search_body_spec opt r r1 m start search_size brk tried1 Hopt)
      in Hbody.
    destruct Hbody as [(-> & -> & Hno) | (-> & before & c & after & Hc)].
    + destruct (search_loop fuel opt r m (start + 1) end_search search_size)
        as [[[s2 r2] tried2] | | |] eqn:Hrec; cbn [bind]; try discriminate.
      intros H; injection H as <- <- <-.
      apply IH in Hrec.
      destruct Hrec as [[-> Hnone] | (bf & c & af & H1 & H2 & H3 & H4 & H5
                                       & H6 & H7 & H8)].
      * left. split; [reflexivity |]. intros s' Hs'.
        destruct (Z.eq_dec s' start) as [-> | Hne]; [exact Hno |].
        apply Hnone. lia.
      * right. exists bf, c, af. repeat split; try assumption; try lia.
        intros s' Hs'.
        destruct (Z.eq_dec s' start) as [-> | Hne]; [exact Hno |].
        apply H8. lia.
    + intros H; injection H as <- <- <-.
      destruct Hc as (H1 & H2 & H3 & H4).
      right. exists before, c, after. subst r1.
      split; [exact H1 |]. split; [reflexivity |].
      split; [reflexivity |]. split; [reflexivity |].
      split; [lia |]. split; [exact H3 |]. split; [exact H4 |].
      intros s' Hs'. lia.
Qed.

Lemma search_confirms_first_match_witness :
  exists s r' tried,
    search_loop 2 opt_small (Resynchronizer_new false)
      (repeat 0 1 ++ bare_packet 1 ++ bare_packet 2) 0 2 376
    = Ret (s, r', tried)
    /\ ((r' = Resynchronizer_new false
         /\ forall s', 0 <= s' < 2 ->
              no_match opt_small
                (repeat 0 1 ++ bare_packet 1 ++ bare_packet 2) s' 376)
        \/ (exists before c after,
              candidates opt_small = before ++ c :: after
              /\ r' = confirmed (Resynchronizer_new false) (fst c) (snd c)
              /\ inputPacketSize r' = fst c /\ inputHeaderSize r' = snd c
              /\ 0 <= s < 2
              /\ all_markers (repeat 0 1 ++ bare_packet 1 ++ bare_packet 2)
                   s 376 (fst c) (snd c)
              /\ (forall c', In c' before ->
                    ~ all_markers
                        (repeat 0 1 ++ bare_packet 1 ++ bare_packet 2)
                        s 376 (fst c') (snd c'))
              /\ forall s', 0 <= s' < s ->
                   no_match opt_small
                     (repeat 0 1 ++ bare_packet 1 ++ bare_packet 2)
                     s' 376)).
Proof.
  do 3 eexists. split; [vm_compute; reflexivity |].
  eapply (search_confirms_first_match opt_small
            (repeat 0 1 ++ bare_packet 1 ++ bare_packet 2) 2 376 2
            (Resynchronizer_new false) 0).
  - exact opt_small_ok.
  - vm_compute. reflexivity.
Defined.

(** Every call of checkSync in one iteration of the search returns, when
    the region lies in the buffer. *)
Lemma search_body_total (opt : Options) (m : list Z) (search_size : Z)
    (r0 : Resynchronizer) (s : Z) :
  options_ok opt ->
  0 <= s -> s + search_size <= len m ->
  exists brk r1 tried,
    search_body opt r0 m s search_size = Ret (brk, r1, tried).
Proof.
  intros Hopt Hs Hin.
  assert (Hprobe : forall r c,
             In c (candidates opt) ->
             exists b r1,
               checkSync r m s search_size (fst c) (snd c) = Ret (b, r1)).
  { intros r c Hc.
    destruct (options_ok_candidates opt c Hopt Hc) as [Hh Hp].
    apply checkSync_total; assumption. }
  unfold search_body.
  pose proof (Hprobe r0) as Hp0.
  unfold candidates in Hprobe, Hp0.
  destruct (0 <? packet_size opt).
  - destruct (Hp0 (packet_size opt, header_size opt)) as (b & r1 & H1);
      [simpl; auto |]. cbn [fst snd] in H1. rewrite H1. cbn [bind]. eauto.
  - destruct (Hp0 (PKT_SIZE, 0)) as (b1 & r1 & H1); [simpl; auto |].
    cbn [fst snd] in H1. rewrite H1. cbn [bind].
    destruct b1; [eauto |].
    destruct (Hprobe r1 (PKT_RS_SIZE, 0)) as (b2 & r2 & H2);
      [simpl; auto |].
    cbn [fst snd] in H2. rewrite H2. cbn [bind].
    destruct b2; [eauto |].
    destruct (Hprobe r2 (PKT_M2TS_SIZE, M2TS_HEADER_SIZE))
      as (b3 & r3 & H3); [simpl; auto |].
    cbn [fst snd] in H3. rewrite H3. cbn [bind]. eauto.
Qed.

(** X5. The search stays inside the region it is given: on any buffer
    that holds the [end_search + search_size - 1] bytes of the region,
    even one that ends there, it returns, with an offset between [start]
    and [end_search]. *)
Theorem search_stays_in_region
    (opt : Options) (m : list Z) (end_search search_size : Z)
    (r : Resynchronizer) :
  options_ok opt ->
  0 <= search_size ->
  end_search + search_size - 1 <= len m ->
  forall (fuel : nat) (start : Z),
    0 <= start ->
    (Z.to_nat (end_search - start) <= fuel)%nat ->
    exists s r' tried,
      search_loop fuel opt r m start end_search search_size
      = Ret (s, r', tried)
      /\ start <= s <= Z.max start end_search.
Proof.
  intros Hopt Hss Hin.
  assert (Hbody : forall r0 s,
             0 <= s < end_search ->
             exists brk r1 tried,
               search_body opt r0 m s search_size = Ret (brk, r1, tried)).
  { intros r0 s Hs. apply search_body_total; [exact Hopt | lia | lia]. }
  intros fuel. revert r.
  induction fuel as [| fuel IH]; intros r start Hstart Hfuel; simpl.
  - destruct (start <? end_search) eqn:E; [apply Z.ltb_lt in E; lia |].
    do 3 eexists. split; [reflexivity | lia].
  - destruct (start <? end_search) eqn:E.
    2: { do 3 eexists. split; [reflexivity | lia]. }
    apply Z.ltb_lt in E.
    destruct (Hbody r start) as (brk & r1 & tried1 & H1); [lia |].
    rewrite H1. cbn [bind]. destruct brk.
    + do 3 eexists. split; [reflexivity | lia].
    + destruct (IH r1 (start + 1)) as (s & r2 & tried2 & H2 & Hs);
        [lia | lia |].
      rewrite H2. cbn [bind]. do 3 eexists. split; [reflexivity | lia].
Qed.

Lemma search_stays_in_region_witness :
  exists s r' tried,
    search_loop 2 opt_small (Resynchronizer_new false)
      (repeat 0 1 ++ bare_packet 1 ++ bare_packet 2) 0 2 376
    = Ret (s, r', tried)
    /\ 0 <= s <= Z.max 0 2.
Proof.
  apply (search_stays_in_region opt_small
           (repeat 0 1 ++ bare_packet 1 ++ bare_packet 2) 2 376
           (Resynchronizer_new false) opt_small_ok).
  - lia.
  - apply Z.leb_le. vm_compute. reflexivity.
  - lia.
  - vm_compute. lia.
Defined.

(** ** More on readData *)

Lemma slice_stored (m bs : list Z) (p : Z) :
  0 <= p <= len m ->
  slice (firstn (Z.to_nat p) m ++ bs ++ skipn (Z.to_nat (p + len bs)) m)
    p (len bs) = bs.
Proof.
  intros Hp.
  assert (Ha : len (firstn (Z.to_nat p) m) = p) by (apply len_firstn; lia).
  set (a := firstn (Z.to_nat p) m) in *.
  set (c := skipn (Z.to_nat (p + len bs)) m).
  replace p with (p + 0) by lia.
  rewrite slice_app_r by (try exact Ha; lia).
  rewrite slice_app_l by (pose proof (len_nonneg bs); lia).
  unfold slice. cbn [Z.to_nat skipn]. apply firstn_all2.
  unfold len. lia.
Qed.

(** X6. readData returns all of the requested size or nothing, never a
    partial count. With all of it, the bytes are the next bytes of the
    source, now in the buffer at [buf], and the status is untouched. With
    nothing, for a positive size, the status is RS_EOF and the stream has
    failed. In both cases the buffer keeps its size and what it held
    before [buf]. *)
Theorem readData_all_or_nothing
    (r r' : Resynchronizer) (m m' : list Z) (cin cin' : istream)
    (buf size n : Z) :
  0 <= buf -> 0 <= size < 2 ^ 63 ->
  readData r m cin buf size = Ret (n, r', m', cin') ->
  len m' = len m
  /\ firstn (Z.to_nat buf) m' = firstn (Z.to_nat buf) m
  /\ ((size = 0 /\ n = 0 /\ r' = r /\ m' = m /\ cin' = cin)
      \/ (0 < size /\ n = size /\ r' = r
          /\ slice m' buf size = firstn (Z.to_nat size) (in_data cin)
          /\ in_data cin' = skipn (Z.to_nat size) (in_data cin)
          /\ in_fail cin' = false)
      \/ (0 < size /\ n = 0 /\ r' = setStatus r RS_EOF
          /\ in_fail cin' = true)).
Proof.
  intros Hbuf Hsize Hrun.
  destruct (readData_Ret _ _ _ _ _ _ _ _ _ Hrun) as (_ & _ & Hlen & Hpre).
  split; [exact Hlen |]. split; [apply Hpre; exact Hbuf |].
  rewrite readData_unfold, to_streamsize_small in Hrun by lia.
  destruct (0 <? size) eqn:E.
  - apply Z.ltb_lt in E.
    destruct (istream_read cin size) as [[chars ok] cin1] eqn:Hread.
    destruct (store_range m buf chars) as [m1 | | |] eqn:Hst;
      cbn [bind] in Hrun; try discriminate.
    apply store_range_Ret in Hst.
    destruct Hst as (_ & Hin & _ & _ & Hm1).
    destruct ok; injection Hrun as <- <- <- <-.
    + right. left.
      apply istream_read_ok in Hread; [| lia].
      destruct Hread as (Hd & Hc & Hchars & Hcin).
      split; [exact E |].
      split; [apply wrap_small; rewrite SIZE_MOD_eq; lia |].
      split; [reflexivity |].
      split; [| rewrite Hcin; auto].
      rewrite Hm1, <- Hchars, <- Hc. apply slice_stored.
      pose proof (len_nonneg chars). lia.
    + right. right. repeat split; try assumption.
      unfold istream_read in Hread.
      destruct (in_fail cin || in_eofbit cin);
        [injection Hread as _ <-; reflexivity |].
      destruct (size <=? len (in_data cin)); [discriminate |].
      injection Hread as _ <-. reflexivity.
  - apply Z.ltb_ge in E. injection Hrun as <- <- <- <-.
    left. repeat split. lia.
Qed.

Lemma readData_all_or_nothing_witness :
  exists n r' m' cin',
    readData (Resynchronizer_new false) (ByteBlock 10)
      (stdin_of [1; 2; 3; 4; 5] EndOfFile) 2 4 = Ret (n, r', m', cin')
    /\ len m' = len (ByteBlock 10)
    /\ firstn (Z.to_nat 2) m' = firstn (Z.to_nat 2) (ByteBlock 10)
    /\ ((4 = 0 /\ n = 0 /\ r' = Resynchronizer_new false
         /\ m' = ByteBlock 10 /\ cin' = stdin_of [1; 2; 3; 4; 5] EndOfFile)
        \/ (0 < 4 /\ n = 4 /\ r' = Resynchronizer_new false
            /\ slice m' 2 4
               = firstn (Z.to_nat 4)
                   (in_data (stdin_of [1; 2; 3; 4; 5] EndOfFile))
            /\ in_data cin'
               = skipn (Z.to_nat 4)
                   (in_data (stdin_of [1; 2; 3; 4; 5] EndOfFile))
            /\ in_fail cin' = false)
        \/ (0 < 4 /\ n = 0
            /\ r' = setStatus (Resynchronizer_new false) RS_EOF
            /\ in_fail cin' = true)).
Proof.
  do 4 eexists. split; [vm_compute; reflexivity |].
  apply (readData_all_or_nothing (Resynchronizer_new false) _
           (ByteBlock 10) _ (stdin_of [1; 2; 3; 4; 5] EndOfFile) _ 2 4).
  - lia.
  - lia.
  - vm_compute. reflexivity.
Defined.

(** X7. When the source holds fewer bytes than requested, readData
    returns 0 and sets RS_EOF although it has moved the bytes of the
    source into the buffer; the stream is left empty and failed, so that
    every later readData of a positive size returns 0 with RS_EOF and
    leaves the buffer as it is: the bytes are never counted. *)
Theorem readData_short_source_is_lost
    (r : Resynchronizer) (m : list Z) (data : list Z) (k : end_kind)
    (buf size : Z) :
  0 < size < 2 ^ 63 ->
  len data < size ->
  0 <= buf -> buf + len data <= len m ->
  exists m' cin',
    readData r m (stdin_of data k) buf size
    = Ret (0, setStatus r RS_EOF, m', cin')
    /\ slice m' buf (len data) = data
    /\ in_data cin' = []
    /\ forall r2 m2 buf2 size2,
         0 < size2 < 2 ^ 63 -> 0 <= buf2 <= len m2 ->
         readData r2 m2 cin' buf2 size2
         = Ret (0, setStatus r2 RS_EOF, m2, cin').
Proof.
  intros Hsize Hshort Hbuf Hin.
  pose proof (len_nonneg data) as Hd.
  rewrite readData_unfold, to_streamsize_small by lia.
  replace (0 <? size) with true by (symmetry; apply Z.ltb_lt; lia).
  unfold istream_read, stdin_of.
  cbn [in_fail in_eofbit in_data in_end orb].
  replace (size <=? len data) with false by (symmetry; apply Z.leb_gt; lia).
  rewrite store_range_in by lia. cbn [bind].
  do 2 eexists. split; [reflexivity |].
  split; [apply slice_stored; lia |].
  split; [reflexivity |].
  intros r2 m2 buf2 size2 Hs2 Hb2.
  rewrite readData_unfold, to_streamsize_small by lia.
  replace (0 <? size2) with true by (symmetry; apply Z.ltb_lt; lia).
  unfold istream_read. cbn [in_fail in_eofbit orb].
  rewrite store_range_nil by lia. cbn [bind]. reflexivity.
Qed.

Lemma readData_short_source_is_lost_witness :
  exists m' cin',
    readData (Resynchronizer_new false) (ByteBlock 10)
      (stdin_of [1; 2; 3] EndOfFile) 0 10
    = Ret (0, setStatus (Resynchronizer_new false) RS_EOF, m', cin')
    /\ slice m' 0 (len [1; 2; 3]) = [1; 2; 3]
    /\ in_data cin' = []
    /\ forall r2 m2 buf2 size2,
         0 < size2 < 2 ^ 63 -> 0 <= buf2 <= len m2 ->
         readData r2 m2 cin' buf2 size2
         = Ret (0, setStatus r2 RS_EOF, m2, cin').
Proof.
  apply (readData_short_source_is_lost (Resynchronizer_new false)
           (ByteBlock 10) [1; 2; 3] EndOfFile 0 10).
  - lia.
  - vm_compute. reflexivity.
  - lia.
  - vm_compute. discriminate.
Defined.

(** ** Inputs shorter than the buffer *)

Lemma first_candidate (opt : Options) :
  exists c after, candidates opt = [] ++ c :: after.
Proof.
  unfold candidates. destruct (0 <? packet_size opt); do 2 eexists;
    reflexivity.
Qed.

Lemma drain_loop_nothing (fuel : nat) (r : Resynchronizer) (m : list Z)
    (cout : ostream) (start sync_end : Z) :
  sync_end - inputPacketSize r < start ->
  drain_loop fuel r m cout start sync_end = Ret (start, r, cout).
Proof.
  intros H. apply Z.leb_gt in H. destruct fuel; simpl; now rewrite H.
Qed.

(** X8. An input that holds fewer bytes than the buffer (search window
    plus verification window), the empty input among them, is read as if
    it were empty: the run writes nothing, ends its first pass with the
    status RS_EOF and exits with success. *)
Theorem short_input_is_success
    (opt : Options) (data : list Z) (k : end_kind) (cout : ostream)
    (fuel : nat) :
  options_ok opt ->
  len data < sync_size opt + contig_size opt ->
  exists e,
    run (S fuel) opt (stdin_of data k) cout = Ret e
    /\ status (resync e) = RS_EOF
    /\ exit_status (resync e) = EXIT_SUCCESS
    /\ e_cout e = cout
    /\ outputFileBytes (resync e) = 0
    /\ in_data (e_cin e) = [].
Proof.
  intros Hopt Hshort.
  destruct (options_ok_buffer opt Hopt) as (Hadd & Hb & Hc & Hs).
  pose proof (len_nonneg data) as Hd.
  set (b := sync_size opt + contig_size opt) in *.
  assert (Hm : len (ByteBlock b) = b) by (apply ByteBlock_len; lia).
  unfold run, engine_init. rewrite Hadd.
  cbn [main_loop]. unfold pass.
  cbn [resync sync_buf sync_pre_size e_cin e_cout].
  rewrite Hm, sz_sub_small by (rewrite SIZE_MOD_eq; lia).
  rewrite Z.sub_0_r, !Z.add_0_l.
  set (r0 := reset (Resynchronizer_new (keep opt))).
  assert (Hread : exists m' cin',
             readData r0 (ByteBlock b) (stdin_of data k) 0 b
             = Ret (0, setStatus r0 RS_EOF, m', cin')
             /\ in_data cin' = []).
  { rewrite readData_unfold, to_streamsize_small by lia.
    replace (0 <? b) with true by (symmetry; apply Z.ltb_lt; lia).
    unfold istream_read, stdin_of.
    cbn [in_fail in_eofbit in_data in_end orb].
    replace (b <=? len data) with false by (symmetry; apply Z.leb_gt; lia).
    rewrite store_range_in by lia. cbn [bind].
    do 2 eexists. split; reflexivity. }
  destruct Hread as (m' & cin' & Hread & Hempty).
  rewrite Hread. cbn [bind].
  change (sz_add 0 0) with 0.
  rewrite ?Z.min_r by lia.
  change (0 + 0 - 0 + 1) with 1. change (0 + 0) with 0.
  destruct (first_candidate opt) as (c & after & Hcand).
  assert (Hin : In c (candidates opt)) by (rewrite Hcand; left; reflexivity).
  destruct (options_ok_candidates opt c Hopt Hin) as [Hh Hp].
  rewrite (search_loop_first opt (setStatus r0 RS_EOF) m' 1 0 [] after c);
    [| lia | exact Hcand | intros c' [] |].
  2: { apply checkSync_found; [exact Hh | exact Hp |].
       intros i Hi Hir. exfalso. unfold PKT_SIZE in Hp. nia. }
  cbn [bind inputPacketSize confirmed _in_pkt_size].
  replace (fst c =? 0) with false
    by (symmetry; apply Z.eqb_neq; unfold PKT_SIZE in Hp; lia).
  rewrite drain_loop_nothing
    by (cbn [inputPacketSize confirmed _in_pkt_size];
        unfold PKT_SIZE in Hp; lia).
  cbn [bind]. eexists. split; [reflexivity |].
  cbn. auto.
Qed.

Lemma short_input_is_success_witness :
  exists e,
    run 1 opt_small (stdin_of (bare_packet 1 ++ bare_packet 2) EndOfFile)
      stdout_new = Ret e
    /\ status (resync e) = RS_EOF
    /\ exit_status (resync e) = EXIT_SUCCESS
    /\ e_cout e = stdout_new
    /\ outputFileBytes (resync e) = 0
    /\ in_data (e_cin e) = [].
Proof.
  apply (short_input_is_success opt_small (bare_packet 1 ++ bare_packet 2)
           EndOfFile stdout_new 0).
  - exact opt_small_ok.
  - apply Z.ltb_lt. vm_compute. reflexivity.
Defined.

(** ** An explicit packet size and the size of the buffer *)

Lemma pinned_candidates (opt : Options) :
  0 < packet_size opt ->
  candidates opt = [] ++ (packet_size opt, header_size opt) :: [].
Proof.
  intros H. unfold candidates.
  replace (0 <? packet_size opt) with true by (symmetry; now apply Z.ltb_lt).
  reflexivity.
Qed.

(** A packet larger than the region makes the test of checkSync vacuous. *)
Lemma all_markers_vacuous (m : list Z) (buf buf_size pkt_size header_size : Z) :
  0 <= buf_size < pkt_size ->
  all_markers m buf buf_size pkt_size header_size.
Proof. intros H k Hk Hfit. exfalso. nia. Qed.

(** X9. A packet size given with --packet-size that exceeds the size of
    the buffer (search window plus verification window) makes the program
    write outside the buffer: on any input longer than the buffer the
    framing is confirmed unverified at offset 0, no packet fits the
    buffer, and the first read of the per-packet loop stores the bytes
    that follow past the end of the buffer. *)
Theorem oversize_packet_overruns_buffer
    (opt : Options) (data : list Z) (k : end_kind) (cout : ostream)
    (fuel : nat) :
  options_ok opt ->
  sync_size opt + contig_size opt < packet_size opt ->
  sync_size opt + contig_size opt < len data ->
  run (S (S fuel)) opt (stdin_of data k) cout = Undefined.
Proof.
  intros Hopt Hbig Hlong.
  destruct (options_ok_buffer opt Hopt) as (Hadd & Hb & Hc & Hs).
  remember (sync_size opt + contig_size opt) as b eqn:Hbdef.
  assert (Hm : len (ByteBlock b) = b) by (apply ByteBlock_len; lia).
  assert (Hcand := pinned_candidates opt ltac:(lia)).
  assert (Hin : In (packet_size opt, header_size opt) (candidates opt))
    by (rewrite Hcand; left; reflexivity).
  destruct (options_ok_candidates opt _ Hopt Hin) as [Hh Hp].
  cbn [fst snd] in Hh, Hp. rewrite SIZE_MOD_eq in Hp.
  assert (Hp31 : packet_size opt <= 0x7FFFFFFF)
    by (destruct Hopt as (_ & _ & [H0 | (_ & _ & H1)]); lia).
  unfold run, engine_init. rewrite Hadd.
  cbn [main_loop]. unfold pass.
  cbn [resync sync_buf sync_pre_size e_cin e_cout].
  rewrite Hm, sz_sub_small by (rewrite SIZE_MOD_eq; lia).
  rewrite Z.sub_0_r, !Z.add_0_l.
  rewrite readData_full by (cbn [stdin_of in_fail in_eofbit in_data]; lia).
  cbn [bind stdin_of in_data in_end].
  rewrite sz_add_small by (rewrite SIZE_MOD_eq; lia).
  rewrite !Z.add_0_l, Z.min_l by lia.
  set (r0 := reset (Resynchronizer_new (keep opt))).
  set (m1 := firstn (Z.to_nat 0) (ByteBlock b) ++ _).
  assert (Hm1 : len m1 = b).
  { unfold m1. rewrite !len_app, len_firstn by lia.
    rewrite len_firstn, len_skipn by lia. lia. }
  rewrite (search_loop_first opt r0 m1 (b - contig_size opt + 1)
             (contig_size opt) [] [] (packet_size opt, header_size opt));
    [| lia | exact Hcand | intros c' [] |].
  2: { apply checkSync_found; [exact Hh | exact Hp |].
       apply all_markers_vacuous. cbn [fst]. lia. }
  cbn [bind fst snd inputPacketSize confirmed _in_pkt_size].
  replace (packet_size opt =? 0) with false
    by (symmetry; apply Z.eqb_neq; lia).
  rewrite drain_loop_nothing
    by (cbn [inputPacketSize confirmed _in_pkt_size]; lia).
  cbn [bind status confirmed _status r0 reset Status_eqb negb].
  unfold after_drain. cbn [sync_buf resync e_cin e_cout].
  rewrite compact_in by (rewrite ?SIZE_MOD_eq; lia).
  cbn [bind inputPacketSize confirmed _in_pkt_size].
  replace (b - 0 >=? packet_size opt) with false
    by (symmetry; rewrite Z.geb_leb; apply Z.leb_gt; lia).
  cbn [steady_loop resync status confirmed _status r0 reset Status_eqb].
  unfold steady_body.
  cbn [resync sync_pre_size sync_buf e_cin e_cout inputPacketSize confirmed
       _in_pkt_size].
  replace (b - 0 <? packet_size opt) with true
    by (symmetry; apply Z.ltb_lt; lia).
  cbn [negb].
  rewrite sz_sub_small by (rewrite SIZE_MOD_eq; lia).
  rewrite readData_unfold, to_streamsize_small by lia.
  replace (0 <? packet_size opt - (b - 0)) with true
    by (symmetry; apply Z.ltb_lt; lia).
  unfold istream_read. cbn [in_fail in_eofbit in_data in_end orb].
  assert (Hrest : len (skipn (Z.to_nat b) data) = len data - b)
    by (apply len_skipn; lia).
  set (m2 := slice m1 0 (b - 0) ++ skipn (Z.to_nat (b - 0)) m1).
  assert (Hm2 : len m2 = b).
  { unfold m2. rewrite len_app, len_slice, len_skipn by lia. lia. }
  assert (Hover : forall chars, 0 < len chars ->
             store_range m2 (0 + (b - 0)) chars = Undefined).
  { intros chars Hch. unfold store_range.
    replace (0 + (b - 0) + len chars <=? len m2) with false
      by (symmetry; apply Z.leb_gt; lia).
    rewrite andb_false_r. reflexivity. }
  destruct (packet_size opt - (b - 0) <=? len (skipn (Z.to_nat b) data))
    eqn:E.
  - apply Z.leb_le in E. rewrite Hover; [reflexivity |].
    rewrite len_firstn by lia. lia.
  - rewrite Hover; [reflexivity | lia].
Qed.

Lemma oversize_packet_overruns_buffer_witness :
  run 2 opt_packet_2000 (stdin_of (repeat 0 1401) EndOfFile) stdout_new
  = Undefined.
Proof.
  apply (oversize_packet_overruns_buffer opt_packet_2000 (repeat 0 1401)
           EndOfFile stdout_new 0).
  - unfold options_ok, opt_packet_2000, MIN_SYNC_SIZE, MAX_SYNC_SIZE,
      MIN_CONTIG_SIZE, MAX_CONTIG_SIZE, PKT_SIZE. simpl. lia.
  - reflexivity.
  - reflexivity.
Defined.

Lemma slice_whole (m : list Z) (n : Z) :
  slice m 0 n ++ skipn (Z.to_nat n) m = m.
Proof. unfold slice. cbn [Z.to_nat skipn]. apply firstn_skipn. Qed.

(** One pass with an explicit format whose packet is larger than the
    verification window, on a full buffer [m1] that lacks the marker byte
    at the header offset: the framing is confirmed unverified at offset 0,
    nothing is written, and the whole buffer is kept for the next pass. *)
Lemma pass_unverified (opt : Options) (e : engine) (f : nat)
    (m1 : list Z) (cin1 : istream) (n : Z) :
  options_ok opt ->
  contig_size opt < packet_size opt <= sync_size opt + contig_size opt ->
  readData (reset (resync e)) (sync_buf e) (e_cin e) (0 + sync_pre_size e)
    (sz_sub (len (sync_buf e)) (sync_pre_size e))
  = Ret (n, reset (resync e), m1, cin1) ->
  sz_add (sync_pre_size e) n = sync_size opt + contig_size opt ->
  len m1 = sync_size opt + contig_size opt ->
  nth (Z.to_nat (header_size opt)) m1 0 <> SYNC_BYTE ->
  pass f opt e
  = Ret (false,
         {| resync := setStatus (confirmed (reset (resync e))
                                   (packet_size opt) (header_size opt))
                        RS_SYNC_LOST;
            sync_buf := m1;
            sync_pre_size := sync_size opt + contig_size opt;
            e_cin := cin1; e_cout := e_cout e |}).
Proof.
  intros Hopt Hbig Hread Hsize Hm1 Hno.
  destruct (options_ok_buffer opt Hopt) as (Hadd & Hb & Hc & Hs).
  remember (sync_size opt + contig_size opt) as b eqn:Hbdef.
  assert (Hcand := pinned_candidates opt ltac:(lia)).
  assert (Hin : In (packet_size opt, header_size opt) (candidates opt))
    by (rewrite Hcand; left; reflexivity).
  destruct (options_ok_candidates opt _ Hopt Hin) as [Hh Hp].
  cbn [fst snd] in Hh, Hp. rewrite SIZE_MOD_eq in Hp.
  unfold pass. rewrite Hread. cbn [bind]. rewrite Hsize.
  rewrite !Z.add_0_l, Z.min_l by lia.
  set (r0 := reset (resync e)).
  rewrite (search_loop_first opt r0 m1 (b - contig_size opt + 1)
             (contig_size opt) [] [] (packet_size opt, header_size opt));
    [| lia | exact Hcand | intros c' [] |].
  2: { apply checkSync_found; [exact Hh | rewrite SIZE_MOD_eq; exact Hp |].
       apply all_markers_vacuous. cbn [fst]. lia. }
  cbn [bind fst snd inputPacketSize confirmed _in_pkt_size].
  replace (packet_size opt =? 0) with false
    by (symmetry; apply Z.eqb_neq; lia).
  assert (Hdrain : forall fuel,
             drain_loop fuel
               (confirmed r0 (packet_size opt) (header_size opt)) m1
               (e_cout e) 0 b
             = Ret (0, confirmed r0 (packet_size opt) (header_size opt),
                    e_cout e)).
  { intros fuel.
    assert (Hload : load m1 (0 + header_size opt)
                    = Ret (nth (Z.to_nat (header_size opt)) m1 0))
      by (rewrite Z.add_0_l; apply load_in; unfold PKT_SIZE in Hp; lia).
    destruct fuel; cbn [drain_loop inputPacketSize inputHeaderSize confirmed
                        _in_pkt_size _in_header_size];
      replace (0 <=? b - packet_size opt) with true
        by (symmetry; apply Z.leb_le; lia);
      rewrite Hload; cbn [bind];
      replace (nth (Z.to_nat (header_size opt)) m1 0 =? SYNC_BYTE) with false
        by (symmetry; apply Z.eqb_neq; exact Hno);
      reflexivity. }
  rewrite Z.sub_0_r, Hdrain.
  cbn [bind status confirmed _status r0 reset Status_eqb negb].
  unfold after_drain. cbn [sync_buf resync e_cin e_cout].
  rewrite compact_in by (rewrite ?SIZE_MOD_eq; lia).
  cbn [bind inputPacketSize confirmed _in_pkt_size].
  rewrite Z.sub_0_r, slice_whole.
  replace (b >=? packet_size opt) with true
    by (symmetry; rewrite Z.geb_leb; apply Z.leb_le; lia).
  destruct f; reflexivity.
Qed.

(** X10. With --continue and a packet size given with --packet-size that
    exceeds the verification window and fits the buffer, the program does
    not end on an input that fills the buffer and lacks the marker byte at
    the header offset: after the first pass the buffer stays full, every
    further pass reads nothing, confirms the framing unverified at offset
    0, writes nothing and comes back to the same state with the status
    RS_SYNC_LOST, so the [do] loop runs for ever. *)
Theorem unverified_framing_never_ends
    (opt : Options) (data : list Z) (k : end_kind) (cout : ostream) :
  options_ok opt ->
  cont_sync opt = true ->
  contig_size opt < packet_size opt <= sync_size opt + contig_size opt ->
  sync_size opt + contig_size opt <= len data ->
  nth (Z.to_nat (header_size opt)) data 0 <> SYNC_BYTE ->
  exists e,
    (forall f, pass f opt (engine_init opt (stdin_of data k) cout)
               = Ret (false, e))
    /\ (forall f, pass f opt e = Ret (false, e))
    /\ status (resync e) = RS_SYNC_LOST
    /\ e_cout e = cout
    /\ forall fuel, run fuel opt (stdin_of data k) cout = OutOfFuel.
Proof.
  intros Hopt Hcont Hbig Hlong Hno.
  destruct (options_ok_buffer opt Hopt) as (Hadd & Hb & Hc & Hs).
  remember (sync_size opt + contig_size opt) as b eqn:Hbdef.
  assert (Hm : len (ByteBlock b) = b) by (apply ByteBlock_len; lia).
  assert (Hcand := pinned_candidates opt ltac:(lia)).
  assert (Hin : In (packet_size opt, header_size opt) (candidates opt))
    by (rewrite Hcand; left; reflexivity).
  destruct (options_ok_candidates opt _ Hopt Hin) as [Hh Hp].
  cbn [fst snd] in Hh, Hp. unfold PKT_SIZE in Hp.
  set (e0 := engine_init opt (stdin_of data k) cout).
  set (m1 := firstn (Z.to_nat b) data ++ skipn (Z.to_nat b) (ByteBlock b)).
  set (cin1 := {| in_data := skipn (Z.to_nat b) data; in_end := k;
                  in_eofbit := false; in_badbit := false;
                  in_fail := false |}).
  set (e1 := {| resync := setStatus
                            (confirmed (reset (resync e0))
                               (packet_size opt) (header_size opt))
                            RS_SYNC_LOST;
                sync_buf := m1; sync_pre_size := b;
                e_cin := cin1; e_cout := cout |}).
  assert (Hm1 : len m1 = b).
  { unfold m1. rewrite len_app, len_firstn, len_skipn by lia. lia. }
  assert (Hnth : nth (Z.to_nat (header_size opt)) m1 0 <> SYNC_BYTE).
  { unfold m1. rewrite app_nth1.
    - rewrite nth_firstn.
      replace (Z.to_nat (header_size opt) <? Z.to_nat b)%nat with true
        by (symmetry; apply Nat.ltb_lt; lia).
      exact Hno.
    - apply Nat2Z.inj_lt. fold (len (firstn (Z.to_nat b) data)).
      rewrite len_firstn by lia. lia. }
  assert (Hfirst : forall f, pass f opt e0 = Ret (false, e1)).
  { intros f.
    pose proof (pass_unverified opt e0 f m1 cin1 b Hopt) as H.
    rewrite <- Hbdef in H. apply H; clear H.
    - lia.
    - unfold e0, engine_init. rewrite Hadd.
      cbn [resync sync_buf sync_pre_size e_cin e_cout].
      rewrite Hm, sz_sub_small by (rewrite SIZE_MOD_eq; lia).
      rewrite Z.sub_0_r, readData_full
        by (cbn [stdin_of in_fail in_eofbit in_data]; lia).
      reflexivity.
    - unfold e0, engine_init. cbn [sync_pre_size].
      apply sz_add_small. rewrite SIZE_MOD_eq. lia.
    - exact Hm1.
    - exact Hnth. }
  assert (Hstuck : forall f, pass f opt e1 = Ret (false, e1)).
  { intros f.
    pose proof (pass_unverified opt e1 f m1 cin1 0 Hopt) as H.
    rewrite <- Hbdef in H. apply H; clear H.
    - lia.
    - unfold e1. cbn [resync sync_buf sync_pre_size e_cin e_cout].
      rewrite Hm1. unfold sz_sub. rewrite Z.sub_diag.
      rewrite readData_unfold. reflexivity.
    - unfold e1. cbn [sync_pre_size].
      rewrite sz_add_small by (rewrite SIZE_MOD_eq; lia). lia.
    - exact Hm1.
    - exact Hnth. }
  exists e1. split; [exact Hfirst |]. split; [exact Hstuck |].
  split; [reflexivity |]. split; [reflexivity |].
  assert (Hloop : forall fuel, main_loop fuel opt e1 = OutOfFuel).
  { induction fuel as [| fuel IH]; [reflexivity |].
    cbn [main_loop]. rewrite Hstuck. cbn [bind].
    unfold e1 at 1 2.
    cbn [resync status setStatus _status Status_eqb orb andb].
    rewrite Hcont. exact IH. }
  intros [| fuel]; [reflexivity |].
  unfold run. fold e0. cbn [main_loop]. rewrite Hfirst. cbn [bind].
  unfold e1 at 1 2.
  cbn [resync status setStatus _status Status_eqb orb andb].
  rewrite Hcont. apply Hloop.
Qed.

Lemma unverified_framing_never_ends_witness :
  exists e,
    (forall f,
        pass f opt_packet_1000_continue
          (engine_init opt_packet_1000_continue
             (stdin_of (repeat 0 1400) EndOfFile) stdout_new)
        = Ret (false, e))
    /\ (forall f, pass f opt_packet_1000_continue e = Ret (false, e))
    /\ status (resync e) = RS_SYNC_LOST
    /\ e_cout e = stdout_new
    /\ forall fuel,
         run fuel opt_packet_1000_continue
           (stdin_of (repeat 0 1400) EndOfFile) stdout_new = OutOfFuel.
Proof.
  apply (unverified_framing_never_ends opt_packet_1000_continue
           (repeat 0 1400) EndOfFile stdout_new).
  - unfold options_ok, opt_packet_1000_continue, MIN_SYNC_SIZE,
      MAX_SYNC_SIZE, MIN_CONTIG_SIZE, MAX_CONTIG_SIZE, PKT_SIZE. simpl. lia.
  - reflexivity.
  - simpl. lia.
  - apply Z.leb_le. reflexivity.
  - discriminate.
Defined.

(** ** Safety and termination *)

Lemma framed_same (opt : Options) (r r' : Resynchronizer) :
  framed opt r -> same_framing r r' -> framed opt r'.
Proof.
  intros (c & Hc & H1 & H2 & H3 & H4) (S1 & S2 & S3 & S4 & S5).
  exists c. rewrite S1, S2, S3, S4, S5. auto.
Qed.

Lemma framed_confirmed (opt : Options) (r : Resynchronizer) (c : Z * Z) :
  In c (candidates opt) -> framed opt (confirmed r (fst c) (snd c)).
Proof. intros Hc. exists c. simpl. auto. Qed.

(** readData returns whenever the destination lies in the buffer: with
    all the bytes asked for, or with none and the status RS_EOF. *)
Lemma readData_total (r : Resynchronizer) (m : list Z) (cin : istream)
    (buf size : Z) :
  0 <= size < 2 ^ 63 -> 0 <= buf -> buf + size <= len m ->
  exists n r' m' cin',
    readData r m cin buf size = Ret (n, r', m', cin')
    /\ len m' = len m
    /\ ((n = size /\ r' = r
         /\ len (in_data cin') = len (in_data cin) - size)
        \/ (n = 0 /\ 0 < size /\ r' = setStatus r RS_EOF
            /\ len (in_data cin') <= len (in_data cin))).
Proof.
  intros Hsize Hbuf Hfit.
  pose proof (len_nonneg (in_data cin)) as Hd.
  rewrite readData_unfold, to_streamsize_small by lia.
  destruct (0 <? size) eqn:E.
  2: { apply Z.ltb_ge in E. do 4 eexists. split; [reflexivity |].
       split; [reflexivity |]. left. repeat split; lia. }
  apply Z.ltb_lt in E.
  unfold istream_read.
  destruct (in_fail cin || in_eofbit cin).
  - rewrite store_range_in by (cbn; lia). cbn [bind].
    do 4 eexists. split; [reflexivity |]. split.
    + cbn [len length app]. rewrite !len_app, len_firstn, len_skipn
        by (cbn; lia). cbn. lia.
    + right. cbn [in_data]. repeat split; lia.
  - destruct (size <=? len (in_data cin)) eqn:E2.
    + apply Z.leb_le in E2.
      assert (Hl : len (firstn (Z.to_nat size) (in_data cin)) = size)
        by (apply len_firstn; lia).
      rewrite store_range_in by lia. cbn [bind].
      rewrite wrap_small by (rewrite SIZE_MOD_eq; lia).
      do 4 eexists. split; [reflexivity |]. split.
      * rewrite !len_app, Hl, len_firstn, len_skipn by lia. lia.
      * left. cbn [in_data]. rewrite len_skipn by lia. auto.
    + apply Z.leb_gt in E2.
      rewrite store_range_in by lia. cbn [bind].
      do 4 eexists. split; [reflexivity |]. split.
      * rewrite !len_app, len_firstn, len_skipn by lia. lia.
      * right. cbn [in_data]. cbn. repeat split; lia.
Qed.

(** writePacket returns whenever the input packet lies in the buffer. *)
Lemma writePacket_total (opt : Options) (r : Resynchronizer) (m : list Z)
    (cout : ostream) (p : Z) :
  options_ok opt -> framed opt r ->
  0 <= p -> p + _in_pkt_size r <= len m ->
  exists ok r' cout',
    writePacket r m cout p = Ret (ok, r', cout')
    /\ same_framing r r'
    /\ status r' = (if ok then status r else RS_ERROR).
Proof.
  intros Hopt (c & Hc & H1 & H2 & H3 & H4) Hp Hfit.
  destruct (options_ok_candidates opt c Hopt Hc) as [Hh Hpk].
  unfold writePacket.
  rewrite load_range_in.
  - cbn [bind]. destruct (ostream_write cout _) as [[|] cout'].
    + do 3 eexists. split; [reflexivity |].
      split; [unfold same_framing; simpl; auto | reflexivity].
    + do 3 eexists. split; [reflexivity |].
      split; [apply same_framing_setStatus | reflexivity].
  - rewrite H2, H4. destruct (_keep_packet_size r); lia.
  - rewrite H3. destruct (_keep_packet_size r); unfold PKT_SIZE in *; lia.
  - rewrite H1 in Hfit. rewrite H2, H3, H4.
    destruct (_keep_packet_size r); unfold PKT_SIZE in *; lia.
Qed.

(** The drain returns; it does not move backwards nor past the end of
    the data, and it writes the packet it starts on when that packet is
    complete and carries the marker byte. *)
Lemma drain_loop_total (opt : Options) (m : list Z) (sync_end : Z) :
  options_ok opt -> sync_end <= len m ->
  forall (fuel : nat) (r : Resynchronizer) (cout : ostream) (start : Z),
    framed opt r -> 0 <= start ->
    (Z.to_nat (sync_end - start) <= fuel)%nat ->
    exists start' r' cout',
      drain_loop fuel r m cout start sync_end = Ret (start', r', cout')
      /\ same_framing r r'
      /\ start <= start' /\ (start' <= sync_end \/ start' = start)
      /\ (status r' = status r \/ status r' = RS_ERROR)
      /\ (status r' = RS_OK -> start <= sync_end - inputPacketSize r ->
          load m (start + inputHeaderSize r) = Ret SYNC_BYTE ->
          start + inputPacketSize r <= start').
Proof.
  intros Hopt Hend.
  induction fuel as [| fuel IH]; intros r cout start Hfr Hstart Hfuel;
    pose proof Hfr as (c & Hc & H1 & H2 & H3 & H4);
    destruct (options_ok_candidates opt c Hopt Hc) as [Hh Hpk];
    unfold PKT_SIZE in Hpk; cbn [drain_loop];
    unfold inputPacketSize, inputHeaderSize in *.
  - replace (start <=? sync_end - _in_pkt_size r) with false
      by (symmetry; apply Z.leb_gt; lia).
    do 3 eexists. split; [reflexivity |].
    split; [apply same_framing_refl |].
    repeat split; auto; lia.
  - destruct (start <=? sync_end - _in_pkt_size r) eqn:E.
    2: { apply Z.leb_gt in E. do 3 eexists. split; [reflexivity |].
         split; [apply same_framing_refl |].
         repeat split; auto; lia. }
    apply Z.leb_le in E.
    rewrite load_in by lia. cbn [bind].
    destruct (nth (Z.to_nat (start + _in_header_size r)) m 0 =? SYNC_BYTE)
      eqn:Eb.
    2: { apply Z.eqb_neq in Eb. do 3 eexists. split; [reflexivity |].
         split; [apply same_framing_refl |].
         split; [lia |]. split; [lia |]. split; [auto |].
         intros _ _ Hl. congruence. }
    destruct (writePacket_total opt r m cout start Hopt Hfr Hstart)
      as (ok & r1 & cout1 & Hw & Hsf & Hst); [lia |].
    rewrite Hw. cbn [bind]. destruct ok; cbn [negb].
    + pose proof Hsf as (S1 & S2 & S3 & S4 & S5).
      destruct (IH r1 cout1 (start + _in_pkt_size r1))
        as (s2 & r2 & cout2 & Hd & Hsf2 & Hle & Hor & Hst2 & _);
        [eapply framed_same; eassumption | lia | lia |].
      rewrite Hd. do 3 eexists. split; [reflexivity |].
      split; [eapply same_framing_trans; eassumption |].
      rewrite S2 in *.
      split; [lia |]. split; [lia |].
      split; [rewrite <- Hst; exact Hst2 |].
      intros _ _ _. lia.
    + do 3 eexists. split; [reflexivity |].
      split; [exact Hsf |].
      split; [lia |]. split; [lia |]. split; [auto |].
      intros Hok. rewrite Hst in Hok. discriminate.
Qed.

(** The search returns whenever the windows lie in the buffer: without
    a framing, or with a candidate confirmed at an offset where every
    complete packet of the verification window carries the marker byte. *)
Lemma search_loop_total (opt : Options) (m : list Z)
    (end_search search_size : Z) :
  options_ok opt ->
  0 <= search_size -> end_search + search_size - 1 <= len m ->
  forall (fuel : nat) (r : Resynchronizer) (start : Z),
    0 <= start ->
    (Z.to_nat (end_search - start) <= fuel)%nat ->
    exists s r' tried,
      search_loop fuel opt r m start end_search search_size
      = Ret (s, r', tried)
      /\ (r' = r
          \/ exists c,
               In c (candidates opt)
               /\ r' = confirmed r (fst c) (snd c)
               /\ start <= s < end_search
               /\ all_markers m s search_size (fst c) (snd c)).
Proof.
  intros Hopt Hss Hin.
  induction fuel as [| fuel IH]; intros r start Hstart Hfuel;
    cbn [search_loop].
  - replace (start <? end_search) with false
      by (symmetry; apply Z.ltb_ge; lia).
    do 3 eexists. split; [reflexivity | auto].
  - destruct (start <? end_search) eqn:E.
    2: { do 3 eexists. split; [reflexivity | auto]. }
    apply Z.ltb_lt in E.
    destruct (search_body_total opt m search_size r start Hopt)
      as (brk & r1 & tried1 & H1); [lia | lia |].
    rewrite H1. cbn [bind].
    destruct (search_body_spec opt r r1 m start search_size brk tried1
                Hopt H1)
      as [(-> & -> & _) | (-> & before & c & after & Hc & -> & Hall & _)].
    + destruct (IH r (start + 1)) as (s & r2 & tried2 & H2 & Hcase);
        [lia | lia |].
      rewrite H2. cbn [bind]. do 3 eexists. split; [reflexivity |].
      destruct Hcase as [-> | (c & Hc & -> & Hs & Hall)]; [auto |].
      right. exists c. repeat split; auto; lia.
    + do 3 eexists. split; [reflexivity |].
      right. exists c. repeat split; auto; try lia.
      rewrite Hc. apply in_or_app. right. left. reflexivity.
Qed.

Section Termination.

Variable opt : Options.
Hypothesis Hopt : options_ok opt.
Hypothesis Hfit : packet_size opt <= contig_size opt.

(** Every candidate packet fits the verification window. *)
Lemma candidates_fit (c : Z * Z) :
  In c (candidates opt) ->
  0 <= snd c /\ snd c + PKT_SIZE <= fst c <= contig_size opt
  /\ contig_size opt < sync_size opt + contig_size opt < 2 ^ 63.
Proof.
  intros Hc.
  destruct (options_ok_candidates opt c Hopt Hc) as [Hh Hp].
  destruct (options_ok_buffer opt Hopt) as (_ & Hb & _ & Hs).
  split; [exact Hh |]. split; [| lia].
  split; [lia |].
  destruct Hopt as (_ & Hcontig & _).
  unfold MIN_CONTIG_SIZE, PKT_SIZE in Hcontig.
  unfold candidates in Hc.
  destruct (0 <? packet_size opt).
  - destruct Hc as [<- | []]. exact Hfit.
  - unfold PKT_SIZE, PKT_RS_SIZE, PKT_M2TS_SIZE in Hc.
    destruct Hc as [<- | [<- | [<- | []]]]; cbn [fst]; lia.
Qed.

(** One iteration of the per-packet loop returns, and consumes input
    when it leaves the status RS_OK. *)
Lemma steady_body_total (e : engine) :
  steady_ready opt e -> status (resync e) = RS_OK ->
  exists e',
    steady_body e = Ret e'
    /\ steady_ready opt e'
    /\ len (in_data (e_cin e')) <= len (in_data (e_cin e))
    /\ (status (resync e') = RS_OK ->
        len (in_data (e_cin e')) < len (in_data (e_cin e))).
Proof.
  intros ((Hlen & Hpre) & Hfr & Hlt) Hok.
  specialize (Hlt Hok).
  pose proof Hfr as (c & Hc & H1 & H2 & H3 & H4).
  destruct (candidates_fit c Hc) as (Hh & Hp & Hb).
  unfold PKT_SIZE in Hp. unfold inputPacketSize in Hlt.
  unfold steady_body, inputPacketSize.
  replace (sync_pre_size e <? _in_pkt_size (resync e)) with true
    by (symmetry; apply Z.ltb_lt; exact Hlt).
  cbn [negb].
  rewrite sz_sub_small by (rewrite SIZE_MOD_eq; lia).
  destruct (readData_total (resync e) (sync_buf e) (e_cin e)
              (0 + sync_pre_size e)
              (_in_pkt_size (resync e) - sync_pre_size e))
    as (n & r1 & m1 & cin1 & Hread & Hm1 & Hcase); [lia | lia | lia |].
  rewrite Hread. cbn [bind].
  destruct Hcase as [(-> & -> & Hin) | (-> & Hpos & -> & Hin)].
  - rewrite Z.eqb_refl. cbn [negb]. unfold inputHeaderSize.
    rewrite load_in by lia. cbn [bind].
    destruct (nth (Z.to_nat (_in_header_size (resync e))) m1 0 =? SYNC_BYTE).
    + cbn [negb].
      destruct (writePacket_total opt (resync e) m1 (e_cout e) 0 Hopt Hfr)
        as (ok & r2 & cout2 & Hw & Hsf & Hst); [lia | lia |].
      rewrite Hw. cbn [bind]. eexists. split; [reflexivity |].
      pose proof Hsf as (S1 & S2 & S3 & S4 & S5).
      cbn [e_cin resync]. split; [| split; [lia | intros _; lia]].
      split; [split; cbn [sync_buf sync_pre_size]; lia |].
      split; [eapply framed_same; eassumption |].
      intros _. cbn [sync_pre_size resync]. unfold inputPacketSize. lia.
    + cbn [negb]. eexists. split; [reflexivity |].
      cbn [e_cin resync]. split; [| split; [lia | intros _; lia]].
      split; [split; cbn [sync_buf sync_pre_size inputPacketSize]; lia |].
      split; [eapply framed_same;
              [exact Hfr | apply same_framing_setStatus] |].
      intros Habs. discriminate Habs.
  - replace (0 =? _in_pkt_size (resync e) - sync_pre_size e) with false
      by (symmetry; apply Z.eqb_neq; lia).
    cbn [negb]. eexists. split; [reflexivity |].
    cbn [e_cin resync]. split; [| split; [lia | intros Habs; discriminate]].
    split; [split; cbn [sync_buf sync_pre_size]; lia |].
    split.
    + eapply framed_same; [| apply same_framing_setStatus].
      eapply framed_same; [exact Hfr | apply same_framing_setStatus].
    + intros Habs. discriminate Habs.
Qed.

(** The per-packet loop returns, with a status other than RS_OK, when
    the fuel exceeds the number of bytes left in the input. *)
Lemma steady_loop_total (fuel : nat) : forall e,
  steady_ready opt e ->
  len (in_data (e_cin e)) < Z.of_nat fuel ->
  exists e',
    steady_loop fuel e = Ret e'
    /\ steady_ready opt e'
    /\ status (resync e') <> RS_OK
    /\ len (in_data (e_cin e')) <= len (in_data (e_cin e)).
Proof.
  induction fuel as [| fuel IH]; intros e Hre Hfuel.
  - pose proof (len_nonneg (in_data (e_cin e))). lia.
  - destruct (Status_eqb (status (resync e)) RS_OK) eqn:Est.
    2: { exists e. split; [| split; [exact Hre | split; [| lia]]].
         - apply steady_loop_stop. intros Habs. rewrite Habs in Est.
           discriminate.
         - intros Habs. rewrite Habs in Est. discriminate. }
    apply Status_eqb_eq in Est.
    destruct (steady_body_total e Hre Est) as (e1 & Hb & Hre1 & Hle & Hlt).
    cbn [steady_loop]. rewrite Est. cbn [Status_eqb].
    rewrite Hb. cbn [bind].
    destruct (Status_eqb (status (resync e1)) RS_OK) eqn:Est1.
    + apply Status_eqb_eq in Est1. specialize (Hlt Est1).
      destruct (IH e1 Hre1) as (e2 & H2 & Hre2 & Hst2 & Hle2); [lia |].
      exists e2. repeat split; try assumption; try apply Hre2. lia.
    + assert (Hne : status (resync e1) <> RS_OK)
        by (intros Habs; rewrite Habs in Est1; discriminate).
      rewrite steady_loop_stop by exact Hne.
      exists e1. repeat split; try assumption; apply Hre1.
Qed.

(** One pass of the [do] loop returns; when the loop is not left by
    [break], the pass ends with a status other than RS_OK and has
    consumed input. *)
Lemma pass_total (fuel : nat) (e : engine) :
  pass_ready opt e ->
  len (in_data (e_cin e)) <= Z.of_nat fuel ->
  exists brk e',
    pass fuel opt e = Ret (brk, e')
    /\ (brk = false ->
        status (resync e') <> RS_OK
        /\ pass_ready opt e'
        /\ len (in_data (e_cin e')) < len (in_data (e_cin e))).
Proof.
  intros (Hlen & Hpre) Hfuel.
  destruct (options_ok_buffer opt Hopt) as (Hadd & Hb & Hc & Hs).
  remember (sync_size opt + contig_size opt) as b eqn:Hbdef.
  unfold pass. rewrite Hlen.
  rewrite sz_sub_small by (rewrite SIZE_MOD_eq; lia).
  set (r0 := reset (resync e)).
  destruct (readData_total r0 (sync_buf e) (e_cin e) (0 + sync_pre_size e)
              (b - sync_pre_size e))
    as (n & r1 & m1 & cin1 & Hread & Hm1 & Hcase); [lia | lia | lia |].
  rewrite Hread. cbn [bind]. rewrite Hlen in Hm1.
  assert (Hsync : sz_add (sync_pre_size e) n = sync_pre_size e + n
                  /\ 0 <= sync_pre_size e + n <= b
                  /\ (n = 0 \/ sync_pre_size e + n = b)).
  { destruct Hcase as [(-> & _) | (-> & _)];
      (split; [apply sz_add_small; rewrite SIZE_MOD_eq; lia | lia]). }
  destruct Hsync as (-> & Hsz & Hfull).
  set (sz := sync_pre_size e + n) in *.
  set (search_size := Z.min (contig_size opt) sz).
  assert (Hss : 0 <= search_size <= sz) by (unfold search_size; lia).
  destruct (search_loop_total opt m1 (0 + sz - search_size + 1) search_size
              Hopt) with (fuel := Z.to_nat (0 + sz - search_size + 1))
                         (r := r1) (start := 0)
    as (s & r2 & tried & Hsearch & Hfound); [lia | lia | lia | lia |].
  rewrite Hsearch. cbn [bind].
  assert (Hr1 : inputPacketSize r1 = 0
                /\ (status r1 = RS_OK \/ (status r1 = RS_EOF /\ n = 0)))
    by (destruct Hcase as [(_ & -> & _) | (-> & _ & -> & _)];
        split; auto).
  destruct Hr1 as (Hp0 & Hst1).
  destruct Hfound as [-> | (c & Hcin & -> & Hs0 & Hall)].
  { rewrite Hp0. cbn [Z.eqb]. do 2 eexists.
    split; [reflexivity | discriminate]. }
  destruct (candidates_fit c Hcin) as (Hh & Hp & _).
  unfold PKT_SIZE in Hp.
  cbn [inputPacketSize confirmed _in_pkt_size].
  replace (fst c =? 0) with false by (symmetry; apply Z.eqb_neq; lia).
  set (r2 := confirmed r1 (fst c) (snd c)).
  destruct (drain_loop_total opt m1 (0 + sz) Hopt) with
      (fuel := Z.to_nat (0 + sz - s)) (r := r2) (cout := e_cout e)
      (start := s)
    as (s3 & r3 & cout3 & Hdrain & Hsf & Hle & Hend & Hst3 & Hprog);
    [lia | apply framed_confirmed; exact Hcin | lia | lia |].
  rewrite Hdrain. cbn [bind].
  destruct (Status_eqb (status r3) RS_OK) eqn:Est3; cbn [negb].
  2: { do 2 eexists. split; [reflexivity | discriminate]. }
  apply Status_eqb_eq in Est3.
  assert (Hok1 : status r1 = RS_OK).
  { destruct Hst3 as [H3 | H3]; [| congruence].
    rewrite Est3 in H3. exact (eq_sym H3). }
  assert (Hn : sz = b /\ 0 < n
               /\ len (in_data cin1) = len (in_data (e_cin e)) - n).
  { destruct Hcase as [(-> & _ & Hin) | (_ & _ & -> & _)];
      [| discriminate Hok1].
    destruct Hfull as [H0 | H0]; lia. }
  destruct Hn as (Hszb & Hnpos & Hin1).
  assert (Hsearch_size : search_size = contig_size opt)
    by (unfold search_size; lia).
  assert (Hmark : load m1 (s + inputHeaderSize r2) = Ret SYNC_BYTE).
  { specialize (Hall 0). rewrite Z.mul_0_l, Z.add_0_r in Hall.
    apply Hall; lia. }
  specialize (Hprog Est3).
  cbn [inputPacketSize r2 confirmed _in_pkt_size] in Hprog.
  specialize (Hprog ltac:(lia) Hmark).
  unfold after_drain. cbn [sync_buf resync e_cin e_cout].
  rewrite compact_in by (rewrite ?SIZE_MOD_eq; lia).
  cbn [bind].
  set (pre := 0 + sz - s3).
  set (m2 := slice m1 s3 pre ++ skipn (Z.to_nat pre) m1).
  assert (Hm2 : len m2 = b).
  { unfold m2. rewrite len_app, len_slice, len_skipn by lia. lia. }
  set (r4 := if pre >=? inputPacketSize r3
             then setStatus r3 RS_SYNC_LOST else r3).
  set (e3 := {| resync := r4; sync_buf := m2; sync_pre_size := pre;
                e_cin := cin1; e_cout := cout3 |}).
  assert (Hre3 : steady_ready opt e3).
  { split; [split; cbn [e3 sync_buf sync_pre_size]; lia |].
    split.
    - cbn [e3 resync]. apply (framed_same opt r2);
        [apply framed_confirmed; exact Hcin |].
      unfold r4. destruct (pre >=? inputPacketSize r3);
        [| exact Hsf].
      eapply same_framing_trans; [exact Hsf |].
      apply same_framing_setStatus.
    - cbn [e3 resync sync_pre_size]. unfold r4.
      destruct (pre >=? inputPacketSize r3) eqn:Ege.
      + intros Habs. discriminate Habs.
      + intros _. rewrite Z.geb_leb in Ege. apply Z.leb_gt in Ege.
        exact Ege. }
  destruct (steady_loop_total fuel e3 Hre3)
    as (e4 & Hsteady & Hre4 & Hst4 & Hle4);
    [cbn [e3 e_cin]; lia |].
  rewrite Hsteady. cbn [bind]. do 2 eexists. split; [reflexivity |].
  intros _. split; [exact Hst4 |]. split; [apply Hre4 |].
  cbn [e3 e_cin] in Hle4. lia.
Qed.

(** The [do] loop returns when the fuel is at least the number of bytes
    left in the input. *)
Lemma main_loop_total (fuel : nat) : forall e,
  pass_ready opt e ->
  len (in_data (e_cin e)) <= Z.of_nat fuel ->
  exists e', main_loop (S fuel) opt e = Ret e'.
Proof.
  induction fuel as [| fuel IH]; intros e Hre Hfuel;
    destruct (pass_total _ e Hre Hfuel) as (brk & e1 & Hpass & Hnext);
    cbn [main_loop] in *; rewrite Hpass; cbn [bind];
    (destruct brk; [eauto |]);
    destruct (Hnext eq_refl) as (Hst & Hre1 & Hlt);
    pose proof (len_nonneg (in_data (e_cin e1))).
  - lia.
  - destruct (Status_eqb (status (resync e1)) RS_OK
              || Status_eqb (status (resync e1)) RS_SYNC_LOST
                 && cont_sync opt); [| eauto].
    destruct (IH e1 Hre1) as (e2 & H2); [lia |].
    cbn [main_loop] in H2. eauto.
Qed.

End Termination.

(** X11. Safety and termination. When the options are within their
    bounds and the packet size given with --packet-size, if any, does not
    exceed the verification window, the program ends on every input and
    every output device, whatever the state of the streams: no assertion
    fails, no byte is read or written outside the buffer, and each pass
    of the [do] loop that is followed by another one consumes input (one
    unit of fuel per byte of input, and one more, is enough). *)
Theorem run_returns
    (opt : Options) (cin : istream) (cout : ostream) (fuel : nat) :
  options_ok opt ->
  packet_size opt <= contig_size opt ->
  len (in_data cin) <= Z.of_nat fuel ->
  exists e, run (S fuel) opt cin cout = Ret e.
Proof.
  intros Hopt Hfit Hfuel.
  destruct (options_ok_buffer opt Hopt) as (Hadd & Hb & Hc & Hs).
  apply (main_loop_total opt Hopt Hfit fuel (engine_init opt cin cout)).
  - unfold pass_ready, engine_init. cbn [sync_buf sync_pre_size].
    rewrite Hadd, ByteBlock_len by lia. lia.
  - exact Hfuel.
Qed.

Lemma run_returns_witness :
  exists e,
    run 377 opt_small (stdin_of (bare_packet 1 ++ bare_packet 2) ReadError)
      stdout_new = Ret e.
Proof.
  apply (run_returns opt_small
           (stdin_of (bare_packet 1 ++ bare_packet 2) ReadError)
           stdout_new 376).
  - exact opt_small_ok.
  - simpl. lia.
  - apply Z.leb_le. reflexivity.
Defined.

(** ** From the command line to the engine *)

Lemma value_ok_intValue (v : option Z) (def lo hi : Z) :
  value_ok v lo hi = true -> lo <= def <= hi ->
  lo <= intValue v def <= hi.
Proof.
  destruct v as [x |]; cbn [value_ok intValue]; [| auto].
  intros H _. apply andb_true_iff in H as [H1 H2].
  apply Z.leb_le in H1. apply Z.leb_le in H2. lia.
Qed.

(** The options that the constructor accepts are within the bounds that
    the engine relies on. *)
Lemma Options_new_ok (cl : CommandLine) (opt : Options) :
  Options_new cl = Some opt ->
  intValue (cl_header_size cl) 0 + PKT_SIZE < SIZE_MOD ->
  options_ok opt
  /\ sync_size opt = intValue (cl_sync_size cl) DEFAULT_SYNC_SIZE
  /\ contig_size opt = intValue (cl_min_contiguous cl) DEFAULT_CONTIG_SIZE
  /\ packet_size opt = intValue (cl_packet_size cl) 0
  /\ header_size opt = intValue (cl_header_size cl) 0
  /\ cont_sync opt = cl_continue cl /\ keep opt = cl_keep cl.
Proof.
  unfold Options_new. intros Hnew Hno.
  destruct (analyze cl) eqn:Han.
  2: { cbn [negb] in Hnew. destruct (_ && _) in Hnew; discriminate Hnew. }
  cbn [negb] in Hnew.
  unfold analyze in Han.
  apply andb_true_iff in Han as [Han Hsync].
  apply andb_true_iff in Han as [Han Hpkt].
  apply andb_true_iff in Han as [Hhdr Hcontig].
  apply (value_ok_intValue _ DEFAULT_SYNC_SIZE) in Hsync;
    [| unfold MIN_SYNC_SIZE, DEFAULT_SYNC_SIZE, MAX_SYNC_SIZE; lia].
  apply (value_ok_intValue _ DEFAULT_CONTIG_SIZE) in Hcontig;
    [| unfold MIN_CONTIG_SIZE, DEFAULT_CONTIG_SIZE, MAX_CONTIG_SIZE,
         PKT_SIZE; lia].
  apply (value_ok_intValue _ 0) in Hhdr; [| rewrite SIZE_MOD_eq; lia].
  assert (Hp : intValue (cl_packet_size cl) 0 = 0
               \/ PKT_SIZE <= intValue (cl_packet_size cl) 0 <= 0x7FFFFFFF).
  { destruct (cl_packet_size cl) as [x |]; cbn [value_ok intValue] in *;
      [| auto].
    apply andb_true_iff in Hpkt as [H1 H2].
    apply Z.leb_le in H1. apply Z.leb_le in H2. right. lia. }
  rewrite sz_add_small in Hnew by (unfold PKT_SIZE in *; lia).
  destruct ((0 <? intValue (cl_packet_size cl) 0)
            && (intValue (cl_packet_size cl) 0
                <? intValue (cl_header_size cl) 0 + PKT_SIZE)) eqn:Echeck;
    [discriminate Hnew |].
  injection Hnew as <-.
  cbn [sync_size contig_size packet_size header_size cont_sync keep].
  split; [| repeat split; reflexivity].
  unfold options_ok.
  cbn [sync_size contig_size packet_size header_size].
  split; [exact Hsync |]. split; [exact Hcontig |].
  destruct Hp as [Hp | Hp]; [left; exact Hp | right].
  apply andb_false_iff in Echeck as [E | E].
  - apply Z.ltb_ge in E. unfold PKT_SIZE in Hp. lia.
  - apply Z.ltb_ge in E. lia.
Qed.

(** X12. The options that the constructor accepts are within the bounds
    that the engine relies on: the two windows within the bounds of their
    options (the defaults are), and a packet size given with
    --packet-size with room for the header and a bare packet. *)
Theorem accepted_options_in_bounds (cl : CommandLine) (opt : Options) :
  Options_new cl = Some opt ->
  intValue (cl_header_size cl) 0 + PKT_SIZE < SIZE_MOD ->
  options_ok opt
  /\ 0 < sync_size opt + contig_size opt <= 2 * MAX_SYNC_SIZE
  /\ forall c, In c (candidates opt) ->
               0 <= snd c /\ snd c + PKT_SIZE <= fst c <= 0x7FFFFFFF.
Proof.
  intros Hnew Hno.
  destruct (Options_new_ok cl opt Hnew Hno) as (Hok & _).
  split; [exact Hok |].
  pose proof Hok as (Hs & Hc & Hp).
  unfold MIN_SYNC_SIZE, MAX_SYNC_SIZE, MIN_CONTIG_SIZE, MAX_CONTIG_SIZE,
    PKT_SIZE in *.
  split; [lia |].
  intros c Hin. unfold candidates in Hin.
  destruct (0 <? packet_size opt) eqn:E.
  - apply Z.ltb_lt in E. destruct Hin as [<- | []]. cbn [fst snd]. lia.
  - unfold PKT_SIZE, PKT_RS_SIZE, PKT_M2TS_SIZE, M2TS_HEADER_SIZE in Hin.
    destruct Hin as [<- | [<- | [<- | []]]]; cbn [fst snd]; lia.
Qed.

Lemma accepted_options_in_bounds_witness :
  options_ok opt_small
  /\ 0 < sync_size opt_small + contig_size opt_small <= 2 * MAX_SYNC_SIZE
  /\ forall c, In c (candidates opt_small) ->
               0 <= snd c /\ snd c + PKT_SIZE <= fst c <= 0x7FFFFFFF.
Proof.
  apply (accepted_options_in_bounds cl_small opt_small).
  - reflexivity.
  - reflexivity.
Defined.

(** X13. The program as a whole: when the header size does not overflow
    and the packet size given with --packet-size, if any, does not exceed
    the verification window, [main] ends on every input with the exit
    status [EXIT_SUCCESS] or [EXIT_FAILURE]; the status is [EXIT_SUCCESS]
    only when the options were accepted and the engine ended on RS_EOF,
    and the standard streams are untouched when the options were
    refused. *)
Theorem main_returns
    (cl : CommandLine) (cin : istream) (cout : ostream) (fuel : nat) :
  intValue (cl_header_size cl) 0 + PKT_SIZE < SIZE_MOD ->
  intValue (cl_packet_size cl) 0
  <= intValue (cl_min_contiguous cl) DEFAULT_CONTIG_SIZE ->
  len (in_data cin) <= Z.of_nat fuel ->
  exists code cin' cout' r,
    main (S fuel) cl cin cout = Ret (code, cin', cout', r)
    /\ (code = EXIT_SUCCESS \/ code = EXIT_FAILURE)
    /\ (code = EXIT_SUCCESS ->
        exists res, r = Some res /\ status res = RS_EOF)
    /\ (r = None -> cin' = cin /\ cout' = cout).
Proof.
  intros Hno Hfit Hfuel. unfold main.
  destruct (Options_new cl) as [opt |] eqn:Hnew.
  2: { do 4 eexists. split; [reflexivity |].
       split; [right; reflexivity |].
       split; [discriminate | auto]. }
  destruct (Options_new_ok cl opt Hnew Hno)
    as (Hok & _ & Hc & Hp & _).
  destruct (options_ok_buffer opt Hok) as (Hadd & Hb & _).
  destruct (main_loop_total opt Hok ltac:(lia) fuel
              (engine_init opt cin cout)) as (e & He).
  - unfold pass_ready, engine_init. cbn [sync_buf sync_pre_size].
    rewrite Hadd, ByteBlock_len by lia. lia.
  - exact Hfuel.
  - unfold run. rewrite He. cbn [bind].
    do 4 eexists. split; [reflexivity |].
    unfold exit_status.
    destruct (Status_eqb (status (resync e)) RS_EOF) eqn:Est.
    + split; [left; reflexivity |]. split; [| discriminate].
      intros _. exists (resync e). split; [reflexivity |].
      apply Status_eqb_eq. exact Est.
    + split; [right; reflexivity |]. split; [discriminate | discriminate].
Qed.

Lemma main_returns_witness :
  exists code cin' cout' r,
    main 377 cl_small (stdin_of (bare_packet 1 ++ bare_packet 2) EndOfFile)
      stdout_new = Ret (code, cin', cout', r)
    /\ (code = EXIT_SUCCESS \/ code = EXIT_FAILURE)
    /\ (code = EXIT_SUCCESS ->
        exists res, r = Some res /\ status res = RS_EOF)
    /\ (r = None ->
        cin' = stdin_of (bare_packet 1 ++ bare_packet 2) EndOfFile
        /\ cout' = stdout_new).
Proof.
  apply (main_returns cl_small
           (stdin_of (bare_packet 1 ++ bare_packet 2) EndOfFile)
           stdout_new 376).
  - reflexivity.
  - simpl. lia.
  - apply Z.leb_le. reflexivity.
Defined.

(** ** Loss of synchronization in the per-packet loop *)

(** X14. When the packet that the per-packet loop completes lacks the
    marker byte at the header offset, nothing is written and no byte is
    dropped: the status becomes RS_SYNC_LOST, the output and the byte
    total stay as they were, and the whole packet (the bytes kept in the
    buffer followed by the bytes just read) stays at the start of the
    buffer, counted as pre-loaded, for the next search. *)
Theorem sync_loss_keeps_packet (e : engine) :
  let r := resync e in
  let P := inputPacketSize r in
  let pre := sync_pre_size e in
  let pkt := firstn (Z.to_nat pre) (sync_buf e)
             ++ firstn (Z.to_nat (P - pre)) (in_data (e_cin e)) in
  0 <= inputHeaderSize r < P -> P < 2 ^ 63 ->
  0 <= pre < P -> P <= len (sync_buf e) ->
  in_fail (e_cin e) = false -> in_eofbit (e_cin e) = false ->
  P - pre <= len (in_data (e_cin e)) ->
  nth (Z.to_nat (inputHeaderSize r)) pkt 0 <> SYNC_BYTE ->
  exists e',
    steady_body e = Ret e'
    /\ resync e' = setStatus r RS_SYNC_LOST
    /\ sync_pre_size e' = P
    /\ slice (sync_buf e') 0 P = pkt
    /\ len (sync_buf e') = len (sync_buf e)
    /\ in_data (e_cin e') = skipn (Z.to_nat (P - pre)) (in_data (e_cin e))
    /\ e_cout e' = e_cout e.
Proof.
  intros r P pre pkt Hh HP Hpre Hbuf Hfail Heof Hdata Hno.
  unfold steady_body. fold r. fold P. fold pre.
  replace (pre <? P) with true by (symmetry; apply Z.ltb_lt; lia).
  cbn [negb].
  rewrite sz_sub_small by (rewrite SIZE_MOD_eq; lia).
  rewrite readData_full by (assumption || lia).
  cbn [bind]. rewrite Z.eqb_refl. cbn [negb].
  rewrite !Z.add_0_l, app_assoc. fold pkt.
  assert (Hpkt : len pkt = P).
  { unfold pkt. rewrite len_app, !len_firstn by lia. lia. }
  rewrite load_app_l by lia.
  rewrite load_in by lia. cbn [bind].
  replace (nth (Z.to_nat (inputHeaderSize r)) pkt 0 =? SYNC_BYTE) with false
    by (symmetry; apply Z.eqb_neq; exact Hno).
  cbn [negb]. eexists. split; [reflexivity |].
  cbn [resync sync_pre_size sync_buf e_cin e_cout in_data].
  repeat split; try reflexivity.
  - unfold slice. cbn [Z.to_nat skipn]. apply firstn_app_exact. exact Hpkt.
  - rewrite len_app, Hpkt, len_skipn by lia. lia.
Qed.

Lemma sync_loss_keeps_packet_witness :
  exists e',
    steady_body engine_sync_loss = Ret e'
    /\ resync e' = setStatus (resync engine_sync_loss) RS_SYNC_LOST
    /\ sync_pre_size e' = 188
    /\ slice (sync_buf e') 0 188 = [1; 2; 3] ++ repeat 0 185
    /\ len (sync_buf e') = len (sync_buf engine_sync_loss)
    /\ in_data (e_cin e') = [SYNC_BYTE]
    /\ e_cout e' = stdout_new.
Proof.
  apply (sync_loss_keeps_packet engine_sync_loss).
  - cbn. lia.
  - reflexivity.
  - cbn. lia.
  - apply Z.leb_le. reflexivity.
  - reflexivity.
  - reflexivity.
  - apply Z.leb_le. reflexivity.
  - discriminate.
Defined.

(** ** The causes of the status RS_ERROR *)

Lemma writePacket_err (r r' : Resynchronizer) (m : list Z)
    (cout cout' : ostream) (p : Z) (ok : bool) :
  writePacket r m cout p = Ret (ok, r', cout') ->
  same_framing r r'
  /\ (if ok then status r' = status r
      else status r' = RS_ERROR /\ out_fail cout' = true).
Proof.
  unfold writePacket. intros Hrun.
  destruct (load_range m _ _) as [bs | | |]; cbn [bind] in Hrun;
    try discriminate.
  destruct (ostream_write cout bs) as [ok1 cout1] eqn:Hw.
  apply ostream_write_cases in Hw.
  destruct ok1; injection Hrun as <- <- <-.
  - split; [unfold same_framing; simpl; auto | reflexivity].
  - split; [apply same_framing_setStatus |].
    split; [reflexivity | exact Hw].
Qed.

Lemma drain_loop_err (m : list Z) (sync_end : Z) (fuel : nat) :
  forall r cout start s' r' cout',
    drain_loop fuel r m cout start sync_end = Ret (s', r', cout') ->
    same_framing r r'
    /\ (status r' = status r
        \/ (status r' = RS_ERROR /\ out_fail cout' = true)).
Proof.
  induction fuel as [| fuel IH]; intros r cout start s' r' cout' Hrun;
    cbn [drain_loop] in Hrun;
    (destruct (start <=? sync_end - inputPacketSize r);
     [| injection Hrun as <- <- <-;
        split; [apply same_framing_refl | auto]]);
    (destruct (load m (start + inputHeaderSize r)) as [b | | |];
     cbn [bind] in Hrun; try discriminate);
    (destruct (b =? SYNC_BYTE);
     [| injection Hrun as <- <- <-;
        split; [apply same_framing_refl | auto]]).
  - discriminate.
  - destruct (writePacket r m cout start) as [[[ok r1] cout1] | | |] eqn:Hw;
      cbn [bind] in Hrun; try discriminate.
    destruct (writePacket_err r r1 m cout cout1 start ok Hw)
      as (Hsf & Hcase).
    destruct ok; cbn [negb] in Hrun.
    + destruct (IH r1 cout1 _ s' r' cout' Hrun) as (Hsf2 & Hcase2).
      split; [eapply same_framing_trans; eassumption |].
      rewrite <- Hcase. exact Hcase2.
    + injection Hrun as <- <- <-. split; [exact Hsf | auto].
Qed.

Lemma steady_body_err (e e' : engine) :
  steady_body e = Ret e' ->
  status (resync e) = RS_OK ->
  same_framing (resync e) (resync e')
  /\ (status (resync e') = RS_ERROR -> out_fail (e_cout e') = true).
Proof.
  intros Hrun Hok. unfold steady_body in Hrun.
  destruct (negb (sync_pre_size e <? inputPacketSize (resync e)));
    [discriminate |].
  destruct (readData _ _ _ _ _) as [[[[n r1] m1] cin1] | | |] eqn:Hread;
    cbn [bind] in Hrun; try discriminate.
  apply readData_Ret in Hread. destruct Hread as (Hr1 & _).
  assert (Hsf1 : same_framing (resync e) r1 /\ status r1 <> RS_ERROR).
  { destruct Hr1 as [-> | ->].
    - split; [apply same_framing_refl | congruence].
    - split; [apply same_framing_setStatus | discriminate]. }
  destruct Hsf1 as [Hsf1 Hne1].
  destruct (negb (n =? _)).
  { injection Hrun as <-. cbn [resync e_cout].
    split; [eapply same_framing_trans;
            [exact Hsf1 | apply same_framing_setStatus] |].
    discriminate. }
  destruct (load m1 _) as [b | | |]; cbn [bind] in Hrun; try discriminate.
  destruct (negb (b =? SYNC_BYTE)).
  { injection Hrun as <-. cbn [resync e_cout].
    split; [eapply same_framing_trans;
            [exact Hsf1 | apply same_framing_setStatus] |].
    discriminate. }
  destruct (writePacket r1 m1 (e_cout e) 0) as [[[ok r2] cout2] | | |] eqn:Hw;
    cbn [bind] in Hrun; try discriminate.
  injection Hrun as <-. cbn [resync e_cout].
  destruct (writePacket_err r1 r2 m1 (e_cout e) cout2 0 ok Hw)
    as (Hsf2 & Hcase).
  split; [eapply same_framing_trans; eassumption |].
  destruct ok; [intros Habs; congruence | intros _; apply Hcase].
Qed.

Lemma steady_loop_err (fuel : nat) : forall e e',
  steady_loop fuel e = Ret e' ->
  (status (resync e) = RS_ERROR -> out_fail (e_cout e) = true) ->
  same_framing (resync e) (resync e')
  /\ (status (resync e') = RS_ERROR -> out_fail (e_cout e') = true).
Proof.
  induction fuel as [| fuel IH]; intros e e' Hrun Herr;
    cbn [steady_loop] in Hrun;
    destruct (Status_eqb (status (resync e)) RS_OK) eqn:Est.
  - discriminate.
  - injection Hrun as <-. split; [apply same_framing_refl | exact Herr].
  - apply Status_eqb_eq in Est.
    destruct (steady_body e) as [e1 | | |] eqn:Hbody;
      cbn [bind] in Hrun; try discriminate.
    destruct (steady_body_err e e1 Hbody Est) as (Hsf1 & Herr1).
    destruct (IH e1 e' Hrun Herr1) as (Hsf2 & Herr2).
    split; [eapply same_framing_trans; eassumption | exact Herr2].
  - injection Hrun as <-. split; [apply same_framing_refl | exact Herr].
Qed.

(** At the end of a pass: without a framing the status is RS_ERROR; with
    one, the status is RS_ERROR only when a write has failed. *)
Lemma pass_err (opt : Options) (fuel : nat) (e e' : engine) (brk : bool) :
  options_ok opt ->
  pass fuel opt e = Ret (brk, e') ->
  (inputPacketSize (resync e') = 0 -> status (resync e') = RS_ERROR)
  /\ (inputPacketSize (resync e') <> 0 ->
      status (resync e') = RS_ERROR -> out_fail (e_cout e') = true).
Proof.
  intros Hopt Hrun. unfold pass in Hrun.
  destruct (readData _ _ _ _ _) as [[[[n r1] m1] cin1] | | |] eqn:Hread;
    cbn [bind] in Hrun; try discriminate.
  apply readData_Ret in Hread. destruct Hread as (Hr1 & _).
  assert (H1 : _in_pkt_size r1 = 0 /\ status r1 <> RS_ERROR)
    by (destruct Hr1 as [-> | ->]; cbn; split; auto; discriminate).
  destruct H1 as (Hi1 & Hne1).
  destruct (search_loop _ _ _ _ _ _ _) as [[[start r2] tried] | | |]
    eqn:Hsearch; cbn [bind] in Hrun; try discriminate.
  apply search_loop_cases in Hsearch.
  destruct Hsearch as [-> | (c & Hc & ->)].
  { unfold inputPacketSize in Hrun. rewrite Hi1 in Hrun. cbn [Z.eqb] in Hrun.
    injection Hrun as <- <-.
    cbn [resync e_cout inputPacketSize setStatus _in_pkt_size status
         _status].
    split; [auto | intros H; contradiction]. }
  destruct (options_ok_candidates opt c Hopt Hc) as [Hh Hp].
  unfold PKT_SIZE in Hp.
  cbn [inputPacketSize confirmed _in_pkt_size] in Hrun.
  replace (fst c =? 0) with false in Hrun
    by (symmetry; apply Z.eqb_neq; lia).
  destruct (drain_loop _ _ _ _ _ _) as [[[start' r3] cout3] | | |]
    eqn:Hdrain; cbn [bind] in Hrun; try discriminate.
  apply drain_loop_err in Hdrain.
  destruct Hdrain as ((K1 & K2 & K3 & K4 & K5) & Hcase3).
  cbn [confirmed _in_pkt_size status _status] in K2, Hcase3.
  fold (status r1) in Hcase3.
  assert (Herr3 : status r3 = RS_ERROR -> out_fail cout3 = true).
  { destruct Hcase3 as [Hst | [_ Hf]]; [congruence | auto]. }
  destruct (negb (Status_eqb (status r3) RS_OK)) eqn:Eok.
  { injection Hrun as <- <-. cbn [resync e_cout]. unfold inputPacketSize.
    split; [intros H; lia | intros _; exact Herr3]. }
  unfold after_drain in Hrun. cbn [sync_buf resync e_cin e_cout] in Hrun.
  destruct (compact m1 start' _) as [[pre m'] | | |];
    cbn [bind] in Hrun; try discriminate.
  destruct (steady_loop fuel _) as [e1 | | |] eqn:Hloop;
    cbn [bind] in Hrun; try discriminate.
  injection Hrun as <- <-.
  apply steady_loop_err in Hloop; cbn [resync e_cout] in *.
  - destruct Hloop as ((L1 & L2 & L3 & L4 & L5) & Herr).
    assert (Hin : inputPacketSize (resync e1) = fst c).
    { unfold inputPacketSize. rewrite L2.
      destruct (pre >=? _); cbn [setStatus _in_pkt_size]; exact K2. }
    split; [intros H; lia | intros _; exact Herr].
  - destruct (pre >=? _); [discriminate | exact Herr3].
Qed.

Lemma main_loop_err (opt : Options) (fuel : nat) :
  options_ok opt ->
  forall e e',
    main_loop fuel opt e = Ret e' ->
    (inputPacketSize (resync e') = 0 -> status (resync e') = RS_ERROR)
    /\ (inputPacketSize (resync e') <> 0 ->
        status (resync e') = RS_ERROR -> out_fail (e_cout e') = true).
Proof.
  intros Hopt.
  induction fuel as [| fuel IH]; intros e e' Hrun;
    cbn [main_loop] in Hrun; [discriminate |].
  destruct (pass fuel opt e) as [[brk e1] | | |] eqn:Hpass;
    cbn [bind] in Hrun; try discriminate.
  pose proof (pass_err opt fuel e e1 brk Hopt Hpass) as Hend.
  destruct brk; [injection Hrun as <-; exact Hend |].
  destruct (Status_eqb (status (resync e1)) RS_OK
            || Status_eqb (status (resync e1)) RS_SYNC_LOST
               && cont_sync opt);
    [| injection Hrun as <-; exact Hend].
  exact (IH e1 e' Hrun).
Qed.

(** X15. The causes of the status RS_ERROR. A run whose last search
    found no framing ends with the status RS_ERROR; and a run ends with
    that status only when its last search found no framing or a call of
    writePacket found the output stream failed, in which case the stream
    is still failed when the run returns. *)
Theorem error_status_causes
    (opt : Options) (fuel : nat) (cin : istream) (cout : ostream)
    (e : engine) :
  options_ok opt ->
  run fuel opt cin cout = Ret e ->
  (inputPacketSize (resync e) = 0 -> status (resync e) = RS_ERROR)
  /\ (status (resync e) = RS_ERROR ->
      inputPacketSize (resync e) = 0 \/ out_fail (e_cout e) = true).
Proof.
  intros Hopt Hrun. unfold run in Hrun.
  destruct (main_loop_err opt fuel Hopt _ e Hrun) as (Hz & Hnz).
  split; [exact Hz |].
  intros Herr.
  destruct (Z.eq_dec (inputPacketSize (resync e)) 0) as [H0 | H0];
    [left; exact H0 | right; exact (Hnz H0 Herr)].
Qed.

Lemma error_status_causes_witness :
  exists e,
    run 2 opt_small (stdin_of (repeat 0 1400) EndOfFile) stdout_new = Ret e
    /\ (inputPacketSize (resync e) = 0 -> status (resync e) = RS_ERROR)
    /\ (status (resync e) = RS_ERROR ->
        inputPacketSize (resync e) = 0 \/ out_fail (e_cout e) = true).
Proof.
  eexists. split; [vm_compute; reflexivity |].
  apply (error_status_causes opt_small 2
           (stdin_of (repeat 0 1400) EndOfFile) stdout_new).
  - exact opt_small_ok.
  - vm_compute. reflexivity.
Defined.

(** ** The output is cut from the input *)

Lemma ordered_le (segs : list (Z * Z)) : forall lo hi hi',
  ordered lo segs hi -> hi <= hi' -> ordered lo segs hi'.
Proof.
  induction segs as [| s t IH]; intros lo hi hi'; cbn [ordered].
  - lia.
  - intros (H1 & H2 & H3) Hle. repeat split; try assumption.
    eapply IH; eassumption.
Qed.

Lemma ordered_snoc (segs : list (Z * Z)) : forall lo hi a n hi',
  ordered lo segs hi -> hi <= a -> 0 <= n -> a + n <= hi' ->
  ordered lo (segs ++ [(a, n)]) hi'.
Proof.
  induction segs as [| s t IH]; intros lo hi a n hi'; cbn [ordered app].
  - intros. cbn [fst snd]. lia.
  - intros (H1 & H2 & H3) Ha Hn Hhi. repeat split; try assumption.
    eapply IH; eassumption.
Qed.

Lemma output_cut_le (data d0 : list Z) (cout : ostream) (hi hi' : Z) :
  output_cut data d0 cout hi -> hi <= hi' -> output_cut data d0 cout hi'.
Proof.
  intros H Hle Hg. destruct (H Hg) as (segs & Ho & Hord).
  exists segs. split; [exact Ho | eapply ordered_le; eassumption].
Qed.

Lemma output_cut_write (data d0 : list Z) (cout cout' : ostream)
    (hi a n hi' : Z) :
  output_cut data d0 cout hi ->
  (out_fail cout' = false ->
   out_fail cout = false
   /\ out_data cout' = out_data cout ++ slice data a n) ->
  hi <= a -> 0 <= n -> a + n <= hi' ->
  output_cut data d0 cout' hi'.
Proof.
  intros H Hw Ha Hn Hhi Hg.
  destruct (Hw Hg) as [Hg0 Hd]. destruct (H Hg0) as (segs & Ho & Hord).
  exists (segs ++ [(a, n)]). split.
  - rewrite Hd, Ho, map_app, concat_app. cbn [map concat cut fst snd].
    rewrite app_nil_r, app_assoc. reflexivity.
  - eapply ordered_snoc; eassumption.
Qed.

Lemma skipn_skipn_Z (data : list Z) (pos n : Z) :
  0 <= pos -> 0 <= n ->
  skipn (Z.to_nat n) (skipn (Z.to_nat pos) data)
  = skipn (Z.to_nat (pos + n)) data.
Proof.
  intros Hp Hn. rewrite skipn_skipn. f_equal. lia.
Qed.

(** The buffer after a read that gave all of [n] bytes. *)
Lemma holds_read (data m : list Z) (pos pre n : Z) :
  holds data m pre pos ->
  0 <= n -> pre + n <= len m -> pos + n <= len data ->
  slice (firstn (Z.to_nat pre) m
           ++ firstn (Z.to_nat n) (skipn (Z.to_nat pos) data)
           ++ skipn (Z.to_nat (pre + n)) m) 0 (pre + n)
  = slice data (pos - pre) (pre + n).
Proof.
  intros (Hpre & Hpos & Hm & Hs) Hn Hfit Hdata.
  rewrite (slice_split data (pos - pre) pre n) by lia.
  replace (pos - pre + pre) with pos by lia.
  unfold slice at 1. cbn [Z.to_nat skipn].
  rewrite app_assoc, firstn_app_exact.
  - rewrite <- Hs. unfold slice. cbn [Z.to_nat skipn]. reflexivity.
  - rewrite len_app, !len_firstn; try lia.
    rewrite len_skipn by lia. lia.
Qed.

(** What readData returns, and what it leaves in the buffer. *)
Lemma readData_content (r r' : Resynchronizer) (m m' : list Z)
    (cin cin' : istream) (buf size n : Z) :
  0 <= buf -> 0 <= size < 2 ^ 63 ->
  readData r m cin buf size = Ret (n, r', m', cin') ->
  len m' = len m
  /\ ((n = 0 /\ (r' = r \/ r' = setStatus r RS_EOF)
       /\ firstn (Z.to_nat buf) m' = firstn (Z.to_nat buf) m
       /\ (cin' = cin \/ in_fail cin' = true))
      \/ (n = size /\ 0 < size /\ r' = r
          /\ in_fail cin = false /\ in_eofbit cin = false
          /\ size <= len (in_data cin) /\ buf + size <= len m
          /\ m' = firstn (Z.to_nat buf) m
                    ++ firstn (Z.to_nat size) (in_data cin)
                    ++ skipn (Z.to_nat (buf + size)) m
          /\ in_data cin' = skipn (Z.to_nat size) (in_data cin)
          /\ in_fail cin' = false /\ in_eofbit cin' = false)).
Proof.
  intros Hbuf Hsize Hrun.
  destruct (readData_Ret _ _ _ _ _ _ _ _ _ Hrun) as (_ & _ & Hlen & Hpre).
  split; [exact Hlen |]. specialize (Hpre Hbuf).
  rewrite readData_unfold, to_streamsize_small in Hrun by lia.
  destruct (0 <? size) eqn:E.
  2: { injection Hrun as <- <- <- <-. left. auto. }
  apply Z.ltb_lt in E.
  unfold istream_read in Hrun.
  destruct (in_fail cin) eqn:Ef; cbn [orb] in Hrun.
  { destruct (store_range m buf []) as [m1 | | |]; cbn [bind] in Hrun;
      try discriminate.
    injection Hrun as <- <- <- <-. left. auto. }
  destruct (in_eofbit cin) eqn:Ee.
  { destruct (store_range m buf []) as [m1 | | |]; cbn [bind] in Hrun;
      try discriminate.
    injection Hrun as <- <- <- <-. left. auto. }
  destruct (size <=? len (in_data cin)) eqn:E2.
  - apply Z.leb_le in E2.
    destruct (store_range m buf _) as [m1 | | |] eqn:Hst;
      cbn [bind] in Hrun; try discriminate.
    apply store_range_Ret in Hst.
    rewrite len_firstn in Hst by lia.
    destruct Hst as (_ & Hin & _ & _ & Hm1).
    injection Hrun as <- <- <- <-. right.
    rewrite wrap_small by (rewrite SIZE_MOD_eq; lia).
    repeat split; try assumption; try reflexivity; lia.
  - destruct (store_range m buf _) as [m1 | | |]; cbn [bind] in Hrun;
      try discriminate.
    injection Hrun as <- <- <- <-. left. auto.
Qed.

Lemma options_ok_candidates_small (opt : Options) (c : Z * Z) :
  options_ok opt -> In c (candidates opt) ->
  0 <= snd c /\ snd c + PKT_SIZE <= fst c <= 0x7FFFFFFF.
Proof.
  intros (_ & _ & Hp) Hin. unfold candidates in Hin. unfold PKT_SIZE in *.
  destruct (0 <? packet_size opt) eqn:E.
  - apply Z.ltb_lt in E. destruct Hin as [<- | []]. cbn [fst snd]. lia.
  - unfold PKT_SIZE, PKT_RS_SIZE, PKT_M2TS_SIZE, M2TS_HEADER_SIZE in Hin.
    destruct Hin as [<- | [<- | [<- | []]]]; cbn [fst snd]; lia.
Qed.

(** The block that writePacket writes for the packet at offset [p] of the
    buffer is cut from that packet. *)
Lemma writePacket_cut (opt : Options) (data d0 : list Z)
    (r r' : Resynchronizer) (m : list Z) (cout cout' : ostream)
    (p : Z) (ok : bool) (base sz : Z) :
  options_ok opt -> framed opt r ->
  writePacket r m cout p = Ret (ok, r', cout') ->
  slice m 0 sz = slice data base sz -> 0 <= base ->
  0 <= p -> p + _in_pkt_size r <= sz ->
  output_cut data d0 cout (base + p) ->
  output_cut data d0 cout' (base + p + _in_pkt_size r).
Proof.
  intros Hopt (c & Hc & H1 & H2 & H3 & H4) Hrun HJ Hbase Hp Hfit Hout.
  destruct (options_ok_candidates_small opt c Hopt Hc) as [Hh Hpk].
  unfold PKT_SIZE in *.
  unfold writePacket in Hrun.
  destruct (load_range m _ _) as [bs | | |] eqn:Hl; cbn [bind] in Hrun;
    try discriminate.
  apply load_range_Ret in Hl. destruct Hl as (Hq & Hn & _ & Hbs & _).
  destruct (ostream_write cout bs) as [ok1 cout1] eqn:Hw.
  apply ostream_write_cases in Hw.
  destruct ok1; injection Hrun as <- <- <-.
  - destruct Hw as (Hg0 & Hg1 & Hd).
    set (q := p + _in_header_size r - _out_header_size r) in *.
    assert (Hqn : p <= q /\ q + _out_pkt_size r <= p + _in_pkt_size r).
    { unfold q. rewrite H1, H2, H3, H4.
      destruct (_keep_packet_size r); lia. }
    apply (output_cut_write data d0 cout cout1 (base + p) (base + q)
             (_out_pkt_size r)); try assumption; try lia.
    intros _. split; [exact Hg0 |]. rewrite Hd, Hbs. f_equal.
    rewrite <- (slice_slice data base sz q (_out_pkt_size r)) by lia.
    rewrite <- HJ.
    rewrite (slice_slice m 0 sz q (_out_pkt_size r)) by lia.
    reflexivity.
  - intros Hg. congruence.
Qed.

Lemma writePacket_same_framing (r r' : Resynchronizer) (m : list Z)
    (cout cout' : ostream) (p : Z) (ok : bool) :
  writePacket r m cout p = Ret (ok, r', cout') -> same_framing r r'.
Proof.
  unfold writePacket. intros Hw.
  destruct (load_range m _ _); cbn [bind] in Hw; try discriminate.
  destruct (ostream_write cout _) as [[|] c1]; injection Hw as <- <- <-;
    [unfold same_framing; simpl; auto | apply same_framing_setStatus].
Qed.

Lemma drain_loop_cut (opt : Options) (data d0 : list Z) (m : list Z)
    (base sz : Z) (fuel : nat) :
  options_ok opt ->
  slice m 0 sz = slice data base sz -> 0 <= base ->
  forall r cout start s' r' cout',
    drain_loop fuel r m cout start sz = Ret (s', r', cout') ->
    framed opt r -> 0 <= start ->
    output_cut data d0 cout (base + start) ->
    output_cut data d0 cout' (base + s')
    /\ start <= s' /\ (s' <= sz \/ s' = start)
    /\ same_framing r r'.
Proof.
  intros Hopt HJ Hbase.
  induction fuel as [| fuel IH];
    intros r cout start s' r' cout' Hrun Hfr Hstart Hout;
    cbn [drain_loop] in Hrun;
    (destruct (start <=? sz - inputPacketSize r) eqn:E;
     [| injection Hrun as <- <- <-;
        split; [exact Hout | split; [lia | split; [lia |]]];
        apply same_framing_refl]);
    (destruct (load m (start + inputHeaderSize r)) as [b | | |];
     cbn [bind] in Hrun; try discriminate);
    (destruct (b =? SYNC_BYTE);
     [| injection Hrun as <- <- <-;
        split; [exact Hout | split; [lia | split; [lia |]]];
        apply same_framing_refl]).
  - discriminate.
  - apply Z.leb_le in E. unfold inputPacketSize in *.
    destruct (writePacket r m cout start) as [[[ok r1] cout1] | | |] eqn:Hw;
      cbn [bind] in Hrun; try discriminate.
    pose proof (writePacket_cut opt data d0 r r1 m cout cout1 start ok
                  base sz Hopt Hfr Hw HJ Hbase Hstart ltac:(lia) Hout)
      as Hout1.
    pose proof (writePacket_same_framing _ _ _ _ _ _ _ Hw) as Hsf.
    pose proof Hsf as (S1 & S2 & S3 & S4 & S5).
    pose proof Hfr as (c & Hc & H1 & _).
    destruct (options_ok_candidates_small opt c Hopt Hc) as [Hh Hpk].
    unfold PKT_SIZE in Hpk.
    destruct ok; cbn [negb] in Hrun.
    + rewrite S2 in Hrun.
      destruct (IH r1 cout1 _ s' r' cout' Hrun) as (Ho & Hle & Hor & Hsf2).
      * eapply framed_same; eassumption.
      * lia.
      * rewrite <- Z.add_assoc in Hout1. exact Hout1.
      * split; [exact Ho | split; [lia | split; [lia |]]].
        eapply same_framing_trans; eassumption.
    + injection Hrun as <- <- <-.
      split; [| split; [lia | split; [lia | exact Hsf]]].
      intros Hg.
      unfold writePacket in Hw.
      destruct (load_range m _ _); cbn [bind] in Hw; try discriminate.
      destruct (ostream_write cout _) as [[|] c1] eqn:Hos;
        [discriminate |].
      apply ostream_write_cases in Hos.
      injection Hw as _ <-. congruence.
Qed.

Lemma steady_body_cut (opt : Options) (data d0 : list Z) (e e' : engine)
    (pos : Z) :
  options_ok opt ->
  steady_body e = Ret e' ->
  steady_cut opt data d0 e pos ->
  len (sync_buf e') = len (sync_buf e)
  /\ exists pos', steady_cut opt data d0 e' pos'.
Proof.
  intros Hopt Hrun (Hholds & Hstream & Hfr & Hout).
  pose proof Hholds as (Hpre & Hpos & Hm & Hs).
  pose proof Hfr as (c & Hc & H1 & H2 & H3 & H4).
  destruct (options_ok_candidates_small opt c Hopt Hc) as [Hh Hpk].
  unfold PKT_SIZE in Hpk.
  unfold steady_body, inputPacketSize in Hrun.
  destruct (sync_pre_size e <? _in_pkt_size (resync e)) eqn:Elt;
    cbn [negb] in Hrun; [| discriminate].
  apply Z.ltb_lt in Elt.
  rewrite sz_sub_small in Hrun by (rewrite SIZE_MOD_eq; lia).
  destruct (readData _ _ _ _ _) as [[[[n r1] m1] cin1] | | |] eqn:Hread;
    cbn [bind] in Hrun; try discriminate.
  apply readData_content in Hread; [| lia | lia].
  rewrite Z.add_0_l in Hread.
  destruct Hread as (Hlen & [(-> & Hr1 & Hfirst & Hcin)
                            | (-> & Hpos1 & -> & Hf & He & Hsz & Hfit
                               & Hm1 & Hin1 & Hf1 & He1)]).
  - replace (0 =? _in_pkt_size (resync e) - sync_pre_size e) with false
      in Hrun by (symmetry; apply Z.eqb_neq; lia).
    cbn [negb] in Hrun. injection Hrun as <-.
    cbn [sync_buf]. split; [exact Hlen |]. exists pos.
    unfold steady_cut. cbn [sync_buf sync_pre_size e_cin e_cout resync].
    split; [| split; [| split; [| exact Hout]]].
    + unfold holds. rewrite Hlen. repeat split; try lia.
      rewrite <- Hs. unfold slice. cbn [Z.to_nat skipn]. exact Hfirst.
    + destruct Hcin as [-> | Hfail]; [exact Hstream |].
      intros Habs. congruence.
    + eapply framed_same; [| apply same_framing_setStatus].
      destruct Hr1 as [-> | ->]; [exact Hfr |].
      eapply framed_same; [exact Hfr | apply same_framing_setStatus].
  - rewrite Z.eqb_refl in Hrun. cbn [negb] in Hrun.
    specialize (Hstream Hf He).
    set (P := _in_pkt_size (resync e)) in *.
    set (pre := sync_pre_size e) in *.
    assert (Hdata : pos + (P - pre) <= len data).
    { rewrite Hstream, len_skipn in Hsz by lia. lia. }
    assert (HJ : slice m1 0 P = slice data (pos - pre) P).
    { pose proof (holds_read data (sync_buf e) pos pre (P - pre) Hholds
                    ltac:(lia) ltac:(lia) Hdata) as HJ'.
      rewrite <- Hstream, <- Hm1 in HJ'.
      replace (pre + (P - pre)) with P in HJ' by lia. exact HJ'. }
    assert (Hstream1 : stream_at data cin1 (pos + (P - pre))).
    { intros _ _. rewrite Hin1, Hstream. apply skipn_skipn_Z; lia. }
    destruct (load m1 _) as [b | | |]; cbn [bind] in Hrun; try discriminate.
    destruct (negb (b =? SYNC_BYTE)).
    + injection Hrun as <-.
      cbn [sync_buf]. split; [exact Hlen |]. exists (pos + (P - pre)).
      unfold steady_cut.
      cbn [sync_buf sync_pre_size e_cin e_cout resync inputPacketSize].
      fold P.
      split; [| split; [exact Hstream1 | split]].
      * unfold holds. rewrite Hlen. repeat split; try lia.
        replace (pos + (P - pre) - P) with (pos - pre) by lia. exact HJ.
      * eapply framed_same; [exact Hfr | apply same_framing_setStatus].
      * replace (pos + (P - pre) - P) with (pos - pre) by lia. exact Hout.
    + destruct (writePacket (resync e) m1 (e_cout e) 0)
        as [[[ok r2] cout2] | | |] eqn:Hw;
        cbn [bind] in Hrun; try discriminate.
      injection Hrun as <-.
      cbn [sync_buf]. split; [exact Hlen |]. exists (pos + (P - pre)).
      unfold steady_cut.
      cbn [sync_buf sync_pre_size e_cin e_cout resync].
      split; [| split; [exact Hstream1 | split]].
      * unfold holds. rewrite Hlen. repeat split; try lia.
      * eapply framed_same;
          [exact Hfr | eapply writePacket_same_framing; exact Hw].
      * pose proof (writePacket_cut opt data d0 (resync e) r2 m1 (e_cout e)
                      cout2 0 ok (pos - pre) P Hopt Hfr Hw HJ
                      ltac:(lia) ltac:(lia) ltac:(fold P; lia)) as Hcut.
        fold P in Hcut.
        replace (pos + (P - pre) - 0) with (pos - pre + 0 + P) by lia.
        apply Hcut. rewrite Z.add_0_r. exact Hout.
Qed.

Lemma steady_loop_cut (opt : Options) (data d0 : list Z) (fuel : nat) :
  options_ok opt ->
  forall e e' pos,
    steady_loop fuel e = Ret e' ->
    steady_cut opt data d0 e pos ->
    len (sync_buf e') = len (sync_buf e)
    /\ exists pos', steady_cut opt data d0 e' pos'.
Proof.
  intros Hopt.
  induction fuel as [| fuel IH]; intros e e' pos Hrun Hcut;
    cbn [steady_loop] in Hrun;
    destruct (Status_eqb (status (resync e)) RS_OK).
  - discriminate.
  - injection Hrun as <-. eauto.
  - destruct (steady_body e) as [e1 | | |] eqn:Hbody;
      cbn [bind] in Hrun; try discriminate.
    destruct (steady_body_cut opt data d0 e e1 pos Hopt Hbody Hcut)
      as (Hlen1 & pos1 & Hcut1).
    destruct (IH e1 e' pos1 Hrun Hcut1) as (Hlen2 & Hex).
    split; [congruence | exact Hex].
  - injection Hrun as <-. eauto.
Qed.

(** Where the search stops. *)
Lemma search_loop_range (opt : Options) (m : list Z)
    (end_search search_size : Z) (fuel : nat) :
  forall r start s r' tried,
    search_loop fuel opt r m start end_search search_size
    = Ret (s, r', tried) ->
    start <= s /\ (s < end_search \/ r' = r).
Proof.
  induction fuel as [| fuel IH]; intros r start s r' tried; simpl.
  - destruct (start <? end_search); [discriminate |].
    intros H; injection H as <- <- <-. split; [lia | auto].
  - destruct (start <? end_search) eqn:E;
      [| intros H; injection H as <- <- <-; split; [lia | auto]].
    apply Z.ltb_lt in E.
    destruct (search_body opt r m start search_size)
      as [[[brk r1] tried1] | | |] eqn:Hbody; cbn [bind]; try discriminate.
    destruct brk.
    + intros H; injection H as <- <- <-. split; [lia | auto].
    + apply search_body_cases in Hbody.
      destruct Hbody as [[_ ->] | [Habs _]]; [| discriminate].
      destruct (search_loop fuel opt r m (start + 1) end_search search_size)
        as [[[s2 r2] tried2] | | |] eqn:Hrec; cbn [bind]; try discriminate.
      intros H; injection H as <- <- <-.
      destruct (IH _ _ _ _ _ Hrec) as [Hle Hor]. split; [lia | exact Hor].
Qed.

Lemma pass_cut_inv (opt : Options) (data d0 : list Z) (fuel : nat)
    (e e' : engine) (brk : bool) (pos : Z) :
  options_ok opt ->
  pass fuel opt e = Ret (brk, e') ->
  pass_cut opt data d0 e pos ->
  output_cut data d0 (e_cout e') (len data)
  /\ (brk = false -> exists pos', pass_cut opt data d0 e' pos').
Proof.
  intros Hopt Hrun (Hholds & Hstream & Hb & Hout).
  pose proof Hholds as (Hpre & Hpos & Hm & Hs).
  destruct (options_ok_buffer opt Hopt) as (_ & Hbb & Hc0 & _).
  remember (sync_size opt + contig_size opt) as b eqn:Hbdef.
  set (pre := sync_pre_size e) in *.
  unfold pass in Hrun. fold pre in Hrun. rewrite Hb in Hrun.
  rewrite sz_sub_small in Hrun by (rewrite SIZE_MOD_eq; lia).
  destruct (readData _ _ _ _ _) as [[[[n r1] m1] cin1] | | |] eqn:Hread;
    cbn [bind] in Hrun; try discriminate.
  apply readData_content in Hread; [| lia | lia].
  rewrite Z.add_0_l in Hread. destruct Hread as (Hlen & Hcase).
  assert (H1 : exists pos1,
             0 <= n /\ pre + n <= b
             /\ pos1 = pos + n /\ pos1 <= len data
             /\ slice m1 0 (pre + n) = slice data (pos - pre) (pre + n)
             /\ stream_at data cin1 pos1
             /\ _in_pkt_size r1 = 0).
  { exists (pos + n).
    destruct Hcase as [(-> & Hr1 & Hfirst & Hcin)
                      | (-> & Hpos1 & -> & Hf & He & Hsz & Hfit
                         & Hm1 & Hin1 & Hf1 & He1)].
    - rewrite !Z.add_0_r. repeat split; try lia.
      + rewrite <- Hs. unfold slice. cbn [Z.to_nat skipn]. exact Hfirst.
      + destruct Hcin as [-> | Hfail]; [exact Hstream |].
        intros Habs. congruence.
      + destruct Hr1 as [-> | ->]; reflexivity.
    - specialize (Hstream Hf He).
      assert (Hdata : pos + (b - pre) <= len data).
      { rewrite Hstream, len_skipn in Hsz by lia. lia. }
      repeat split; try lia.
      + rewrite Hm1, Hstream. apply holds_read; try assumption; lia.
      + intros _ _. rewrite Hin1, Hstream. apply skipn_skipn_Z; lia. }
  destruct H1 as (pos1 & Hn & Hnb & Hpos1 & Hdata1 & HJ & Hstream1 & Hi1).
  rewrite sz_add_small in Hrun by (rewrite SIZE_MOD_eq; lia).
  set (sz := pre + n) in *.
  set (base := pos - pre) in *.
  assert (Hbase : 0 <= base /\ base + sz = pos1) by (unfold base, sz; lia).
  destruct (search_loop _ _ _ _ _ _ _) as [[[start r2] tried] | | |]
    eqn:Hsearch; cbn [bind] in Hrun; try discriminate.
  pose proof (search_loop_range _ _ _ _ _ _ _ _ _ _ Hsearch) as [Hs0 Hs1].
  apply search_loop_cases in Hsearch.
  destruct Hsearch as [-> | (c & Hc & ->)].
  { unfold inputPacketSize in Hrun. rewrite Hi1 in Hrun.
    cbn [Z.eqb] in Hrun. injection Hrun as <- <-. cbn [e_cout].
    split; [| discriminate].
    eapply output_cut_le; [exact Hout | fold base; lia]. }
  destruct (options_ok_candidates_small opt c Hopt Hc) as [Hh Hpk].
  unfold PKT_SIZE in Hpk.
  destruct Hs1 as [Hs1 | Habs];
    [| apply (f_equal _in_pkt_size) in Habs;
       cbn [confirmed _in_pkt_size] in Habs; lia].
  cbn [inputPacketSize confirmed _in_pkt_size] in Hrun.
  replace (fst c =? 0) with false in Hrun
    by (symmetry; apply Z.eqb_neq; lia).
  rewrite !Z.add_0_l in Hrun.
  destruct (drain_loop _ _ _ _ _ _) as [[[start' r3] cout3] | | |]
    eqn:Hdrain; cbn [bind] in Hrun; try discriminate.
  assert (Hfr2 : framed opt (confirmed r1 (fst c) (snd c)))
    by (apply framed_confirmed; exact Hc).
  destruct (drain_loop_cut opt data d0 m1 base sz _ Hopt HJ (proj1 Hbase)
              _ _ _ _ _ _ Hdrain Hfr2 Hs0) as (Hout3 & Hle & Hor & Hsf).
  { eapply output_cut_le; [exact Hout | fold base; lia]. }
  assert (Hstart' : start' <= sz) by lia.
  destruct (negb (Status_eqb (status r3) RS_OK)).
  { injection Hrun as <- <-. cbn [e_cout]. split; [| discriminate].
    eapply output_cut_le; [exact Hout3 | lia]. }
  unfold after_drain in Hrun. cbn [sync_buf resync e_cin e_cout] in Hrun.
  rewrite compact_in in Hrun by (rewrite ?SIZE_MOD_eq; lia).
  cbn [bind] in Hrun.
  set (pre' := sz - start') in *.
  set (m2 := slice m1 start' pre' ++ skipn (Z.to_nat pre') m1) in *.
  set (r4 := if pre' >=? inputPacketSize r3
             then setStatus r3 RS_SYNC_LOST else r3) in *.
  destruct (steady_loop fuel _) as [e1 | | |] eqn:Hloop;
    cbn [bind] in Hrun; try discriminate.
  injection Hrun as <- <-.
  assert (Hm2 : len m2 = b).
  { unfold m2. rewrite len_app, len_slice, len_skipn by lia. lia. }
  destruct (steady_loop_cut opt data d0 fuel Hopt _ e1 pos1 Hloop)
    as (Hlen1 & pos' & Hcut').
  { unfold steady_cut. cbn [sync_buf sync_pre_size e_cin e_cout resync].
    split; [| split; [exact Hstream1 | split]].
    - unfold holds. rewrite Hm2. repeat split; try lia.
      unfold m2. unfold slice at 1. cbn [Z.to_nat skipn].
      rewrite firstn_app_exact by (apply len_slice; lia).
      replace (pos1 - pre') with (base + start') by lia.
      rewrite <- (slice_slice data base sz start' pre') by lia.
      rewrite <- HJ. rewrite slice_slice by lia. reflexivity.
    - apply (framed_same opt (confirmed r1 (fst c) (snd c)));
        [exact Hfr2 |].
      unfold r4. destruct (pre' >=? inputPacketSize r3); [| exact Hsf].
      eapply same_framing_trans; [exact Hsf | apply same_framing_setStatus].
    - replace (pos1 - pre') with (base + start') by lia. exact Hout3. }
  cbn [sync_buf] in Hlen1.
  destruct Hcut' as (Hh' & Hst' & Hfr' & Hout').
  split.
  - eapply output_cut_le; [exact Hout' |].
    destruct Hh' as (? & ? & _). lia.
  - intros _. exists pos'. unfold pass_cut.
    repeat split; try assumption; try apply Hh'. congruence.
Qed.

Lemma main_loop_cut (opt : Options) (data d0 : list Z) (fuel : nat) :
  options_ok opt ->
  forall e e' pos,
    main_loop fuel opt e = Ret e' ->
    pass_cut opt data d0 e pos ->
    output_cut data d0 (e_cout e') (len data).
Proof.
  intros Hopt.
  induction fuel as [| fuel IH]; intros e e' pos Hrun Hcut;
    cbn [main_loop] in Hrun; [discriminate |].
  destruct (pass fuel opt e) as [[brk e1] | | |] eqn:Hpass;
    cbn [bind] in Hrun; try discriminate.
  destruct (pass_cut_inv opt data d0 fuel e e1 brk pos Hopt Hpass Hcut)
    as (Hout & Hnext).
  destruct brk; [injection Hrun as <-; exact Hout |].
  destruct (Status_eqb (status (resync e1)) RS_OK
            || Status_eqb (status (resync e1)) RS_SYNC_LOST
               && cont_sync opt);
    [| injection Hrun as <-; exact Hout].
  destruct (Hnext eq_refl) as (pos' & Hcut').
  exact (IH e1 e' pos' Hrun Hcut').
Qed.

(** X16. The output is cut from the input. Whatever the input and the
    options, what a run has written when it returns without a failed
    write is a sequence of pieces of the input, taken at increasing
    offsets and without overlap: no byte is invented, none is written
    twice, and the order of the input is kept. *)
Theorem output_is_cut_from_input
    (opt : Options) (fuel : nat) (cin : istream) (cout : ostream)
    (e : engine) :
  options_ok opt ->
  run fuel opt cin cout = Ret e ->
  out_fail (e_cout e) = false ->
  exists segs,
    out_data (e_cout e)
    = out_data cout ++ concat (map (cut (in_data cin)) segs)
    /\ ordered 0 segs (len (in_data cin)).
Proof.
  intros Hopt Hrun Hgood. unfold run in Hrun.
  destruct (options_ok_buffer opt Hopt) as (Hadd & Hb & _).
  apply (main_loop_cut opt (in_data cin) (out_data cout) fuel Hopt _ e 0
           Hrun); [| exact Hgood].
  unfold pass_cut, engine_init.
  cbn [sync_buf sync_pre_size e_cin e_cout].
  pose proof (len_nonneg (in_data cin)).
  split; [| split; [| split]].
  - unfold holds. rewrite Hadd, ByteBlock_len by lia.
    repeat split; try lia.
  - intros _ _. reflexivity.
  - rewrite Hadd. apply ByteBlock_len. lia.
  - intros _. exists []. cbn. rewrite app_nil_r. split; [reflexivity | lia].
Qed.

Lemma output_is_cut_from_input_witness :
  exists e segs,
    run 10 opt_small
      (stdin_of (concat (repeat (bare_packet 1) 8)) EndOfFile) stdout_new
    = Ret e
    /\ out_data (e_cout e)
       = out_data stdout_new
         ++ concat (map (cut (concat (repeat (bare_packet 1) 8))) segs)
    /\ ordered 0 segs (len (concat (repeat (bare_packet 1) 8))).
Proof.
  eexists.
  assert (Hrun : run 10 opt_small
                   (stdin_of (concat (repeat (bare_packet 1) 8)) EndOfFile)
                   stdout_new = Ret _) by (vm_compute; reflexivity).
  destruct (output_is_cut_from_input opt_small 10 _ _ _ opt_small_ok Hrun)
    as (segs & Hout & Hord); [vm_compute; reflexivity |].
  exists segs. split; [exact Hrun |]. split; [exact Hout | exact Hord].
Defined.
